(** * DLNA/UPnP renderer stream output (modules/stream_out/dlna/dlna.cpp)

    A shallow embedding of the stream-output module that casts to a
    UPnP/DLNA renderer: the codec predicates, the renderer control client
    ([MediaRenderer]), the output-chain manager ([sout_stream_sys_t]) and
    the four stream callbacks ([Add], [Send], [Flush], [Del]).

    The module is a client of the stream-output core, of libupnp and of
    the dialog and configuration services.  Those collaborators are an
    explicit record of oracles ([World]); a computation returns, next to
    its result and the new state, the list of the calls it made
    ([event]s), so that "what was called, in which order, with which
    arguments" is a property of a run.  Diagnostic messages ([msg_Dbg],
    [msg_Err]) are not modelled. *)

From Stdlib Require Import Ascii.
From stdpp Require Import base decidable option numbers list gmap strings pretty.

Local Open Scope string_scope.
Local Open Scope list_scope.
Local Open Scope Z_scope.

(** ** Types and constants of the VLC headers *)

(** [vlc_fourcc_t] is a 32-bit code made of four characters. *)
Definition vlc_fourcc_t := Z.

(** [VLC_FOURCC(a,b,c,d)] on a little-endian host: [a] is the low byte. *)
Definition VLC_FOURCC (a b c d : ascii) : vlc_fourcc_t :=
  Z.lor (Z.of_N (N_of_ascii a))
    (Z.lor (Z.shiftl (Z.of_N (N_of_ascii b)) 8)
       (Z.lor (Z.shiftl (Z.of_N (N_of_ascii c)) 16)
          (Z.shiftl (Z.of_N (N_of_ascii d)) 24))).

(** Modelled from the spec: the category of a track, [es_format_category_e]
    of vlc_es.h, which is not part of the module's source file.  The spec
    names the audio and the video category; the others stand for every
    category that is neither. *)
Inductive es_format_category_e :=
  UNKNOWN_ES | VIDEO_ES | AUDIO_ES | SPU_ES | DATA_ES.

Global Instance es_format_category_e_eq_dec : EqDecision es_format_category_e.
Proof. solve_decision. Defined.

(** Conversion of a 64-bit integer to [int]: the value modulo 2^32, taken
    in the range of a 32-bit two's complement integer. *)
Definition to_int (z : Z) : Z := (z + 2 ^ 31) `mod` 2 ^ 32 - 2 ^ 31.

Definition AV_TRANSPORT_SERVICE_TYPE : string :=
  "urn:schemas-upnp-org:service:AVTransport:1".
Definition CONNECTION_MANAGER_SERVICE_TYPE : string :=
  "urn:schemas-upnp-org:service:ConnectionManager:1".

(** ** Data model *)

(** Handles handed out by the stream-output core: a chain
    ([sout_stream_t *], the type of [p_out]) and a stream id inside a chain
    (the [void *] returned by [sout_StreamIdAdd], stored in [p_sub_id]). *)
Definition sout_stream_t := nat.
Definition sub_id_t := nat.

(** Address of a heap-allocated [sout_stream_id_sys_t]; this is also the
    opaque [void *id] the core passes to [Send], [Flush] and [Del]. *)
Definition ptr := nat.

(** [es_format_t], restricted to the fields the module reads.  The audio
    and video sub-formats are only passed through to collaborators. *)
Record es_format_t := Es_format {
  i_cat : es_format_category_e;
  i_codec : vlc_fourcc_t;
  i_id : Z
}.

Record sout_stream_id_sys_t := Stream_id {
  fmt : es_format_t;
  p_sub_id : option sub_id_t
}.

(** The members of [MediaRenderer] (declared in dlna.hpp) that the methods
    of this file read. *)
Record MediaRenderer := Renderer {
  base_url : string;
  device_url : string;
  handle : Z
}.

Record sout_stream_sys_t := Sys {
  renderer : MediaRenderer;
  p_out : option sout_stream_t;
  es_changed : bool;
  b_supports_video : bool;
  perf_warning_shown : bool;
  venc_opt_idx : Z;
  http_port : Z;
  streams : list ptr;
  out_streams : list ptr
}.

(** The constructor [sout_stream_sys_t(http_port, supports_video)]. *)
Definition sout_stream_sys_new (r : MediaRenderer) (port : Z)
    (supports_video : bool) : sout_stream_sys_t :=
  {| renderer := r; p_out := None; es_changed := true;
     b_supports_video := supports_video; perf_warning_shown := false;
     venc_opt_idx := -1; http_port := port; streams := []; out_streams := [] |}.

(** *** XML documents

    A device description is seen through the three DOM queries of
    [getServiceURL]: the list of "device" elements of the document (absent
    when the query returns null; an item may be null), for each device the
    list of its "service" elements (absent when null), and for each service
    the text of its child elements by tag name. *)
Definition service_element := list (string * string).
Definition device_element := option (list service_element).
Definition description_doc := option (list (option device_element)).

Record action_doc := Action {
  act_name : string;
  act_service : string;
  act_args : list (string * string)
}.

Inductive IXML_Document :=
| ActionDoc (a : action_doc)
| ResponseDoc (n : nat).

(** ** Calls to collaborators *)

Inductive event :=
| E_sout_StreamChainNew (psz_chain : string) (r : option sout_stream_t)
| E_sout_StreamIdAdd (s : sout_stream_t) (f : es_format_t) (r : option sub_id_t)
| E_sout_StreamIdDel (s : option sout_stream_t) (id : option sub_id_t)
| E_sout_StreamChainDelete (s : option sout_stream_t)
| E_sout_StreamFlush (s : option sout_stream_t) (id : sub_id_t)
| E_sout_StreamIdSend (s : option sout_stream_t) (id : sub_id_t) (buf : nat) (r : Z)
| E_block_Release (buf : nat)
| E_es_format_Clean (p : ptr)
| E_malloc_id (r : option ptr)
| E_free_id (p : ptr)
| E_var_InheritInteger (name : string) (r : Z)
| E_vlc_dialog_wait_question (r : Z)
| E_config_PutInt (name : string) (v : Z)
| E_GetVcodecOption (codec : vlc_fourcc_t) (f : es_format_t) (quality : Z)
    (r : option string)
| E_vlc_tick_now (r : Z)
| E_vlc_mrand48 (r : Z)
| E_getIpv4ForMulticast (r : option string)
| E_UpnpGetServerIpAddress (r : option string)
| E_asprintf (r : option string)
| E_free_str (s : option string)
| E_UpnpDownloadXmlDoc (url : string) (r : option description_doc)
| E_free_description_doc
| E_malloc_url (ok : bool)
| E_UpnpResolveURL (base rel : string) (r : option string)
| E_UpnpSendAction (hnd : Z) (url : option string) (service : string)
    (a : action_doc) (ret : Z) (resp : option nat)
| E_ixmlDocument_free (d : IXML_Document).

(** The collaborators.  Each oracle receives the calls made so far, so its
    answers may depend on everything that happened before (a clock, a
    random generator, a device that goes away).

    The record also carries the constants that the module takes from
    headers outside its source file: the two codecs of vlc_fourcc.h, the
    status codes of vlc_common.h and upnp.h, and the two configuration
    prefixes of renderer_common.hpp and dlna.hpp. *)
Record World := {
  VLC_CODEC_MP4A : vlc_fourcc_t;
  VLC_CODEC_H264 : vlc_fourcc_t;
  VLC_SUCCESS : Z;
  VLC_EGENERIC : Z;
  VLC_ENOMEM : Z;
  UPNP_E_SUCCESS : Z;
  sout_StreamChainNew : list event -> string -> option sout_stream_t;
  sout_StreamIdAdd : list event -> sout_stream_t -> es_format_t -> option sub_id_t;
  sout_StreamIdSend : list event -> option sout_stream_t -> sub_id_t -> nat -> Z;
  es_format_Clean : es_format_t -> es_format_t;
  malloc_id : list event -> bool;
  var_InheritInteger : list event -> string -> Z;
  vlc_dialog_wait_question : list event -> Z;
  vlc_sout_renderer_GetVcodecOption :
    list event -> vlc_fourcc_t -> es_format_t -> Z -> option string;
  vlc_tick_now : list event -> Z;
  vlc_mrand48 : list event -> Z;
  getIpv4ForMulticast : list event -> option string;
  UpnpGetServerIpAddress : list event -> option string;
  asprintf_ok : list event -> bool;
  UpnpDownloadXmlDoc : list event -> string -> option description_doc;
  malloc_url : list event -> bool;
  UpnpResolveURL : list event -> string -> string -> option string;
  UpnpSendAction :
    list event -> Z -> option string -> string -> action_doc -> Z * option nat;
  RENDERER_CFG_PREFIX : string;
  SOUT_CFG_PREFIX : string
}.

(** ** The machine: session state, heap of stream records *)

Record machine := Machine {
  sys : sout_stream_sys_t;
  mem : gmap ptr sout_stream_id_sys_t
}.

(** A computation reads the history of calls (for the oracles) and the
    machine, and yields a result, the new machine and the calls it made. *)
Definition M (A : Type) : Type :=
  list event -> machine -> A * machine * list event.

Definition ret {A} (a : A) : M A := fun _ m => (a, m, []).

Definition bind {A B} (c : M A) (k : A -> M B) : M B :=
  fun h m =>
    let '(a, m1, t1) := c h m in
    let '(b, m2, t2) := k a (h ++ t1) m1 in
    (b, m2, t1 ++ t2).

Declare Scope m_scope.
Delimit Scope m_scope with M.
Notation "x <- c1 ;; c2" := (bind c1 (fun x => c2))
  (at level 100, c1 at next level, right associativity) : m_scope.
Notation "c1 ;; c2" := (bind c1 (fun _ => c2))
  (at level 100, right associativity) : m_scope.
Local Open Scope m_scope.

(** Ask an oracle and record the call. *)
Definition call {R} (f : list event -> R) (mk : R -> event) : M R :=
  fun h m => let r := f h in (r, m, [mk r]).

(** Record a call that returns nothing. *)
Definition emit (e : event) : M unit := fun _ m => (tt, m, [e]).

Definition get_sys : M sout_stream_sys_t := fun _ m => (sys m, m, []).
Definition get_mem : M (gmap ptr sout_stream_id_sys_t) := fun _ m => (mem m, m, []).
Definition set_sys (f : sout_stream_sys_t -> sout_stream_sys_t) : M unit :=
  fun _ m => (tt, {| sys := f (sys m); mem := mem m |}, []).
Definition set_mem
    (f : gmap ptr sout_stream_id_sys_t -> gmap ptr sout_stream_id_sys_t) : M unit :=
  fun _ m => (tt, {| sys := sys m; mem := f (mem m) |}, []).

(** Field updates of [sout_stream_sys_t]. *)
Definition with_p_out (v : option sout_stream_t) (s : sout_stream_sys_t) :=
  {| renderer := renderer s; p_out := v; es_changed := es_changed s;
     b_supports_video := b_supports_video s;
     perf_warning_shown := perf_warning_shown s;
     venc_opt_idx := venc_opt_idx s; http_port := http_port s;
     streams := streams s; out_streams := out_streams s |}.
Definition with_es_changed (v : bool) (s : sout_stream_sys_t) :=
  {| renderer := renderer s; p_out := p_out s; es_changed := v;
     b_supports_video := b_supports_video s;
     perf_warning_shown := perf_warning_shown s;
     venc_opt_idx := venc_opt_idx s; http_port := http_port s;
     streams := streams s; out_streams := out_streams s |}.
Definition with_perf_warning_shown (v : bool) (s : sout_stream_sys_t) :=
  {| renderer := renderer s; p_out := p_out s; es_changed := es_changed s;
     b_supports_video := b_supports_video s;
     perf_warning_shown := v;
     venc_opt_idx := venc_opt_idx s; http_port := http_port s;
     streams := streams s; out_streams := out_streams s |}.
Definition with_streams (v : list ptr) (s : sout_stream_sys_t) :=
  {| renderer := renderer s; p_out := p_out s; es_changed := es_changed s;
     b_supports_video := b_supports_video s;
     perf_warning_shown := perf_warning_shown s;
     venc_opt_idx := venc_opt_idx s; http_port := http_port s;
     streams := v; out_streams := out_streams s |}.
Definition with_out_streams (v : list ptr) (s : sout_stream_sys_t) :=
  {| renderer := renderer s; p_out := p_out s; es_changed := es_changed s;
     b_supports_video := b_supports_video s;
     perf_warning_shown := perf_warning_shown s;
     venc_opt_idx := venc_opt_idx s; http_port := http_port s;
     streams := streams s; out_streams := v |}.

(** Field updates of a stream record. *)
Definition with_p_sub_id (v : option sub_id_t) (r : sout_stream_id_sys_t) :=
  {| fmt := fmt r; p_sub_id := v |}.
Definition with_fmt (f : es_format_t) (r : sout_stream_id_sys_t) :=
  {| fmt := f; p_sub_id := p_sub_id r |}.

Section Dlna.

Variable w : World.

(** ** Codec predicates *)

Definition canDecodeAudio (i_codec : vlc_fourcc_t) : bool :=
  bool_decide (i_codec = VLC_CODEC_MP4A w).

Definition canDecodeVideo (i_codec : vlc_fourcc_t) : bool :=
  bool_decide (i_codec = VLC_CODEC_H264 w).

(** ** Renderer control client: [MediaRenderer] *)

(** Modelled from the spec: [xml_getChildElementValue] is defined in the
    UPnP discovery module, outside this file.  The "requested endpoint
    field" of a service is read as the text of the first child element
    with the given tag, null when there is none. *)
Fixpoint xml_getChildElementValue (e : service_element) (name : string)
    : option string :=
  match e with
  | [] => None
  | (tag, value) :: e' =>
      if String.eqb tag name then Some value
      else xml_getChildElementValue e' name
  end.

(** [strstr(haystack, needle) != NULL]. *)
Definition strstr (haystack needle : string) : bool :=
  match String.index 0 needle haystack with Some _ => true | None => false end.

(** The inner loop of [getServiceURL].  [None]: every service was skipped
    by [continue]; [Some r]: the function returned [r] ([r = None] is the
    [return nullptr] after a failed allocation or URL resolution). *)
Fixpoint getServiceURL_services (self : MediaRenderer) (type service : string)
    (p_service_list : list service_element) : M (option (option string)) :=
  match p_service_list with
  | [] => ret None
  | p_service_element :: rest =>
      match xml_getChildElementValue p_service_element "serviceType" with
      | None => getServiceURL_services self type service rest
      | Some psz_service_type =>
          if negb (strstr psz_service_type type)
          then getServiceURL_services self type service rest
          else
            match xml_getChildElementValue p_service_element service with
            | None => getServiceURL_services self type service rest
            | Some psz_control_url =>
                psz_url <- call (malloc_url w) E_malloc_url ;;
                if psz_url then
                  r <- call (fun h => UpnpResolveURL w h (base_url self) psz_control_url)
                            (E_UpnpResolveURL (base_url self) psz_control_url) ;;
                  ret (Some r)
                else ret (Some None)
            end
      end
  end.

(** The outer loop of [getServiceURL]. *)
Fixpoint getServiceURL_devices (self : MediaRenderer) (type service : string)
    (p_device_list : list (option device_element)) : M (option string) :=
  match p_device_list with
  | [] => ret None
  | None :: rest => getServiceURL_devices self type service rest
  | Some None :: rest => getServiceURL_devices self type service rest
  | Some (Some p_service_list) :: rest =>
      r <- getServiceURL_services self type service p_service_list ;;
      match r with
      | Some res => ret res
      | None => getServiceURL_devices self type service rest
      end
  end.

Definition getServiceURL (self : MediaRenderer) (type service : string)
    : M (option string) :=
  d <- call (fun h => UpnpDownloadXmlDoc w h (device_url self))
            (E_UpnpDownloadXmlDoc (device_url self)) ;;
  match d with
  | None => ret None
  | Some p_description_doc =>
      emit E_free_description_doc ;;
      match p_description_doc with
      | None => ret None
      | Some p_device_list =>
          getServiceURL_devices self type service p_device_list
      end
  end.

(** [UpnpMakeAction] followed by one [UpnpAddToAction] per argument. *)
Definition make_action (action_name service_type : string)
    (arguments : list (string * string)) : action_doc :=
  fold_left
    (fun action arg =>
       {| act_name := act_name action; act_service := act_service action;
          act_args := act_args action ++ [arg] |})
    arguments
    {| act_name := action_name; act_service := service_type; act_args := [] |}.

(** [SendAction] returns the response document, or [None] for failure.
    The three documents and strings it holds are released by
    [ixmlDocument_free] and [free]; [free(NULL)] is recorded as a call with
    a null argument. *)
Definition SendAction (self : MediaRenderer) (action_name service_type : string)
    (arguments : list (string * string)) : M (option nat) :=
  let action := make_action action_name service_type arguments in
  control_url <- getServiceURL self service_type "controlURL" ;;
  res <- call (fun h => UpnpSendAction w h (handle self) control_url
                           service_type action)
              (fun res => E_UpnpSendAction (handle self) control_url
                            service_type action res.1 res.2) ;;
  let '(ret_code, response) := res in
  emit (E_ixmlDocument_free (ActionDoc action)) ;;
  emit (E_free_str control_url) ;;
  if negb (ret_code =? UPNP_E_SUCCESS w) then
    match response with
    | Some d => emit (E_ixmlDocument_free (ResponseDoc d)) ;; ret None
    | None => ret None
    end
  else ret response.

Definition Play (self : MediaRenderer) (speed : string) : M Z :=
  p_response <- SendAction self "Play" AV_TRANSPORT_SERVICE_TYPE
                  [("InstanceID", "0"); ("Speed", speed)] ;;
  match p_response with
  | None => ret (VLC_EGENERIC w)
  | Some d => emit (E_ixmlDocument_free (ResponseDoc d)) ;; ret (VLC_SUCCESS w)
  end.

Definition Stop (self : MediaRenderer) : M Z :=
  p_response <- SendAction self "Stop" AV_TRANSPORT_SERVICE_TYPE
                  [("InstanceID", "0")] ;;
  match p_response with
  | None => ret (VLC_EGENERIC w)
  | Some d => emit (E_ixmlDocument_free (ResponseDoc d)) ;; ret (VLC_SUCCESS w)
  end.

Definition SetAVTransportURI (self : MediaRenderer) (uri : string) : M Z :=
  p_response <- SendAction self "SetAVTransportURI" AV_TRANSPORT_SERVICE_TYPE
                  [("InstanceID", "0"); ("CurrentURI", uri);
                   ("CurrentURIMetaData", "")] ;;
  match p_response with
  | None => ret (VLC_EGENERIC w)
  | Some d => emit (E_ixmlDocument_free (ResponseDoc d)) ;; ret (VLC_SUCCESS w)
  end.


(** ** Output chain manager: [sout_stream_sys_t] *)

(** [getServerIPAddress], in the configuration without UPNP_ENABLE_IPV6:
    the multicast IPv4 address, else a copy of libupnp's server address. *)
Definition getServerIPAddress : M (option string) :=
  ip <- call (getIpv4ForMulticast w) E_getIpv4ForMulticast ;;
  match ip with
  | None => call (UpnpGetServerIpAddress w) E_UpnpGetServerIpAddress
  | Some _ => ret ip
  end.

(** Modelled from the spec: [vlc_fourcc_to_char] of vlc_fourcc.h, outside
    this file, writes the four bytes of the code ("4-byte code semantics"),
    low byte first on a little-endian host.  [GetAcodecOption] then inserts
    the NUL-terminated buffer into the stream: the bytes up to the first
    NUL. *)
Definition fourcc_byte (c : vlc_fourcc_t) (i : Z) : ascii :=
  ascii_of_N (Z.to_N (Z.land (Z.shiftr c (8 * i)) 255)).

Fixpoint c_str (l : list ascii) : string :=
  match l with
  | [] => ""
  | a :: l' => if Ascii.eqb a zero then "" else String a (c_str l')
  end.

Definition vlc_fourcc_to_char (c : vlc_fourcc_t) : string :=
  c_str [fourcc_byte c 0; fourcc_byte c 1; fourcc_byte c 2; fourcc_byte c 3].

Definition GetAcodecOption (p_codec_audio : vlc_fourcc_t) : string :=
  "acodec=" +:+ vlc_fourcc_to_char p_codec_audio +:+ ","
  +:+ "aenc=avcodec{codec=aac},".

(** The locals of [UpdateOutput] that the first loop computes.  The two
    [p_original_*] pointers point into stream records that nothing changes
    before their use; they are kept as the format they point to. *)
Record classification := Classification {
  canRemux : bool;
  i_codec_video : vlc_fourcc_t;
  i_codec_audio : vlc_fourcc_t;
  p_original_audio : option es_format_t;
  p_original_video : option es_format_t;
  new_streams : list ptr
}.

Definition classification_init : classification :=
  {| canRemux := true; i_codec_video := 0; i_codec_audio := 0;
     p_original_audio := None; p_original_video := None; new_streams := [] |}.

(** One iteration of [for (sout_stream_id_sys_t *stream : streams)].  A
    pointer of [streams] always has its record in the heap; the model
    skips one that has not (the source would read freed memory). *)
Definition classify_step (supports_video : bool)
    (mm : gmap ptr sout_stream_id_sys_t) (c : classification) (stream : ptr)
    : classification :=
  match mm !! stream with
  | None => c
  | Some rec =>
      let p_es := fmt rec in
      if bool_decide (i_cat p_es = AUDIO_ES) then
        if negb (canDecodeAudio (i_codec p_es)) then
          {| canRemux := false; i_codec_video := i_codec_video c;
             i_codec_audio := i_codec_audio c;
             p_original_audio := Some p_es;
             p_original_video := p_original_video c;
             new_streams := new_streams c ++ [stream] |}
        else if i_codec_audio c =? 0 then
          {| canRemux := canRemux c; i_codec_video := i_codec_video c;
             i_codec_audio := i_codec p_es;
             p_original_audio := p_original_audio c;
             p_original_video := p_original_video c;
             new_streams := new_streams c ++ [stream] |}
        else
          {| canRemux := canRemux c; i_codec_video := i_codec_video c;
             i_codec_audio := i_codec_audio c;
             p_original_audio := p_original_audio c;
             p_original_video := p_original_video c;
             new_streams := new_streams c ++ [stream] |}
      else if supports_video && bool_decide (i_cat p_es = VIDEO_ES) then
        if negb (canDecodeVideo (i_codec p_es)) then
          {| canRemux := false; i_codec_video := i_codec_video c;
             i_codec_audio := i_codec_audio c;
             p_original_audio := p_original_audio c;
             p_original_video := Some p_es;
             new_streams := new_streams c ++ [stream] |}
        else if i_codec_video c =? 0 then
          {| canRemux := canRemux c; i_codec_video := i_codec p_es;
             i_codec_audio := i_codec_audio c;
             p_original_audio := p_original_audio c;
             p_original_video := p_original_video c;
             new_streams := new_streams c ++ [stream] |}
        else
          {| canRemux := canRemux c; i_codec_video := i_codec_video c;
             i_codec_audio := i_codec_audio c;
             p_original_audio := p_original_audio c;
             p_original_video := p_original_video c;
             new_streams := new_streams c ++ [stream] |}
      else c
  end.

Definition classify (supports_video : bool)
    (mm : gmap ptr sout_stream_id_sys_t) (l : list ptr) : classification :=
  fold_left (classify_step supports_video mm) l classification_init.

(** The loop of [stopSoutChain] over [out_streams].  A pointer of
    [out_streams] always has its record in the heap; for one that has not
    the model passes a null stream id and writes nothing. *)
Fixpoint stopSoutChain_ids (out : option sout_stream_t) (l : list ptr) : M unit :=
  match l with
  | [] => ret tt
  | p :: rest =>
      mm <- get_mem ;;
      emit (E_sout_StreamIdDel out (mm !! p ≫= p_sub_id)) ;;
      set_mem (alter (with_p_sub_id None) p) ;;
      stopSoutChain_ids out rest
  end.

Definition stopSoutChain : M unit :=
  s <- get_sys ;;
  stopSoutChain_ids (p_out s) (out_streams s) ;;
  set_sys (with_out_streams []) ;;
  emit (E_sout_StreamChainDelete (p_out s)) ;;
  set_sys (with_p_out None).

(** The loop of [startSoutChain] that adds each stream to the new chain
    and erases the ones the chain refuses; the result is what is left of
    [out_streams].  As in [classify_step], a pointer without record is
    skipped. *)
Fixpoint startSoutChain_ids (out : sout_stream_t) (l : list ptr) : M (list ptr) :=
  match l with
  | [] => ret []
  | p_sys_id :: rest =>
      mm <- get_mem ;;
      match mm !! p_sys_id with
      | None => startSoutChain_ids out rest
      | Some rec =>
          r <- call (fun h => sout_StreamIdAdd w h out (fmt rec))
                    (E_sout_StreamIdAdd out (fmt rec)) ;;
          set_mem (alter (with_p_sub_id r) p_sys_id) ;;
          match r with
          | None =>
              emit (E_es_format_Clean p_sys_id) ;;
              set_mem (alter (with_fmt (es_format_Clean w (fmt rec))) p_sys_id) ;;
              startSoutChain_ids out rest
          | Some _ =>
              kept <- startSoutChain_ids out rest ;;
              ret (p_sys_id :: kept)
          end
      end
  end.

Definition startSoutChain (new_streams : list ptr) (sout : string) : M bool :=
  set_sys (with_out_streams new_streams) ;;
  r <- call (fun h => sout_StreamChainNew w h sout) (E_sout_StreamChainNew sout) ;;
  set_sys (with_p_out r) ;;
  match r with
  | None =>
      set_sys (with_out_streams []) ;;
      ret false
  | Some out =>
      kept <- startSoutChain_ids out new_streams ;;
      set_sys (with_out_streams kept) ;;
      match kept with
      | [] => stopSoutChain ;; ret false
      | _ :: _ => ret true
      end
  end.

(** The resource path ["/dlna/<tick>/<random>/stream"]: the tick is a
    signed 64-bit count, the random number is converted to [uint64_t]. *)
Definition root_url (tick rnd : Z) : string :=
  "/dlna" +:+ "/" +:+ pretty tick +:+ "/" +:+ pretty (rnd `mod` 2 ^ 64)
  +:+ "/stream".

(** The block [if ( !canRemux ) { ... }] of [UpdateOutput].  [inl code] is
    an early [return code]; [inr s] is what the block wrote to [ssout].
    The conversion quality is read as a 64-bit integer and stored in
    [const int i_quality]. *)
Definition UpdateOutput_transcode (s : sout_stream_sys_t) (c : classification)
    : M (Z + string) :=
  proceed <-
    (if negb (perf_warning_shown s) && (i_codec_video c =? 0)
        && bool_decide (is_Some (p_original_video c))
     then
       show <- call (fun h => var_InheritInteger w h
                                (RENDERER_CFG_PREFIX w +:+ "show-perf-warning"))
                    (E_var_InheritInteger
                       (RENDERER_CFG_PREFIX w +:+ "show-perf-warning")) ;;
       if show =? 0 then ret true
       else
         res <- call (vlc_dialog_wait_question w) E_vlc_dialog_wait_question ;;
         if res <=? 0 then ret false
         else
           set_sys (with_perf_warning_shown true) ;;
           (if res =? 2
            then emit (E_config_PutInt
                         (RENDERER_CFG_PREFIX w +:+ "show-perf-warning") 0)
            else ret tt) ;;
           ret true
     else ret true) ;;
  if negb proceed then ret (inl (Z.b2z false))
  else
    quality <- call (fun h => var_InheritInteger w h
                                (SOUT_CFG_PREFIX w +:+ "conversion-quality"))
                    (E_var_InheritInteger
                       (SOUT_CFG_PREFIX w +:+ "conversion-quality")) ;;
    let i_quality := to_int quality in
    let acodec :=
      if (i_codec_audio c =? 0) && bool_decide (is_Some (p_original_audio c))
      then GetAcodecOption (VLC_CODEC_MP4A w) else "" in
    match (if i_codec_video c =? 0 then p_original_video c else None) with
    | Some p_video =>
        r <- call (fun h => vlc_sout_renderer_GetVcodecOption w h
                              (VLC_CODEC_H264 w) p_video i_quality)
                  (E_GetVcodecOption (VLC_CODEC_H264 w) p_video i_quality) ;;
        match r with
        | None => ret (inl (VLC_EGENERIC w))
        | Some vcodec => ret (inr ("transcode{" +:+ acodec +:+ vcodec +:+ "}:"))
        end
    | None => ret (inr ("transcode{" +:+ acodec +:+ "}:"))
    end.

(** [UpdateOutput] from the computation of [root_url] to the end; [ssout]
    holds what has been written to the chain description so far. *)
Definition UpdateOutput_serve (s : sout_stream_sys_t) (c : classification)
    (ssout : string) : M Z :=
  tick <- call (vlc_tick_now w) E_vlc_tick_now ;;
  rnd <- call (vlc_mrand48 w) E_vlc_mrand48 ;;
  let root := root_url tick rnd in
  let sout := ssout +:+ "http{dst=:" +:+ pretty (http_port s) +:+ root
              +:+ ",mux=" +:+ "mp4stream"
              +:+ ",access=http{mime=" +:+ "video/mp4" +:+ "}}" in
  ip <- getServerIPAddress ;;
  match ip with
  | None => ret (VLC_EGENERIC w)
  | Some ip =>
      uri <- call (fun h => if asprintf_ok w h
                            then Some ("http://" +:+ ip +:+ ":"
                                       +:+ pretty (http_port s) +:+ root)
                            else None)
                  E_asprintf ;;
      match uri with
      | None => emit (E_free_str (Some ip)) ;; ret (VLC_ENOMEM w)
      | Some uri =>
          ok <- startSoutChain (new_streams c) sout ;;
          if negb ok then
            emit (E_free_str (Some uri)) ;;
            emit (E_free_str (Some ip)) ;;
            ret (VLC_EGENERIC w)
          else
            Stop (renderer s) ;;
            SetAVTransportURI (renderer s) uri ;;
            Play (renderer s) "1" ;;
            emit (E_free_str (Some uri)) ;;
            emit (E_free_str (Some ip)) ;;
            ret (VLC_SUCCESS w)
      end
  end.

Definition UpdateOutput : M Z :=
  s <- get_sys ;;
  if negb (es_changed s) then ret (VLC_SUCCESS w)
  else
    set_sys (with_es_changed false) ;;
    mm <- get_mem ;;
    let c := classify (b_supports_video s) mm (streams s) in
    match new_streams c with
    | [] => ret (VLC_SUCCESS w)
    | _ :: _ =>
        t <- (if canRemux c then ret (inr "") else UpdateOutput_transcode s c) ;;
        match t with
        | inl code => ret code
        | inr ssout => UpdateOutput_serve s c ssout
        end
    end.

(** The search loop of [GetSubId]. *)
Fixpoint GetSubId_find (mm : gmap ptr sout_stream_id_sys_t) (id : ptr)
    (l : list ptr) : option sub_id_t :=
  match l with
  | [] => None
  | x :: l' =>
      if bool_decide (id = x) then mm !! x ≫= p_sub_id
      else GetSubId_find mm id l'
  end.

Definition GetSubId (id : ptr) (update : bool) : M (option sub_id_t) :=
  r <- (if update then UpdateOutput else ret (VLC_SUCCESS w)) ;;
  if update && negb (r =? VLC_SUCCESS w) then ret None
  else
    s <- get_sys ;;
    mm <- get_mem ;;
    ret (GetSubId_find mm id (out_streams s)).

(** ** Stream callbacks *)

(** [Add]: the new record gets an address that is not in use. *)
Definition Add (p_fmt : es_format_t) : M (option ptr) :=
  s <- get_sys ;;
  if negb (b_supports_video s) && negb (bool_decide (i_cat p_fmt = AUDIO_ES))
  then ret None
  else
    mm <- get_mem ;;
    p_sys_id <- call (fun h => if malloc_id w h then Some (fresh (dom mm))
                               else None)
                     E_malloc_id ;;
    match p_sys_id with
    | None => ret None
    | Some p =>
        set_mem (<[p := {| fmt := p_fmt; p_sub_id := None |}]>) ;;
        set_sys (fun s => with_streams (streams s ++ [p]) s) ;;
        set_sys (with_es_changed true) ;;
        ret (Some p)
    end.

Definition Send (id : ptr) (p_buffer : nat) : M Z :=
  id_sys <- GetSubId id true ;;
  match id_sys with
  | None => emit (E_block_Release p_buffer) ;; ret (VLC_EGENERIC w)
  | Some sub =>
      s <- get_sys ;;
      call (fun h => sout_StreamIdSend w h (p_out s) sub p_buffer)
           (E_sout_StreamIdSend (p_out s) sub p_buffer)
  end.

Definition Flush (id : ptr) : M unit :=
  id_sys <- GetSubId id false ;;
  match id_sys with
  | None => ret tt
  | Some sub =>
      s <- get_sys ;;
      emit (E_sout_StreamFlush (p_out s) sub) ;;
      stopSoutChain ;;
      set_sys (with_es_changed true)
  end.

(** [v.erase(it)] for the first [it] with [*it == id]. *)
Fixpoint erase_first (id : ptr) (l : list ptr) : list ptr :=
  match l with
  | [] => []
  | x :: l' => if bool_decide (x = id) then l' else x :: erase_first id l'
  end.

(** The loop of [Del] over the registry: it stops at the first record
    whose address is [id]. *)
Definition Del_streams (id : ptr) : M unit :=
  s <- get_sys ;;
  if bool_decide (id ∈ streams s) then
    mm <- get_mem ;;
    match mm !! id ≫= p_sub_id with
    | Some sub =>
        emit (E_sout_StreamIdDel (p_out s) (Some sub)) ;;
        set_sys (fun s => with_out_streams (erase_first id (out_streams s)) s)
    | None => ret tt
    end ;;
    emit (E_es_format_Clean id) ;;
    emit (E_free_id id) ;;
    set_mem (delete id) ;;
    set_sys (fun s => with_streams (erase_first id (streams s)) s)
  else ret tt.

Definition Del (id : ptr) : M unit :=
  Del_streams id ;;
  s <- get_sys ;;
  match out_streams s with
  | [] =>
      stopSoutChain ;;
      Stop (renderer s) ;;
      ret tt
  | _ :: _ => ret tt
  end.

End Dlna.

(** ** Observations on traces *)

(** The control actions dispatched in a trace, in order, with the code
    [UpnpSendAction] returned for each. *)
Definition action_result (e : event) : option (string * Z) :=
  match e with
  | E_UpnpSendAction _ _ _ a ret _ => Some (act_name a, ret)
  | _ => None
  end.

Definition action_results (tr : list event) : list (string * Z) :=
  omap action_result tr.

(** Calls made by the renderer control client. *)
Definition is_client (e : event) : bool :=
  match e with
  | E_UpnpDownloadXmlDoc _ _ | E_free_description_doc | E_malloc_url _
  | E_UpnpResolveURL _ _ _ | E_UpnpSendAction _ _ _ _ _ _
  | E_ixmlDocument_free _ | E_free_str _ => true
  | _ => false
  end.

(** Calls made while resolving a control URL. *)
Definition is_resolve (e : event) : bool :=
  match e with
  | E_UpnpDownloadXmlDoc _ _ | E_free_description_doc | E_malloc_url _
  | E_UpnpResolveURL _ _ _ => true
  | _ => false
  end.

(** Calls made to fill, empty and delete a chain. *)
Definition is_chain_op (e : event) : bool :=
  match e with
  | E_sout_StreamIdAdd _ _ _ | E_sout_StreamIdDel _ _ | E_es_format_Clean _
  | E_sout_StreamChainDelete _ => true
  | _ => false
  end.

(** Removals of a stream id from a chain. *)
Definition is_id_del (e : event) : bool :=
  match e with
  | E_sout_StreamIdDel _ _ => true
  | _ => false
  end.

(** The question put to the user before a video conversion. *)
Definition is_dialog (e : event) : bool :=
  match e with
  | E_vlc_dialog_wait_question _ => true
  | _ => false
  end.

(** A chain creation that failed. *)
Definition is_failed_chain_new (e : event) : bool :=
  match e with
  | E_sout_StreamChainNew _ None => true
  | _ => false
  end.

(** Everything of the session but the chain and its bound streams is the
    same in [s] and [s']. *)
Definition same_but_chain (s s' : sout_stream_sys_t) : Prop :=
  renderer s' = renderer s /\ es_changed s' = es_changed s /\
  b_supports_video s' = b_supports_video s /\
  perf_warning_shown s' = perf_warning_shown s /\
  venc_opt_idx s' = venc_opt_idx s /\ http_port s' = http_port s /\
  streams s' = streams s.

(** A string without the path separator. *)
Fixpoint no_slash (s : string) : bool :=
  match s with
  | EmptyString => true
  | String a s' => negb (Ascii.eqb a "/") && no_slash s'
  end.

(** ** Concrete sessions

    A renderer whose description lists a ConnectionManager and an
    AVTransport service, and a family of worlds around it: the chain
    factory, the dialog, the clock, the description fetch and the action
    transport vary, everything else succeeds.  The constants have the
    values of the VLC and libupnp headers: the codecs are the bytes of
    "mp4a" and "h264", VLC_SUCCESS and UPNP_E_SUCCESS are 0, VLC_EGENERIC
    is -1 and VLC_ENOMEM is -2. *)

Definition tv_description : description_doc :=
  Some [Some (Some
    [[("serviceType", CONNECTION_MANAGER_SERVICE_TYPE); ("controlURL", "/cm")];
     [("serviceType", AV_TRANSPORT_SERVICE_TYPE); ("controlURL", "/avt")]])].

Definition tv : MediaRenderer :=
  {| base_url := "http://tv:80"; device_url := "http://tv:80/desc.xml";
     handle := 3 |}.

Definition make_world
    (chain_new : list event -> string -> option sout_stream_t)
    (dialog : list event -> Z)
    (tick : list event -> Z)
    (ip : list event -> option string)
    (download : list event -> string -> option description_doc)
    (send : list event -> Z -> option string -> string -> action_doc
            -> Z * option nat) : World :=
  {| VLC_CODEC_MP4A := VLC_FOURCC "m" "p" "4" "a";
     VLC_CODEC_H264 := VLC_FOURCC "h" "2" "6" "4";
     VLC_SUCCESS := 0;
     VLC_EGENERIC := -1;
     VLC_ENOMEM := -2;
     UPNP_E_SUCCESS := 0;
     sout_StreamChainNew := chain_new;
     sout_StreamIdAdd := fun h _ _ => Some (length h);
     sout_StreamIdSend := fun _ _ _ _ => 0;
     es_format_Clean := fun _ => {| i_cat := UNKNOWN_ES; i_codec := 0; i_id := 0 |};
     malloc_id := fun _ => true;
     var_InheritInteger := fun _ _ => 1;
     vlc_dialog_wait_question := dialog;
     vlc_sout_renderer_GetVcodecOption :=
       fun _ _ _ _ => Some "venc=x264,vcodec=h264,";
     vlc_tick_now := tick;
     vlc_mrand48 := fun _ => 42;
     getIpv4ForMulticast := ip;
     UpnpGetServerIpAddress := fun _ => None;
     asprintf_ok := fun _ => true;
     UpnpDownloadXmlDoc := download;
     malloc_url := fun _ => true;
     UpnpResolveURL := fun _ b r => Some (b +:+ r);
     UpnpSendAction := send;
     RENDERER_CFG_PREFIX := "sout-renderer-";
     SOUT_CFG_PREFIX := "sout-dlna-" |}.

(** libupnp rejects a null control URL with UPNP_E_INVALID_PARAM (-101);
    this transport answers every other request. *)
Definition send_ok : list event -> Z -> option string -> string -> action_doc
    -> Z * option nat :=
  fun _ _ url _ _ =>
    match url with Some _ => (0, Some 9%nat) | None => (-101, None) end.

(** A transport on which SetAVTransportURI gets no answer
    (UPNP_E_SOCKET_CONNECT, -204). *)
Definition send_seturi_fails : list event -> Z -> option string -> string
    -> action_doc -> Z * option nat :=
  fun h hnd url svc a =>
    if String.eqb (act_name a) "SetAVTransportURI" then (-204, None)
    else send_ok h hnd url svc a.

Definition world_ok : World :=
  make_world (fun _ _ => Some 1%nat) (fun _ => 1)
    (fun h => 1000 + Z.of_nat (length h)) (fun _ => Some "10.0.0.2")
    (fun _ _ => Some tv_description) send_ok.

Definition world_seturi_fails : World :=
  make_world (fun _ _ => Some 1%nat) (fun _ => 1)
    (fun h => 1000 + Z.of_nat (length h)) (fun _ => Some "10.0.0.2")
    (fun _ _ => Some tv_description) send_seturi_fails.

Definition world_no_chain : World :=
  make_world (fun _ _ => None) (fun _ => 1)
    (fun h => 1000 + Z.of_nat (length h)) (fun _ => Some "10.0.0.2")
    (fun _ _ => Some tv_description) send_ok.

Definition world_no_ip : World :=
  make_world (fun _ _ => Some 1%nat) (fun _ => 1)
    (fun h => 1000 + Z.of_nat (length h)) (fun _ => None)
    (fun _ _ => Some tv_description) send_ok.

Definition world_cancel : World :=
  make_world (fun _ _ => Some 1%nat) (fun _ => 0)
    (fun h => 1000 + Z.of_nat (length h)) (fun _ => Some "10.0.0.2")
    (fun _ _ => Some tv_description) send_ok.

Definition world_no_description : World :=
  make_world (fun _ _ => Some 1%nat) (fun _ => 1)
    (fun h => 1000 + Z.of_nat (length h)) (fun _ => Some "10.0.0.2")
    (fun _ _ => None) send_ok.

(** A clock that does not advance between two readings. *)
Definition world_still_clock : World :=
  make_world (fun _ _ => Some 1%nat) (fun _ => 1)
    (fun _ => 1000) (fun _ => Some "10.0.0.2")
    (fun _ _ => Some tv_description) send_ok.

Definition mp4a_track : es_format_t :=
  {| i_cat := AUDIO_ES; i_codec := VLC_FOURCC "m" "p" "4" "a"; i_id := 0 |}.
Definition mpga_track : es_format_t :=
  {| i_cat := AUDIO_ES; i_codec := VLC_FOURCC "m" "p" "g" "a"; i_id := 1 |}.
Definition vp80_track : es_format_t :=
  {| i_cat := VIDEO_ES; i_codec := VLC_FOURCC "V" "P" "8" "0"; i_id := 2 |}.

(** A fresh session with video support. *)
Definition session_new : machine :=
  {| sys := sout_stream_sys_new tv 7070 true; mem := ∅ |}.

(** One audio track registered, nothing built yet: the track has address 0. *)
Definition session_one_track : machine :=
  (Add world_ok mp4a_track [] session_new).1.2.

(** The same session after its first data delivery: a chain is built and
    track 0 is bound to it. *)
Definition session_casting : machine :=
  (UpdateOutput world_ok [] session_one_track).1.2.

(** A second track (address 1) arrives while casting; the session is dirty
    and the first chain is still in place. *)
Definition session_casting_dirty : machine :=
  (Add world_ok mpga_track [] session_casting).1.2.

(** A session with one video track that needs conversion. *)
Definition session_video : machine :=
  (Add world_ok vp80_track [] session_new).1.2.

(** A video track (address 1) arrives while casting and the user declines
    the conversion: the first chain stays, track 1 is registered without a
    binding, and the session is no longer dirty. *)
Definition session_declined : machine :=
  (UpdateOutput world_cancel []
     (Add world_ok vp80_track [] session_casting).1.2).1.2.

(** Two rebuilds in one process under a clock that stands still: the first
    delivery builds a chain, a flush tears it down, the next delivery
    builds again. *)
Definition first_rebuild : Z * machine * list event :=
  UpdateOutput world_still_clock [] session_one_track.

Definition flush_between : unit * machine * list event :=
  Flush world_still_clock 0%nat first_rebuild.2 first_rebuild.1.2.

Definition second_rebuild : Z * machine * list event :=
  UpdateOutput world_still_clock (first_rebuild.2 ++ flush_between.2)
    flush_between.1.2.

(** A chain factory that answers, with a chain that takes no stream. *)
Definition world_refusing : World :=
  {| VLC_CODEC_MP4A := VLC_CODEC_MP4A world_ok;
     VLC_CODEC_H264 := VLC_CODEC_H264 world_ok;
     VLC_SUCCESS := VLC_SUCCESS world_ok;
     VLC_EGENERIC := VLC_EGENERIC world_ok;
     VLC_ENOMEM := VLC_ENOMEM world_ok;
     UPNP_E_SUCCESS := UPNP_E_SUCCESS world_ok;
     sout_StreamChainNew := sout_StreamChainNew world_ok;
     sout_StreamIdAdd := fun _ _ _ => None;
     sout_StreamIdSend := sout_StreamIdSend world_ok;
     es_format_Clean := es_format_Clean world_ok;
     malloc_id := malloc_id world_ok;
     var_InheritInteger := var_InheritInteger world_ok;
     vlc_dialog_wait_question := vlc_dialog_wait_question world_ok;
     vlc_sout_renderer_GetVcodecOption :=
       vlc_sout_renderer_GetVcodecOption world_ok;
     vlc_tick_now := vlc_tick_now world_ok;
     vlc_mrand48 := vlc_mrand48 world_ok;
     getIpv4ForMulticast := getIpv4ForMulticast world_ok;
     UpnpGetServerIpAddress := UpnpGetServerIpAddress world_ok;
     asprintf_ok := asprintf_ok world_ok;
     UpnpDownloadXmlDoc := UpnpDownloadXmlDoc world_ok;
     malloc_url := malloc_url world_ok;
     UpnpResolveURL := UpnpResolveURL world_ok;
     UpnpSendAction := UpnpSendAction world_ok;
     RENDERER_CFG_PREFIX := RENDERER_CFG_PREFIX world_ok;
     SOUT_CFG_PREFIX := SOUT_CFG_PREFIX world_ok |}.

Definition spu_track : es_format_t :=
  {| i_cat := SPU_ES; i_codec := VLC_FOURCC "s" "u" "b" "t"; i_id := 3 |}.

(** A session with video support whose only track is a subtitle track. *)
Definition session_subtitle : machine :=
  (Add world_ok spu_track [] session_new).1.2.

(** Two audio tracks (addresses 0 and 1) bound to one chain. *)
Definition session_two_tracks : machine :=
  (UpdateOutput world_ok []
     (Add world_ok mp4a_track [] session_one_track).1.2).1.2.

(** ** Well-formed sessions and further observations *)

(** A registered track takes part in the output when it is an audio track,
    or a video track on a session with video support: the two branches of
    the first loop of [UpdateOutput] that end in [push_back]. *)
Definition eligible (supports_video : bool)
    (mm : gmap ptr sout_stream_id_sys_t) (p : ptr) : bool :=
  match mm !! p with
  | None => false
  | Some rec =>
      bool_decide (i_cat (fmt rec) = AUDIO_ES)
      || (supports_video && bool_decide (i_cat (fmt rec) = VIDEO_ES))
  end.

(** A track whose codec the renderer takes as it is. *)
Definition remuxable (w : World) (supports_video : bool)
    (mm : gmap ptr sout_stream_id_sys_t) (p : ptr) : bool :=
  match mm !! p with
  | None => true
  | Some rec =>
      if bool_decide (i_cat (fmt rec) = AUDIO_ES)
      then canDecodeAudio w (i_codec (fmt rec))
      else if supports_video && bool_decide (i_cat (fmt rec) = VIDEO_ES)
           then canDecodeVideo w (i_codec (fmt rec))
           else true
  end.

(** The shape of a session between two callbacks: the registry has no
    address twice and every registered address has its record; the bound
    set has no address twice, a bound track is registered and holds a
    stream id, and there is a chain whenever a track is bound. *)
Definition session_inv (m : machine) : Prop :=
  NoDup (streams (sys m)) /\
  (forall p, p ∈ streams (sys m) -> is_Some (mem m !! p)) /\
  NoDup (out_streams (sys m)) /\
  (forall p, p ∈ out_streams (sys m) ->
     p ∈ streams (sys m) /\ is_Some (mem m !! p ≫= p_sub_id)) /\
  (out_streams (sys m) <> [] -> is_Some (p_out (sys m))).

(** One call of a stream callback, with any arguments and after any
    history of calls, takes the session from [m] to [m']. *)
Inductive callback (w : World) : machine -> machine -> Prop :=
  | callback_Add p_fmt h m : callback w m (Add w p_fmt h m).1.2
  | callback_Send id p_buffer h m : callback w m (Send w id p_buffer h m).1.2
  | callback_Flush id h m : callback w m (Flush w id h m).1.2
  | callback_Del id h m : callback w m (Del w id h m).1.2.

(** The requests dispatched in a trace, in order. *)
Definition dispatched_action (e : event) : option action_doc :=
  match e with
  | E_UpnpSendAction _ _ _ a _ _ => Some a
  | _ => None
  end.

Definition dispatched (tr : list event) : list action_doc :=
  omap dispatched_action tr.

(** Calls that look for the local address. *)
Definition is_ip_call (e : event) : bool :=
  match e with
  | E_getIpv4ForMulticast _ | E_UpnpGetServerIpAddress _ => true
  | _ => false
  end.

(** Calls of the conversion block of [UpdateOutput]: configuration,
    the question to the user, the video encoder options. *)
Definition is_conversion_call (e : event) : bool :=
  match e with
  | E_var_InheritInteger _ _ | E_vlc_dialog_wait_question _
  | E_config_PutInt _ _ | E_GetVcodecOption _ _ _ _ => true
  | _ => false
  end.

(** Calls that create, fill, empty or delete a chain. *)
Definition is_chain_call (e : event) : bool :=
  match e with
  | E_sout_StreamChainNew _ _ => true
  | _ => is_chain_op e
  end.

(** What happens to a buffer handed to [Send]. *)
Definition buffer_fate (buf : nat) (e : event) : option (option Z) :=
  match e with
  | E_block_Release b => if decide (b = buf) then Some None else None
  | E_sout_StreamIdSend _ _ b r => if decide (b = buf) then Some (Some r) else None
  | _ => None
  end.

(** How often the response document [n] is released in a trace. *)
Definition response_release (n : nat) (e : event) : bool :=
  match e with
  | E_ixmlDocument_free (ResponseDoc k) => bool_decide (k = n)
  | _ => false
  end.

Definition response_releases (n : nat) (tr : list event) : nat :=
  length (filter (fun e => response_release n e) tr).

(** Calls of the last phase of [UpdateOutput]. *)
Definition is_serve_call (e : event) : bool :=
  match e with
  | E_vlc_tick_now _ | E_vlc_mrand48 _ | E_asprintf _ => true
  | _ => is_ip_call e || is_chain_call e || is_client e
  end.

(** Calls of the adding loop of [startSoutChain]. *)
Definition is_add_op (e : event) : bool :=
  match e with
  | E_sout_StreamIdAdd _ _ _ | E_es_format_Clean _ => true
  | _ => false
  end.

(** The chain, the bound set and the heap are the same in [m] and [m']. *)
Definition same_chain (m m' : machine) : Prop :=
  mem m' = mem m /\ p_out (sys m') = p_out (sys m) /\
  out_streams (sys m') = out_streams (sys m).

(** The chain description [UpdateOutput] hands to the chain factory, the
    URI it announces to the renderer and the three requests of its
    control step, as functions of what was read in the run. *)
Definition chain_description (ssout : string) (port tick rnd : Z) : string :=
  ssout +:+ "http{dst=:" +:+ pretty port +:+ root_url tick rnd
  +:+ ",mux=" +:+ "mp4stream" +:+ ",access=http{mime=" +:+ "video/mp4" +:+ "}}".

Definition announced_uri (ip : string) (port tick rnd : Z) : string :=
  "http://" +:+ ip +:+ ":" +:+ pretty port +:+ root_url tick rnd.

Definition control_requests (uri : string) : list action_doc :=
  [{| act_name := "Stop"; act_service := AV_TRANSPORT_SERVICE_TYPE;
      act_args := [("InstanceID", "0")] |};
   {| act_name := "SetAVTransportURI"; act_service := AV_TRANSPORT_SERVICE_TYPE;
      act_args := [("InstanceID", "0"); ("CurrentURI", uri);
                   ("CurrentURIMetaData", "")] |};
   {| act_name := "Play"; act_service := AV_TRANSPORT_SERVICE_TYPE;
      act_args := [("InstanceID", "0"); ("Speed", "1")] |}].

(** What a run read from the clock and from the random generator. *)
Definition clock_reading (e : event) : option Z :=
  match e with
  | E_vlc_tick_now tick => Some tick
  | _ => None
  end.

Definition clock_readings (tr : list event) : list Z := omap clock_reading tr.

Definition random_reading (e : event) : option Z :=
  match e with
  | E_vlc_mrand48 rnd => Some rnd
  | _ => None
  end.

Definition random_readings (tr : list event) : list Z :=
  omap random_reading tr.

(** The streams offered to a chain in a trace, each with the format it was
    offered with and the answer of the chain. *)
Definition add_answer (e : event) : option (es_format_t * option sub_id_t) :=
  match e with
  | E_sout_StreamIdAdd _ f r => Some (f, r)
  | _ => None
  end.

Definition add_answers (tr : list event)
    : list (es_format_t * option sub_id_t) :=
  omap add_answer tr.

(** The field [service] of a service element whose type contains [type]:
    what one iteration of the inner loop of [getServiceURL] goes on
    with. *)
Definition service_field (type service : string) (e : service_element)
    : option string :=
  match xml_getChildElementValue e "serviceType" with
  | None => None
  | Some psz_service_type =>
      if strstr psz_service_type type
      then xml_getChildElementValue e service else None
  end.

(** These fields over a device list, in document order. *)
Definition matching_fields (type service : string)
    (devices : list (option device_element)) : list string :=
  mjoin ((fun d => match d with
                   | Some (Some l) => omap (service_field type service) l
                   | _ => []
                   end) <$> devices).

(** What the three AVTransport verbs have in common, for the verb [verb]
    with request name [name] and arguments [args]: one request with this
    name, the AVTransport service type and these arguments in this order
    goes to the control URL that [getServiceURL] gave; the verb reports
    success exactly when the dispatch reports success and hands out a
    response; a response that was handed out is released exactly once,
    whatever the dispatch reports; the session is not changed. *)
Definition control_verb_contract (w : World) (self : MediaRenderer)
    (name : string) (args : list (string * string)) (verb : M Z) : Prop :=
  forall h m,
  exists control_url pre ret_code response,
    getServiceURL w self AV_TRANSPORT_SERVICE_TYPE "controlURL" h m
    = (control_url, m, pre) /\
    UpnpSendAction w (h ++ pre) (handle self) control_url
      AV_TRANSPORT_SERVICE_TYPE
      {| act_name := name; act_service := AV_TRANSPORT_SERVICE_TYPE;
         act_args := args |}
    = (ret_code, response) /\
    (verb h m).1.1
    = (if (ret_code =? UPNP_E_SUCCESS w) && bool_decide (is_Some response)
       then VLC_SUCCESS w else VLC_EGENERIC w) /\
    (verb h m).1.2 = m /\
    dispatched (verb h m).2
    = [{| act_name := name; act_service := AV_TRANSPORT_SERVICE_TYPE;
          act_args := args |}] /\
    forall n,
      response_releases n (verb h m).2
      = if bool_decide (response = Some n) then 1%nat else 0%nat.

(** Registered tracks by what the first loop of [UpdateOutput] does with
    them: audio tracks the renderer can or cannot decode, and the same for
    video tracks on a session with video support. *)
Definition decodable_audio (w : World) (mm : gmap ptr sout_stream_id_sys_t)
    (p : ptr) : bool :=
  match mm !! p with
  | None => false
  | Some rec =>
      bool_decide (i_cat (fmt rec) = AUDIO_ES)
      && canDecodeAudio w (i_codec (fmt rec))
  end.

Definition undecodable_audio (w : World) (mm : gmap ptr sout_stream_id_sys_t)
    (p : ptr) : bool :=
  match mm !! p with
  | None => false
  | Some rec =>
      bool_decide (i_cat (fmt rec) = AUDIO_ES)
      && negb (canDecodeAudio w (i_codec (fmt rec)))
  end.

Definition decodable_video (w : World) (supports_video : bool)
    (mm : gmap ptr sout_stream_id_sys_t) (p : ptr) : bool :=
  match mm !! p with
  | None => false
  | Some rec =>
      supports_video && bool_decide (i_cat (fmt rec) = VIDEO_ES)
      && canDecodeVideo w (i_codec (fmt rec))
  end.

Definition undecodable_video (w : World) (supports_video : bool)
    (mm : gmap ptr sout_stream_id_sys_t) (p : ptr) : bool :=
  match mm !! p with
  | None => false
  | Some rec =>
      supports_video && bool_decide (i_cat (fmt rec) = VIDEO_ES)
      && negb (canDecodeVideo w (i_codec (fmt rec)))
  end.

(** The conversion stage asks for an audio (video) encoder when some
    registered audio (video) track cannot be decoded and none can. *)
Definition acodec_wanted (w : World) (mm : gmap ptr sout_stream_id_sys_t)
    (l : list ptr) : bool :=
  existsb (undecodable_audio w mm) l && negb (existsb (decodable_audio w mm) l).

Definition vcodec_wanted (w : World) (supports_video : bool)
    (mm : gmap ptr sout_stream_id_sys_t) (l : list ptr) : bool :=
  existsb (undecodable_video w supports_video mm) l
  && negb (existsb (decodable_video w supports_video mm) l).

(** * Properties *)

(** ** The codec predicates *)

(** The concrete worlds use VLC's codes, the bytes of "mp4a" and "h264". *)
Lemma world_ok_codecs :
  VLC_CODEC_MP4A world_ok = 0x6134706d /\ VLC_CODEC_H264 world_ok = 0x34363268.
Proof. split; reflexivity. Qed.

(** C4: the audio predicate accepts exactly MP4A and the video predicate
    exactly H264; both are functions of the codec alone. *)
Theorem canDecode_exactly_one_codec (w : World) (c : vlc_fourcc_t) :
  (canDecodeAudio w c = true <-> c = VLC_CODEC_MP4A w) /\
  (canDecodeVideo w c = true <-> c = VLC_CODEC_H264 w) /\
  (canDecodeAudio w c = false <-> c <> VLC_CODEC_MP4A w) /\
  (canDecodeVideo w c = false <-> c <> VLC_CODEC_H264 w).
Proof.
  unfold canDecodeAudio, canDecodeVideo.
  rewrite !bool_decide_eq_true, !bool_decide_eq_false. tauto.
Qed.

(** ** Generic facts about computations *)

Lemma bind_run {A B} (c : M A) (k : A -> M B) h m a m1 t1 b m2 t2 :
  c h m = (a, m1, t1) ->
  k a (h ++ t1) m1 = (b, m2, t2) ->
  bind c k h m = (b, m2, t1 ++ t2).
Proof. intros Hc Hk. unfold bind. now rewrite Hc, Hk. Qed.

Lemma bind_inv {A B} (c : M A) (k : A -> M B) h m b m2 t :
  bind c k h m = (b, m2, t) ->
  exists a m1 t1 t2,
    c h m = (a, m1, t1) /\ k a (h ++ t1) m1 = (b, m2, t2) /\ t = t1 ++ t2.
Proof.
  unfold bind. destruct (c h m) as [[a m1] t1].
  destruct (k a (h ++ t1) m1) as [[b' m2'] t2] eqn:Hk.
  intros [= <- <- <-]. now exists a, m1, t1, t2.
Qed.

Lemma action_results_app t1 t2 :
  action_results (t1 ++ t2) = action_results t1 ++ action_results t2.
Proof. apply omap_app. Qed.

Lemma action_results_cons e t :
  action_results (e :: t)
  = match action_result e with
    | Some x => x :: action_results t
    | None => action_results t
    end.
Proof. reflexivity. Qed.

Lemma action_results_no_dispatch t :
  Forall (fun e => action_result e = None) t -> action_results t = [].
Proof.
  induction 1 as [|e t He _ IH]; [reflexivity|].
  unfold action_results in *. simpl. now rewrite He.
Qed.

Lemma is_resolve_no_dispatch t :
  Forall (fun e => is_resolve e = true) t -> action_results t = [].
Proof.
  intros H. apply action_results_no_dispatch.
  eapply Forall_impl; [exact H|]. by intros [].
Qed.

Lemma is_chain_op_no_dispatch t :
  Forall (fun e => is_chain_op e = true) t -> action_results t = [].
Proof.
  intros H. apply action_results_no_dispatch.
  eapply Forall_impl; [exact H|]. by intros [].
Qed.

(** ** The renderer control client *)

Section Client.

Variable w : World.
Variable self : MediaRenderer.

(** Resolving a control URL leaves the session alone and only talks to the
    description and URL services. *)
Lemma getServiceURL_services_run type service l h m :
  exists r t,
    getServiceURL_services w self type service l h m = (r, m, t) /\
    Forall (fun e => is_resolve e = true) t.
Proof.
  induction l as [|e l IH]; simpl.
  - now exists None, [].
  - destruct (xml_getChildElementValue e "serviceType") as [ty|]; [|exact IH].
    destruct (strstr ty type); simpl; [|exact IH].
    destruct (xml_getChildElementValue e service) as [url|]; [|exact IH].
    unfold bind, call, ret. destruct (malloc_url w h); simpl.
    + eexists _, _. split; [reflexivity|]. repeat constructor.
    + eexists _, _. split; [reflexivity|]. repeat constructor.
Qed.

Lemma getServiceURL_devices_run type service l h m :
  exists r t,
    getServiceURL_devices w self type service l h m = (r, m, t) /\
    Forall (fun e => is_resolve e = true) t.
Proof.
  revert h. induction l as [|d l IH]; intros h; simpl.
  - now exists None, [].
  - destruct d as [[services|]|]; [|apply IH..].
    destruct (getServiceURL_services_run type service services h m)
      as (r & t & Hr & Ht).
    unfold bind. rewrite Hr. destruct r as [res|].
    + exists res, (t ++ []). split; [reflexivity|].
      now rewrite app_nil_r.
    + destruct (IH (h ++ t)) as (r' & t' & Hr' & Ht').
      rewrite Hr'. exists r', (t ++ t'). split; [reflexivity|].
      now apply Forall_app.
Qed.

Lemma getServiceURL_run type service h m :
  exists r t,
    getServiceURL w self type service h m = (r, m, t) /\
    Forall (fun e => is_resolve e = true) t.
Proof.
  unfold getServiceURL, bind, call, emit, ret.
  destruct (UpnpDownloadXmlDoc w h (device_url self)) as [[devices|]|] eqn:Hd;
    simpl.
  - match goal with
    | |- context [getServiceURL_devices w self ?a ?b ?c ?h' ?m'] =>
        destruct (getServiceURL_devices_run a b c h' m') as (r & t & Hr & Ht);
        rewrite Hr
    end.
    eexists _, _. split; [reflexivity|].
    repeat (constructor; [reflexivity|]). exact Ht.
  - eexists _, _. split; [reflexivity|]. repeat constructor.
  - eexists _, _. split; [reflexivity|]. repeat constructor.
Qed.

Lemma is_resolve_is_client t :
  Forall (fun e => is_resolve e = true) t -> Forall (fun e => is_client e = true) t.
Proof. intros H. eapply Forall_impl; [exact H|]. by intros []. Qed.

Lemma make_action_name name service args :
  act_name (make_action name service args) = name.
Proof.
  unfold make_action.
  change name with
    (act_name {| act_name := name; act_service := service; act_args := [] |})
    at 2.
  generalize ({| act_name := name; act_service := service; act_args := [] |}).
  induction args as [|x args IH]; intros a; [reflexivity|].
  simpl. now rewrite IH.
Qed.

Lemma make_action_args name service args :
  act_args (make_action name service args) = args.
Proof.
  unfold make_action.
  change args with
    (act_args {| act_name := name; act_service := service; act_args := [] |}
       ++ args) at 2.
  generalize ({| act_name := name; act_service := service; act_args := [] |}).
  induction args as [|x args IH]; intros a; simpl.
  - now rewrite app_nil_r.
  - rewrite IH. simpl. now rewrite <- app_assoc.
Qed.

(** What [SendAction] does, whatever the collaborators answer. *)
Lemma SendAction_run action_name service_type arguments h m :
  exists control_url pre,
    getServiceURL w self service_type "controlURL" h m = (control_url, m, pre) /\
    Forall (fun e => is_resolve e = true) pre /\
    let action := make_action action_name service_type arguments in
    let res := UpnpSendAction w (h ++ pre) (handle self) control_url
                 service_type action in
    SendAction w self action_name service_type arguments h m =
      (if res.1 =? UPNP_E_SUCCESS w then res.2 else None, m,
       pre ++ [E_UpnpSendAction (handle self) control_url service_type action
                 res.1 res.2;
               E_ixmlDocument_free (ActionDoc action);
               E_free_str control_url]
           ++ (if res.1 =? UPNP_E_SUCCESS w then []
               else match res.2 with
                    | Some d => [E_ixmlDocument_free (ResponseDoc d)]
                    | None => []
                    end)).
Proof.
  destruct (getServiceURL_run service_type "controlURL" h m)
    as (control_url & pre & Hurl & Hpre).
  exists control_url, pre. split; [exact Hurl|]. split; [exact Hpre|].
  intros action res. unfold SendAction, bind, call, emit, ret.
  rewrite Hurl. fold action. fold res.
  destruct res as [ret_code response]. simpl.
  destruct (ret_code =? UPNP_E_SUCCESS w); simpl; [reflexivity|].
  destruct response; reflexivity.
Qed.

(** The three AVTransport verbs: one dispatch each, the session is not
    touched, and the result only says whether a response came back. *)
Lemma verb_run action_name arguments h m :
  exists (ok : bool) t,
    (p_response <- SendAction w self action_name AV_TRANSPORT_SERVICE_TYPE
                     arguments ;;
     match p_response with
     | None => ret (VLC_EGENERIC w)
     | Some d => emit (E_ixmlDocument_free (ResponseDoc d)) ;; ret (VLC_SUCCESS w)
     end) h m
    = (if ok then VLC_SUCCESS w else VLC_EGENERIC w, m, t) /\
    (exists code, action_results t = [(action_name, code)]) /\
    Forall (fun e => is_client e = true) t.
Proof.
  destruct (SendAction_run action_name AV_TRANSPORT_SERVICE_TYPE arguments h m)
    as (control_url & pre & _ & Hpre & Hsend).
  simpl in Hsend. unfold bind. rewrite Hsend. clear Hsend.
  set (action := make_action _ _ _).
  destruct (UpnpSendAction w (h ++ pre) (handle self) control_url
              AV_TRANSPORT_SERVICE_TYPE action) as [ret_code response].
  simpl.
  assert (Hname : act_name action = action_name) by apply make_action_name.
  pose proof (is_resolve_no_dispatch _ Hpre) as Hnone.
  apply is_resolve_is_client in Hpre.
  destruct (ret_code =? UPNP_E_SUCCESS w); [destruct response as [d|]|
    destruct response as [d|]]; unfold emit, ret; simpl.
  - exists true. eexists. split; [reflexivity|]. split.
    + exists ret_code. rewrite !action_results_app, Hnone. simpl.
      unfold action_results. simpl. now rewrite Hname.
    + rewrite !Forall_app. repeat split; try exact Hpre; repeat constructor.
  - exists false. eexists. split; [reflexivity|]. split.
    + exists ret_code. rewrite !action_results_app, Hnone. simpl.
      unfold action_results. simpl. now rewrite Hname.
    + rewrite !Forall_app. repeat split; try exact Hpre; repeat constructor.
  - exists false. eexists. split; [reflexivity|]. split.
    + exists ret_code. rewrite !action_results_app, Hnone. simpl.
      unfold action_results. simpl. now rewrite Hname.
    + rewrite !Forall_app. repeat split; try exact Hpre; repeat constructor.
  - exists false. eexists. split; [reflexivity|]. split.
    + exists ret_code. rewrite !action_results_app, Hnone. simpl.
      unfold action_results. simpl. now rewrite Hname.
    + rewrite !Forall_app. repeat split; try exact Hpre; repeat constructor.
Qed.

Lemma Stop_run h m :
  exists (ok : bool) t,
    Stop w self h m = (if ok then VLC_SUCCESS w else VLC_EGENERIC w, m, t) /\
    (exists code, action_results t = [("Stop", code)]) /\
    Forall (fun e => is_client e = true) t.
Proof. apply verb_run. Qed.

Lemma SetAVTransportURI_run uri h m :
  exists (ok : bool) t,
    SetAVTransportURI w self uri h m
    = (if ok then VLC_SUCCESS w else VLC_EGENERIC w, m, t) /\
    (exists code, action_results t = [("SetAVTransportURI", code)]) /\
    Forall (fun e => is_client e = true) t.
Proof. apply verb_run. Qed.

Lemma Play_run speed h m :
  exists (ok : bool) t,
    Play w self speed h m = (if ok then VLC_SUCCESS w else VLC_EGENERIC w, m, t) /\
    (exists code, action_results t = [("Play", code)]) /\
    Forall (fun e => is_client e = true) t.
Proof. apply verb_run. Qed.

End Client.

(** ** The output chain *)

(** Tearing down the bound streams: one [sout_StreamIdDel] per stream,
    every binding is cleared, nothing else in the heap changes. *)
Lemma stopSoutChain_ids_run out l h m :
  exists mm t,
    stopSoutChain_ids out l h m = (tt, {| sys := sys m; mem := mm |}, t) /\
    Forall (fun e => is_id_del e = true) t /\
    (forall p, p ∈ l -> mm !! p ≫= p_sub_id = None) /\
    (forall p, p ∉ l -> mm !! p = mem m !! p).
Proof.
  revert h m. induction l as [|p l IH]; intros h m.
  - exists (mem m), []. destruct m. simpl. unfold ret.
    split; [done|]. split; [by constructor|]. split; [|done].
    intros p Hp. by apply elem_of_nil in Hp.
  - simpl. unfold bind, get_mem, emit, set_mem. simpl.
    match goal with
    | |- context [stopSoutChain_ids out l ?h' ?m'] =>
        destruct (IH h' m') as (mm & t & Hrun & Ht & Hin & Hout); rewrite Hrun
    end.
    simpl in *. eexists mm, _. split; [reflexivity|].
    split; [by constructor|]. split.
    + intros q Hq. destruct (decide (q ∈ l)) as [Hl|Hl]; [by apply Hin|].
      apply elem_of_cons in Hq as [->|Hq]; [|done].
      rewrite (Hout _ Hl), lookup_alter_eq. by destruct (mem m !! p).
    + intros q Hq. apply not_elem_of_cons in Hq as [Hne Hq].
      rewrite (Hout _ Hq). by apply lookup_alter_ne.
Qed.

Lemma stopSoutChain_run h m :
  exists mm t,
    stopSoutChain h m
    = (tt, {| sys := with_p_out None (with_out_streams [] (sys m)); mem := mm |},
       t ++ [E_sout_StreamChainDelete (p_out (sys m))]) /\
    Forall (fun e => is_id_del e = true) t /\
    (forall p, p ∈ out_streams (sys m) -> mm !! p ≫= p_sub_id = None) /\
    (forall p, p ∉ out_streams (sys m) -> mm !! p = mem m !! p).
Proof.
  unfold stopSoutChain, bind, get_sys, set_sys, emit. simpl.
  match goal with
  | |- context [stopSoutChain_ids ?o ?l ?h' ?m'] =>
      destruct (stopSoutChain_ids_run o l h' m') as (mm & t & Hrun & Ht & Hin & Hout);
      rewrite Hrun
  end.
  simpl. by exists mm, t.
Qed.

Section Chain.

Variable w : World.

Lemma startSoutChain_ids_run out l h m :
  exists kept mm t,
    startSoutChain_ids w out l h m = (kept, {| sys := sys m; mem := mm |}, t) /\
    Forall (fun e => is_chain_op e = true) t.
Proof.
  revert h m. induction l as [|p l IH]; intros h m.
  - exists [], (mem m), []. destruct m. simpl. unfold ret. by split.
  - simpl. unfold bind, get_mem, call, emit, set_mem, ret. simpl.
    destruct (mem m !! p) as [rec|] eqn:Hp.
    + destruct (sout_StreamIdAdd w _ out (fmt rec)) as [sub|]; simpl.
      * match goal with
        | |- context [startSoutChain_ids w out l ?h' ?m'] =>
            destruct (IH h' m') as (kept & mm & t & Hrun & Ht); rewrite Hrun
        end.
        simpl. eexists _, mm, _. split; [reflexivity|].
        constructor; [done|]. by rewrite app_nil_r.
      * match goal with
        | |- context [startSoutChain_ids w out l ?h' ?m'] =>
            destruct (IH h' m') as (kept & mm & t & Hrun & Ht); rewrite Hrun
        end.
        simpl. eexists _, mm, _. split; [reflexivity|].
        constructor; [done|]. by constructor.
    + match goal with
      | |- context [startSoutChain_ids w out l ?h' ?m'] =>
          destruct (IH h' m') as (kept & mm & t & Hrun & Ht); rewrite Hrun
      end.
      destruct m; simpl in *. by eexists _, mm, _.
Qed.

(** [startSoutChain] when the chain cannot be created: the bound set is
    emptied, [p_out] is null, the heap is untouched. *)
Lemma startSoutChain_failed_creation new_streams sout h m :
  sout_StreamChainNew w h sout = None ->
  startSoutChain w new_streams sout h m
  = (false,
     {| sys := with_out_streams [] (with_p_out None (sys m)); mem := mem m |},
     [E_sout_StreamChainNew sout None]).
Proof.
  intros Hnew. unfold startSoutChain, bind, set_sys, call, ret. simpl.
  rewrite app_nil_r, Hnew. simpl. reflexivity.
Qed.

(** [startSoutChain] when the chain is created. *)
Lemma startSoutChain_created new_streams sout out h m :
  sout_StreamChainNew w h sout = Some out ->
  exists ok s' mm t,
    startSoutChain w new_streams sout h m
    = (ok, {| sys := s'; mem := mm |}, E_sout_StreamChainNew sout (Some out) :: t) /\
    Forall (fun e => is_chain_op e = true) t /\
    same_but_chain (sys m) s' /\
    (ok = false -> p_out s' = None /\ out_streams s' = []).
Proof.
  intros Hnew. unfold startSoutChain, bind, set_sys, call, ret. simpl.
  rewrite app_nil_r, Hnew. simpl.
  match goal with
  | |- context [startSoutChain_ids w out ?l ?h' ?m'] =>
      destruct (startSoutChain_ids_run out l h' m') as (kept & mm & t & Hrun & Ht);
      rewrite Hrun
  end.
  simpl. destruct kept as [|k kept]; simpl.
  - eexists false, _, mm, _. split; [reflexivity|].
    split; [|split; [by repeat split|done]].
    apply Forall_app. split; [done|]. by repeat constructor.
  - eexists true, _, mm, _. split; [reflexivity|].
    split; [by rewrite !app_nil_r|]. split; [by repeat split|done].
Qed.

End Chain.

(** ** Reconciliation: [UpdateOutput] *)

Lemma Forall_is_client_not_dialog t :
  Forall (fun e => is_client e = true) t -> Forall (fun e => is_dialog e = false) t.
Proof. intros H. eapply Forall_impl; [exact H|]. by intros []. Qed.

Lemma Forall_is_chain_op_not_dialog t :
  Forall (fun e => is_chain_op e = true) t -> Forall (fun e => is_dialog e = false) t.
Proof. intros H. eapply Forall_impl; [exact H|]. by intros []. Qed.

Lemma Forall_is_client_not_failed_chain_new t :
  Forall (fun e => is_client e = true) t ->
  Forall (fun e => is_failed_chain_new e = false) t.
Proof. intros H. eapply Forall_impl; [exact H|]. by intros []. Qed.

Lemma Forall_is_chain_op_not_failed_chain_new t :
  Forall (fun e => is_chain_op e = true) t ->
  Forall (fun e => is_failed_chain_new e = false) t.
Proof. intros H. eapply Forall_impl; [exact H|]. by intros []. Qed.

Lemma Forall_false_not_elem (P : event -> bool) t e :
  Forall (fun e => P e = false) t -> P e = true -> e ∉ t.
Proof.
  intros H He Hin. rewrite Forall_forall in H. specialize (H _ Hin). congruence.
Qed.

Lemma same_but_chain_refl s : same_but_chain s s.
Proof. by repeat split. Qed.

Lemma same_but_chain_trans s1 s2 s3 :
  same_but_chain s1 s2 -> same_but_chain s2 s3 -> same_but_chain s1 s3.
Proof.
  unfold same_but_chain. intros (?&?&?&?&?&?&?) (?&?&?&?&?&?&?).
  repeat split; congruence.
Qed.

Lemma Forall_false_not_Exists (P : event -> bool) t :
  Forall (fun e => P e = false) t -> ~ Exists (fun e => P e = true) t.
Proof.
  intros H HE. apply Exists_exists in HE as (e & Hin & He).
  rewrite Forall_forall in H. specialize (H _ Hin). congruence.
Qed.

(** Split a [Forall] over a trace into its pieces and close each piece
    with the facts at hand. *)
Ltac trace_forall :=
  repeat first
    [ apply Forall_nil_2
    | apply Forall_cons; split; [reflexivity|]
    | apply Forall_app; split ];
  eauto using Forall_is_client_not_dialog, Forall_is_chain_op_not_dialog,
    Forall_is_client_not_failed_chain_new,
    Forall_is_chain_op_not_failed_chain_new.

(** Split the dispatched actions of a trace along its pieces. *)
Ltac trace_actions :=
  repeat (rewrite action_results_app || rewrite action_results_cons);
  cbn [action_result].

(** Run one step of a computation whose behaviour a [_run] lemma gives. *)
Ltac step_call H :=
  let a := fresh "a" in
  let m1 := fresh "m" in
  let t1 := fresh "t" in
  let t2 := fresh "t" in
  let Hc := fresh "Hc" in
  apply bind_inv in H as (a & m1 & t1 & t2 & Hc & H & ->);
  unfold call, emit, ret, get_sys, get_mem, set_sys, set_mem in Hc;
  first [ injection Hc as <- <- <- | idtac ].

(** Where can an event of a trace given piece by piece come from? *)
Ltac trace_elem H :=
  repeat match type of H with
         | _ ∈ _ ++ _ => apply elem_of_app in H as [H|H]
         | _ ∈ _ :: _ => apply elem_of_cons in H as [H|H]
         | _ ∈ [] => by apply elem_of_nil in H
         end;
  try discriminate H.

Section Reconciliation.

Variable w : World.

Lemma getServerIPAddress_run h m :
  exists ip t,
    getServerIPAddress w h m = (ip, m, t) /\
    Forall (fun e => is_dialog e = false) t /\
    Forall (fun e => is_failed_chain_new e = false) t /\
    action_results t = [].
Proof.
  unfold getServerIPAddress, bind, call, ret.
  destruct (getIpv4ForMulticast w h); simpl;
    eexists _, _; (split; [reflexivity|]); repeat constructor.
Qed.

(** The last phase of a reconciliation. *)
Lemma UpdateOutput_serve_run s c ssout h m r m' tr :
  UpdateOutput_serve w s c ssout h m = (r, m', tr) ->
  same_but_chain (sys m) (sys m') /\
  Forall (fun e => is_dialog e = false) tr /\
  (action_results tr = [] \/
   r = VLC_SUCCESS w /\
   exists c1 c2 c3,
     action_results tr = [("Stop", c1); ("SetAVTransportURI", c2); ("Play", c3)]) /\
  (Exists (fun e => is_failed_chain_new e = true) tr ->
   r = VLC_EGENERIC w /\ p_out (sys m') = None /\ out_streams (sys m') = [] /\
   mem m' = mem m /\ action_results tr = []).
Proof.
  unfold UpdateOutput_serve. intros H.
  step_call H. step_call H. step_call H.
  match type of Hc with
  | getServerIPAddress w ?h' ?m' = _ =>
      destruct (getServerIPAddress_run h' m') as (ip & t3 & Hip & Hd3 & Hf3 & Ha3);
      rewrite Hip in Hc; injection Hc as <- <- <-
  end.
  destruct ip as [ip|].
  2: { unfold ret in H. injection H as <- <- <-.
       split; [apply same_but_chain_refl|]. split; [trace_forall|].
       split.
       - left. rewrite !action_results_app, Ha3. reflexivity.
       - intros HE. exfalso. revert HE. apply Forall_false_not_Exists. trace_forall. }
  step_call H.
  match type of H with
  | context [asprintf_ok w ?h'] => destruct (asprintf_ok w h')
  end.
  2: { step_call H. unfold ret in H. injection H as <- <- <-.
       split; [apply same_but_chain_refl|]. split; [trace_forall|].
       split.
       - left. rewrite !action_results_app, Ha3. reflexivity.
       - intros HE. exfalso. revert HE. apply Forall_false_not_Exists. trace_forall. }
  apply bind_inv in H as (ok & m1 & t4 & t5 & Hstart & H & ->).
  match type of Hstart with
  | startSoutChain w ?ns ?so ?h' ?m' = _ =>
      destruct (sout_StreamChainNew w h' so) as [out|] eqn:Hnew;
      [ destruct (startSoutChain_created w ns so out h' m' Hnew)
          as (ok' & s' & mm & t6 & Hrun & Ht6 & Hsame & Hfail)
      | pose proof (startSoutChain_failed_creation w ns so h' m' Hnew) as Hrun ];
      rewrite Hrun in Hstart; injection Hstart as <- <- <-
  end.
  2: { simpl in H. step_call H. step_call H. unfold ret in H.
       injection H as <- <- <-. simpl.
       split; [by repeat split|]. split; [trace_forall|].
       match goal with
       | |- (?A \/ _) /\ _ =>
           assert (Hnone : A) by (rewrite !action_results_app, Ha3; reflexivity)
       end.
       split; [by left|]. by intros _. }
  destruct ok'; simpl in H.
  - apply bind_inv in H as (r1 & m1 & t7 & t8 & Hstop & H & ->).
    apply bind_inv in H as (r2 & m2 & t9 & t10 & Hset & H & ->).
    apply bind_inv in H as (r3 & m3 & t11 & t12 & Hplay & H & ->).
    step_call H. step_call H. unfold ret in H. injection H as <- <- <-.
    match type of Hstop with
    | Stop w ?self ?h' ?m' = _ =>
        destruct (Stop_run w self h' m') as (ok1 & t1' & E1 & (c1 & A1) & F1);
        rewrite E1 in Hstop; injection Hstop as <- <- <-
    end.
    match type of Hset with
    | SetAVTransportURI w ?self ?u ?h' ?m' = _ =>
        destruct (SetAVTransportURI_run w self u h' m')
          as (ok2 & t2' & E2 & (c2 & A2) & F2);
        rewrite E2 in Hset; injection Hset as <- <- <-
    end.
    match type of Hplay with
    | Play w ?self ?sp ?h' ?m' = _ =>
        destruct (Play_run w self sp h' m') as (ok3 & t3' & E3 & (c3 & A3) & F3);
        rewrite E3 in Hplay; injection Hplay as <- <- <-
    end.
    simpl. split; [exact Hsame|]. split; [trace_forall|]. split.
    + right. split; [reflexivity|]. exists c1, c2, c3.
      trace_actions.
      rewrite Ha3, A1, A2, A3, (is_chain_op_no_dispatch t6 Ht6). reflexivity.
    + intros HE. exfalso. revert HE. apply Forall_false_not_Exists. trace_forall.
  - step_call H. step_call H. unfold ret in H. injection H as <- <- <-.
    simpl. split; [exact Hsame|]. split; [trace_forall|]. split.
    + left. trace_actions.
      rewrite Ha3, (is_chain_op_no_dispatch t6 Ht6). reflexivity.
    + intros HE. exfalso. revert HE. apply Forall_false_not_Exists. trace_forall.
Qed.

(** The conversion block: it may mark the warning as shown and changes
    nothing else; a declined warning ends it right after the question. *)
Lemma UpdateOutput_transcode_run s c h m x m' tr :
  UpdateOutput_transcode w s c h m = (x, m', tr) ->
  (m' = m \/
   m' = {| sys := with_perf_warning_shown true (sys m); mem := mem m |}) /\
  action_results tr = [] /\
  Forall (fun e => is_failed_chain_new e = false) tr /\
  (forall res, E_vlc_dialog_wait_question res ∈ tr -> res <= 0 ->
     m' = m /\ (exists code, x = inl code) /\
     exists show,
       tr = [E_var_InheritInteger
               (RENDERER_CFG_PREFIX w +:+ "show-perf-warning") show;
             E_vlc_dialog_wait_question res]).
Proof.
  unfold UpdateOutput_transcode. intros H.
  apply bind_inv in H as (proceed & m1 & t1 & t2 & Hgate & H & ->).
  assert (Hgate' :
    (m1 = m \/
     m1 = {| sys := with_perf_warning_shown true (sys m); mem := mem m |}) /\
    action_results t1 = [] /\
    Forall (fun e => is_failed_chain_new e = false) t1 /\
    (forall res, E_vlc_dialog_wait_question res ∈ t1 -> res <= 0 ->
       m1 = m /\ proceed = false /\
       exists show,
         t1 = [E_var_InheritInteger
                 (RENDERER_CFG_PREFIX w +:+ "show-perf-warning") show;
               E_vlc_dialog_wait_question res])).
  { clear H.
    destruct (negb (perf_warning_shown s) && (i_codec_video c =? 0)
              && bool_decide (is_Some (p_original_video c))).
    2: { unfold ret in Hgate. injection Hgate as <- <- <-.
         split; [by left|]. split; [done|]. split; [by constructor|].
         intros res Hin. trace_elem Hin. }
    step_call Hgate.
    match type of Hgate with
    | context [if ?b then _ else _] => destruct b
    end.
    { unfold ret in Hgate. injection Hgate as <- <- <-.
      split; [by left|]. split; [done|]. split; [trace_forall|].
      intros res Hin. trace_elem Hin. }
    step_call Hgate.
    match type of Hgate with
    | context [if ?b then _ else _] => destruct b eqn:Hres
    end.
    { unfold ret in Hgate. injection Hgate as <- <- <-.
      split; [by left|]. split; [done|]. split; [trace_forall|].
      intros res Hin _. trace_elem Hin. injection Hin as ->.
      repeat split. by eexists. }
    step_call Hgate. apply bind_inv in Hgate as (u & m2 & t3 & t4 & Hput & Hgate & ->).
    unfold ret in Hgate. injection Hgate as <- <- <-.
    apply Z.leb_gt in Hres.
    match type of Hput with
    | context [if ?b then _ else _] => destruct b
    end; unfold emit, ret in Hput; injection Hput as <- <- <-;
      (split; [by right|]); (split; [done|]); (split; [trace_forall|]);
      intros res Hin Hle; trace_elem Hin; injection Hin as ->; lia. }
  destruct Hgate' as (Hm1 & Ha1 & Hf1 & Hdialog).
  destruct proceed; simpl in H.
  2: { unfold ret in H. injection H as <- <- <-. rewrite app_nil_r.
       split; [exact Hm1|]. split; [exact Ha1|]. split; [exact Hf1|].
       intros res Hin Hle. destruct (Hdialog res Hin Hle) as (-> & _ & Hshow).
       repeat split; [by eexists|exact Hshow]. }
  assert (Hrest : m' = m1 /\ action_results t2 = [] /\
                  Forall (fun e => is_failed_chain_new e = false) t2 /\
                  Forall (fun e => is_dialog e = false) t2).
  { step_call H.
    destruct (if i_codec_video c =? 0 then p_original_video c else None).
    - step_call H.
      match type of H with
      | context [match ?b with Some _ => _ | None => _ end] => destruct b
      end; unfold ret in H; injection H as <- <- <-;
        (split; [done|]); (split; [done|]); split; trace_forall.
    - unfold ret in H. injection H as <- <- <-.
      split; [done|]. split; [done|]. split; trace_forall. }
  destruct Hrest as (-> & Ha2 & Hf2 & Hd2).
  split; [exact Hm1|]. split.
  { trace_actions. by rewrite Ha1, Ha2. }
  split; [trace_forall|].
  intros res Hin Hle. trace_elem Hin.
  - by destruct (Hdialog res Hin Hle) as (_ & ? & _).
  - exfalso. revert Hin. by apply (Forall_false_not_elem is_dialog).
Qed.

(** Everything the claims on reconciliation need, in one statement. *)
Lemma UpdateOutput_run h m r m' tr :
  UpdateOutput w h m = (r, m', tr) ->
  es_changed (sys m') = false /\
  streams (sys m') = streams (sys m) /\
  renderer (sys m') = renderer (sys m) /\
  b_supports_video (sys m') = b_supports_video (sys m) /\
  venc_opt_idx (sys m') = venc_opt_idx (sys m) /\
  http_port (sys m') = http_port (sys m) /\
  (action_results tr = [] \/
   r = VLC_SUCCESS w /\
   exists c1 c2 c3,
     action_results tr = [("Stop", c1); ("SetAVTransportURI", c2); ("Play", c3)]) /\
  (Exists (fun e => is_failed_chain_new e = true) tr ->
   r = VLC_EGENERIC w /\ p_out (sys m') = None /\ out_streams (sys m') = [] /\
   mem m' = mem m /\ action_results tr = []) /\
  (forall res, E_vlc_dialog_wait_question res ∈ tr -> res <= 0 ->
     m' = {| sys := with_es_changed false (sys m); mem := mem m |} /\
     exists show,
       tr = [E_var_InheritInteger
               (RENDERER_CFG_PREFIX w +:+ "show-perf-warning") show;
             E_vlc_dialog_wait_question res]).
Proof.
  unfold UpdateOutput. intros H. step_call H.
  destruct (es_changed (sys m)) eqn:Hdirty; simpl in H.
  2: { unfold ret in H. injection H as <- <- <-.
       do 6 (split; [done|]). split; [by left|].
       split; [intros HE; by apply Exists_nil in HE|].
       intros res Hin. trace_elem Hin. }
  step_call H. step_call H.
  destruct (new_streams (classify w (b_supports_video (sys m)) (mem m)
                           (streams (sys m)))) as [|p ps] eqn:Hnew.
  { unfold ret in H. injection H as <- <- <-.
    do 6 (split; [done|]). split; [by left|].
    split; [intros HE; by apply Exists_nil in HE|].
    intros res Hin. trace_elem Hin. }
  apply bind_inv in H as (x & m1 & t1 & t2 & Htrans & H & ->).
  cbn [app].
  set (m0 := {| sys := with_es_changed false (sys m); mem := mem m |}) in *.
  assert (Htrans' :
    (m1 = m0 \/
     m1 = {| sys := with_perf_warning_shown true (sys m0); mem := mem m0 |}) /\
    action_results t1 = [] /\
    Forall (fun e => is_failed_chain_new e = false) t1 /\
    (forall res, E_vlc_dialog_wait_question res ∈ t1 -> res <= 0 ->
       m1 = m0 /\ (exists code, x = inl code) /\
       exists show,
         t1 = [E_var_InheritInteger
                 (RENDERER_CFG_PREFIX w +:+ "show-perf-warning") show;
               E_vlc_dialog_wait_question res])).
  { destruct (canRemux _).
    - unfold ret in Htrans. injection Htrans as <- <- <-.
      split; [by left|]. split; [done|]. split; [by constructor|].
      intros res Hin. trace_elem Hin.
    - by apply UpdateOutput_transcode_run in Htrans. }
  clear Htrans. destruct Htrans' as (Hm1 & Ha1 & Hf1 & Hdialog).
  destruct x as [code|ssout].
  - unfold ret in H. injection H as <- <- <-. rewrite app_nil_r.
    do 6 (split; [by destruct Hm1 as [->| ->]|]).
    split; [by left|]. split.
    { intros HE. exfalso. revert HE. by apply Forall_false_not_Exists. }
    intros res Hin Hle. by destruct (Hdialog res Hin Hle) as (-> & _ & ?).
  - apply UpdateOutput_serve_run in H as (Hsame & Hd2 & Hact & Hfail).
    destruct Hsame as (Hr & He & Hv & Hp & Hx & Hh & Hs).
    split; [rewrite He; by destruct Hm1 as [->| ->]|].
    split; [rewrite Hs; by destruct Hm1 as [->| ->]|].
    split; [rewrite Hr; by destruct Hm1 as [->| ->]|].
    split; [rewrite Hv; by destruct Hm1 as [->| ->]|].
    split; [rewrite Hx; by destruct Hm1 as [->| ->]|].
    split; [rewrite Hh; by destruct Hm1 as [->| ->]|].
    split.
    { destruct Hact as [Hact|(-> & c1 & c2 & c3 & Hact)].
      - left. trace_actions. by rewrite Ha1, Hact.
      - right. split; [done|]. exists c1, c2, c3. trace_actions.
        by rewrite Ha1, Hact. }
    split.
    { intros HE. apply Exists_app in HE as [HE|HE].
      - exfalso. revert HE. by apply Forall_false_not_Exists.
      - destruct (Hfail HE) as (-> & Hp' & Ho' & Hmem & Hact').
        repeat split; try done.
        + rewrite Hmem. by destruct Hm1 as [->| ->].
        + trace_actions. by rewrite Ha1, Hact'. }
    intros res Hin Hle. trace_elem Hin.
    + by destruct (Hdialog res Hin Hle) as (_ & (? & ?) & _).
    + exfalso. revert Hin. by apply (Forall_false_not_elem is_dialog).
Qed.

End Reconciliation.

(** ** The stream callbacks *)

(** A track has a binding when it is in the bound set and its record
    holds a stream id of the chain. *)
Lemma GetSubId_find_Some mm id l sub :
  GetSubId_find mm id l = Some sub <-> id ∈ l /\ mm !! id ≫= p_sub_id = Some sub.
Proof.
  induction l as [|x l IH]; simpl.
  - split; [done|]. intros [H _]. by apply elem_of_nil in H.
  - case_bool_decide as Hx.
    + subst x. split; [intros H; split; [left|done]|by intros [_ H]].
    + rewrite IH, elem_of_cons. split; [intros [? ?]; by split; [right|]|].
      intros [[->|?] ?]; done.
Qed.

Lemma GetSubId_find_None mm id l :
  GetSubId_find mm id l = None <-> id ∉ l \/ mm !! id ≫= p_sub_id = None.
Proof.
  destruct (GetSubId_find mm id l) as [sub|] eqn:H.
  - apply GetSubId_find_Some in H as [Hin Hsub]. split; [done|].
    intros [Hn|Hn]; [done|congruence].
  - split; [|done]. intros _.
    destruct (decide (id ∈ l)) as [Hin|Hin]; [|by left]. right.
    destruct (mm !! id ≫= p_sub_id) as [sub|] eqn:Hsub; [|done].
    assert (GetSubId_find mm id l = Some sub) by by apply GetSubId_find_Some.
    congruence.
Qed.

Section Callbacks.

Variable w : World.

Lemma GetSubId_no_update id h m :
  GetSubId w id false h m
  = (GetSubId_find (mem m) id (out_streams (sys m)), m, []).
Proof. reflexivity. Qed.

Lemma Flush_run id h m :
  match GetSubId_find (mem m) id (out_streams (sys m)) with
  | None => Flush w id h m = (tt, m, [])
  | Some sub =>
      exists mm t,
        Flush w id h m
        = (tt,
           {| sys := with_es_changed true
                       (with_p_out None (with_out_streams [] (sys m)));
              mem := mm |},
           E_sout_StreamFlush (p_out (sys m)) sub
           :: t ++ [E_sout_StreamChainDelete (p_out (sys m))]) /\
        Forall (fun e => is_id_del e = true) t /\
        (forall p, p ∈ out_streams (sys m) -> mm !! p ≫= p_sub_id = None) /\
        (forall p, p ∉ out_streams (sys m) -> mm !! p = mem m !! p)
  end.
Proof.
  unfold Flush, bind. rewrite GetSubId_no_update.
  destruct (GetSubId_find (mem m) id (out_streams (sys m))) as [sub|].
  - unfold get_sys, emit, set_sys. simpl.
    match goal with
    | |- context [stopSoutChain ?h' ?m'] =>
        destruct (stopSoutChain_run h' m') as (mm & t & Hstop & Ht & Hin & Hout);
        rewrite Hstop
    end.
    simpl. exists mm, t. rewrite app_nil_r. by repeat split.
  - reflexivity.
Qed.

(** The search of [Del] in the registry: it may remove one stream id
    from the chain and from the bound set, and touches neither the chain
    handle nor the renderer. *)
Lemma Del_streams_run id h m :
  exists m1 t1,
    Del_streams id h m = (tt, m1, t1) /\
    p_out (sys m1) = p_out (sys m) /\
    renderer (sys m1) = renderer (sys m) /\
    action_results t1 = [] /\
    out_streams (sys m1)
    = (if bool_decide (id ∈ streams (sys m))
          && bool_decide (is_Some (mem m !! id ≫= p_sub_id))
       then erase_first id (out_streams (sys m))
       else out_streams (sys m)).
Proof.
  unfold Del_streams, bind, get_sys. cbn [app].
  case_bool_decide as Hin; simpl.
  - unfold bind, get_mem, emit, set_sys, set_mem, ret. simpl.
    destruct (mem m !! id ≫= p_sub_id) as [sub|] eqn:Hsub; simpl.
    + eexists _, _. split; [reflexivity|]. done.
    + eexists _, _. split; [reflexivity|]. done.
  - exists m, []. by destruct m.
Qed.

(** The search of [Del] when [id] is registered and has a stream id. *)
Lemma Del_streams_bound id sub h m :
  id ∈ streams (sys m) ->
  mem m !! id ≫= p_sub_id = Some sub ->
  Del_streams id h m
  = (tt,
     {| sys := with_streams (erase_first id (streams (sys m)))
                 (with_out_streams (erase_first id (out_streams (sys m)))
                    (sys m));
        mem := delete id (mem m) |},
     [E_sout_StreamIdDel (p_out (sys m)) (Some sub); E_es_format_Clean id;
      E_free_id id]).
Proof.
  intros Hin Hsub. unfold Del_streams, bind, get_sys. cbn [app].
  rewrite bool_decide_true by done.
  unfold bind, get_mem, emit, set_sys, set_mem, ret. simpl.
  by rewrite Hsub.
Qed.

Lemma Del_run id h m :
  exists m1 t1,
    Del_streams id h m = (tt, m1, t1) /\
    match out_streams (sys m1) with
    | [] =>
        exists t2 code,
          Del w id h m
          = (tt, {| sys := with_p_out None (sys m1); mem := mem m1 |},
             t1 ++ E_sout_StreamChainDelete (p_out (sys m1)) :: t2) /\
          action_results t2 = [("Stop", code)]
    | _ :: _ => Del w id h m = (tt, m1, t1)
    end.
Proof.
  destruct (Del_streams_run id h m) as (m1 & t1 & Hrun & _).
  exists m1, t1. split; [done|].
  unfold Del, bind. rewrite Hrun. unfold get_sys. cbn [app].
  destruct (out_streams (sys m1)) as [|x l] eqn:Hout.
  - unfold stopSoutChain, bind, get_sys, set_sys, emit. rewrite Hout. simpl.
    match goal with
    | |- context [Stop w ?self ?h' ?m'] =>
        destruct (Stop_run w self h' m') as (ok & t2 & HS & (code & Hcode) & _);
        rewrite HS
    end.
    unfold ret. simpl. exists (t2 ++ []), code.
    split.
    + assert (Heq : with_out_streams [] (sys m1) = sys m1).
      { clear -Hout. destruct m1 as [[] ?]. simpl in *. by subst. }
      by rewrite Heq.
    + by rewrite app_nil_r.
  - unfold ret. cbn [app]. rewrite app_nil_r. by destruct m1.
Qed.

End Callbacks.

(** ** The resource path *)

Lemma no_slash_pretty_N_char x : Ascii.eqb (pretty_N_char x) "/" = false.
Proof. unfold pretty_N_char. by repeat case_match. Qed.

Lemma no_slash_pretty_N_go x s :
  no_slash s = true -> no_slash (pretty_N_go x s) = true.
Proof.
  revert s. induction (N.lt_wf_0 x) as [x _ IH]; intros s Hs.
  assert (x = 0 \/ 0 < x)%N as [->|Hx] by lia.
  - by rewrite pretty_N_go_0.
  - rewrite pretty_N_go_step by done. apply IH.
    + by apply N.div_lt.
    + simpl. by rewrite no_slash_pretty_N_char, Hs.
Qed.

Lemma no_slash_pretty_N (x : N) : no_slash (pretty x) = true.
Proof.
  unfold pretty, pretty_N. case_decide; [done|].
  by apply no_slash_pretty_N_go.
Qed.

Lemma no_slash_pretty_Z (x : Z) : no_slash (pretty x) = true.
Proof.
  unfold pretty, pretty_Z. destruct x as [|p|p]; [done|..].
  - apply no_slash_pretty_N.
  - simpl. apply no_slash_pretty_N.
Qed.

(** Two strings without separator that are followed by a separator in
    equal strings are equal, and so is what follows. *)
Lemma append_slash_inj s1 s2 r1 r2 :
  no_slash s1 = true -> no_slash s2 = true ->
  s1 +:+ String "/" r1 = s2 +:+ String "/" r2 ->
  s1 = s2 /\ r1 = r2.
Proof.
  revert s2. induction s1 as [|a s1 IH]; intros [|b s2] H1 H2 Heq;
    simpl in *.
  - by injection Heq as ->.
  - injection Heq as <- _. by rewrite Ascii.eqb_refl in H2.
  - injection Heq as -> _. by rewrite Ascii.eqb_refl in H1.
  - injection Heq as -> Heq.
    apply andb_true_iff in H1 as [_ H1]. apply andb_true_iff in H2 as [_ H2].
    destruct (IH s2 H1 H2 Heq) as [-> ->]. done.
Qed.

Lemma root_url_inj tick1 rnd1 tick2 rnd2 :
  root_url tick1 rnd1 = root_url tick2 rnd2 ->
  tick1 = tick2 /\ rnd1 `mod` 2 ^ 64 = rnd2 `mod` 2 ^ 64.
Proof.
  unfold root_url. intros H. simpl in H. injection H as H.
  apply append_slash_inj in H as [Ht H]; [|apply no_slash_pretty_Z..].
  apply append_slash_inj in H as [Hr _]; [|apply no_slash_pretty_Z..].
  split; by apply (inj pretty).
Qed.

(** ** The claims on the renderer control client *)

(** C5, as amended: [SendAction] dispatches the request on every call,
    with whatever control URL the resolution produced (none when the
    description fetch, the service search or the URL resolution failed).
    It returns the response the dispatch handed out when the dispatch
    reports success, and null when it reports another code: the result is
    null exactly when the code is not the success code or no response was
    handed out.  The request document and the control URL are released
    after the dispatch on every path, and a response that came with
    another code than success is released too. *)
Theorem SendAction_dispatches_then_releases w self action_name service_type
    arguments h m :
  exists control_url pre ret_code response,
    getServiceURL w self service_type "controlURL" h m = (control_url, m, pre) /\
    action_results pre = [] /\
    UpnpSendAction w (h ++ pre) (handle self) control_url service_type
      (make_action action_name service_type arguments)
    = (ret_code, response) /\
    SendAction w self action_name service_type arguments h m
    = (if ret_code =? UPNP_E_SUCCESS w then response else None, m,
       pre ++
       [E_UpnpSendAction (handle self) control_url service_type
          (make_action action_name service_type arguments) ret_code response;
        E_ixmlDocument_free
          (ActionDoc (make_action action_name service_type arguments));
        E_free_str control_url] ++
       (if ret_code =? UPNP_E_SUCCESS w then []
        else match response with
             | Some d => [E_ixmlDocument_free (ResponseDoc d)]
             | None => []
             end)) /\
    ((SendAction w self action_name service_type arguments h m).1.1 = None <->
     ret_code <> UPNP_E_SUCCESS w \/ response = None).
Proof.
  destruct (SendAction_run w self action_name service_type arguments h m)
    as (control_url & pre & Hurl & Hpre & Hsend).
  simpl in Hsend.
  destruct (UpnpSendAction w (h ++ pre) (handle self) control_url service_type
              (make_action action_name service_type arguments))
    as [ret_code response] eqn:Hdispatch.
  exists control_url, pre, ret_code, response.
  split; [exact Hurl|]. split; [by apply is_resolve_no_dispatch|].
  split; [exact Hdispatch|]. split; [exact Hsend|].
  rewrite Hsend. simpl.
  destruct (Z.eqb_spec ret_code (UPNP_E_SUCCESS w)) as [Hc|Hc].
  - split; [by right|]. by intros [?|?].
  - split; [by left|done].
Qed.

(** C5, the claim as stated fails: the description cannot be fetched, no
    control URL is resolved, and the Play request is dispatched all the
    same, with a null control URL. *)
Lemma SendAction_dispatches_without_control_url :
  (getServiceURL world_no_description tv AV_TRANSPORT_SERVICE_TYPE "controlURL"
     [] session_new).1.1 = None /\
  SendAction world_no_description tv "Play" AV_TRANSPORT_SERVICE_TYPE
    [("InstanceID", "0"); ("Speed", "1")] [] session_new
  = (None, session_new,
     [E_UpnpDownloadXmlDoc "http://tv:80/desc.xml" None;
      E_UpnpSendAction 3 None AV_TRANSPORT_SERVICE_TYPE
        {| act_name := "Play"; act_service := AV_TRANSPORT_SERVICE_TYPE;
           act_args := [("InstanceID", "0"); ("Speed", "1")] |}
        (-101) None;
      E_ixmlDocument_free
        (ActionDoc
           {| act_name := "Play"; act_service := AV_TRANSPORT_SERVICE_TYPE;
              act_args := [("InstanceID", "0"); ("Speed", "1")] |});
      E_free_str None]).
Proof. split; reflexivity. Qed.

(** ** The claims on reconciliation *)

(** C1, the claim as stated fails: SetAVTransportURI fails on the wire
    (the method returns VLC_EGENERIC), Play is dispatched after it and the
    reconciliation reports success. *)
Lemma UpdateOutput_plays_after_failed_SetAVTransportURI :
  (SetAVTransportURI world_seturi_fails tv "http://10.0.0.2:7070/x" []
     session_one_track).1.1 = VLC_EGENERIC world_seturi_fails /\
  (UpdateOutput world_seturi_fails [] session_one_track).1.1
  = VLC_SUCCESS world_seturi_fails /\
  action_results (UpdateOutput world_seturi_fails [] session_one_track).2
  = [("Stop", 0); ("SetAVTransportURI", -204); ("Play", 0)].
Proof. repeat split; reflexivity. Qed.

(** C2, as amended: when the creation of the new chain fails, the
    reconciliation reports VLC_EGENERIC and dispatches no control action;
    the registry, the stream records and the renderer are as before, the
    bound set is empty and the chain handle is null. *)
Theorem UpdateOutput_failed_chain_creation w h m psz_chain :
  E_sout_StreamChainNew psz_chain None ∈ (UpdateOutput w h m).2 ->
  (UpdateOutput w h m).1.1 = VLC_EGENERIC w /\
  action_results (UpdateOutput w h m).2 = [] /\
  streams (sys (UpdateOutput w h m).1.2) = streams (sys m) /\
  mem (UpdateOutput w h m).1.2 = mem m /\
  renderer (sys (UpdateOutput w h m).1.2) = renderer (sys m) /\
  out_streams (sys (UpdateOutput w h m).1.2) = [] /\
  p_out (sys (UpdateOutput w h m).1.2) = None.
Proof.
  destruct (UpdateOutput w h m) as [[r m'] tr] eqn:H. simpl. intros Hin.
  apply UpdateOutput_run in H as (_ & Hs & Hr & _ & _ & _ & _ & Hfail & _).
  destruct Hfail as (-> & Hp & Ho & Hmem & Hact).
  { apply Exists_exists. by eexists. }
  done.
Qed.

Lemma UpdateOutput_failed_chain_creation_witness :
  (UpdateOutput world_no_chain [] session_casting_dirty).1.1
  = VLC_EGENERIC world_no_chain /\
  action_results (UpdateOutput world_no_chain [] session_casting_dirty).2 = [] /\
  streams (sys (UpdateOutput world_no_chain [] session_casting_dirty).1.2)
  = streams (sys session_casting_dirty) /\
  mem (UpdateOutput world_no_chain [] session_casting_dirty).1.2
  = mem session_casting_dirty /\
  renderer (sys (UpdateOutput world_no_chain [] session_casting_dirty).1.2)
  = renderer (sys session_casting_dirty) /\
  out_streams (sys (UpdateOutput world_no_chain [] session_casting_dirty).1.2) = [] /\
  p_out (sys (UpdateOutput world_no_chain [] session_casting_dirty).1.2) = None.
Proof.
  apply (UpdateOutput_failed_chain_creation world_no_chain [] session_casting_dirty
           ("transcode{}:" +:+
            "http{dst=:7070/dlna/1001/42/stream,mux=mp4stream," +:+
            "access=http{mime=video/mp4}}")).
  vm_compute. repeat constructor.
Defined.

(** C2, the claim as stated fails: a chain is in place with track 0 bound
    to it; a second track arrives, the creation of the new chain fails, and
    the session is left without a chain handle and without bound streams. *)
Lemma failed_chain_creation_drops_prior_pipeline :
  p_out (sys session_casting_dirty) = Some 1%nat /\
  out_streams (sys session_casting_dirty) = [0%nat] /\
  Exists (fun e => is_failed_chain_new e = true)
    (UpdateOutput world_no_chain [] session_casting_dirty).2 /\
  p_out (sys (UpdateOutput world_no_chain [] session_casting_dirty).1.2) = None /\
  out_streams (sys (UpdateOutput world_no_chain [] session_casting_dirty).1.2) = [].
Proof.
  split; [reflexivity|]. split; [reflexivity|]. split; [|split; reflexivity].
  vm_compute. do 5 apply Exists_cons_tl. by apply Exists_cons_hd.
Qed.

(** C3, as amended: the dirty flag is cleared at the start of every
    reconciliation attempt and nothing sets it again: it is false when
    [UpdateOutput] returns, with success or with an error. *)
Theorem UpdateOutput_clears_es_changed w h m :
  es_changed (sys (UpdateOutput w h m).1.2) = false.
Proof.
  destruct (UpdateOutput w h m) as [[r m'] tr] eqn:H.
  apply UpdateOutput_run in H as (He & _). exact He.
Qed.

(** C3, the claim as stated fails: the local address cannot be found, the
    reconciliation fails with VLC_EGENERIC, and the dirty flag that was set
    is cleared. *)
Lemma failed_UpdateOutput_clears_es_changed :
  es_changed (sys session_one_track) = true /\
  (UpdateOutput world_no_ip [] session_one_track).1.1 = VLC_EGENERIC world_no_ip /\
  es_changed (sys (UpdateOutput world_no_ip [] session_one_track).1.2) = false.
Proof. repeat split; reflexivity. Qed.

(** C6, as amended: when the user declines the performance warning the
    reconciliation ends right after the question: the only calls made are
    the lookup of the setting and the question, and the session is as
    before except that the dirty flag is cleared. *)
Theorem UpdateOutput_declined_warning w h m res :
  E_vlc_dialog_wait_question res ∈ (UpdateOutput w h m).2 ->
  res <= 0 ->
  (UpdateOutput w h m).1.2
  = {| sys := with_es_changed false (sys m); mem := mem m |} /\
  exists show,
    (UpdateOutput w h m).2
    = [E_var_InheritInteger (RENDERER_CFG_PREFIX w +:+ "show-perf-warning") show;
       E_vlc_dialog_wait_question res].
Proof.
  destruct (UpdateOutput w h m) as [[r m'] tr] eqn:H. simpl. intros Hin Hle.
  apply UpdateOutput_run in H as (_ & _ & _ & _ & _ & _ & _ & _ & Hdialog).
  by apply Hdialog.
Qed.

Lemma UpdateOutput_declined_warning_witness :
  (UpdateOutput world_cancel [] session_video).1.2
  = {| sys := with_es_changed false (sys session_video);
       mem := mem session_video |} /\
  exists show,
    (UpdateOutput world_cancel [] session_video).2
    = [E_var_InheritInteger
         (RENDERER_CFG_PREFIX world_cancel +:+ "show-perf-warning") show;
       E_vlc_dialog_wait_question 0].
Proof.
  apply (UpdateOutput_declined_warning world_cancel [] session_video 0).
  - vm_compute. repeat constructor.
  - lia.
Defined.

(** C6, the claim as stated fails: the video track needs conversion for
    the first time, the user cancels, and the reconciliation clears the
    dirty flag and returns 0, which is VLC_SUCCESS. *)
Lemma declined_warning_clears_es_changed :
  es_changed (sys session_video) = true /\
  perf_warning_shown (sys session_video) = false /\
  E_vlc_dialog_wait_question 0 ∈ (UpdateOutput world_cancel [] session_video).2 /\
  es_changed (sys (UpdateOutput world_cancel [] session_video).1.2) = false /\
  (UpdateOutput world_cancel [] session_video).1.1 = 0 /\
  VLC_SUCCESS world_cancel = 0.
Proof.
  split; [reflexivity|]. split; [reflexivity|].
  split; [|repeat split; reflexivity].
  vm_compute. repeat constructor.
Qed.

(** Two resource paths are equal exactly when they were built from the
    same tick and from random numbers with the same 64-bit conversion. *)
Lemma root_url_equal_iff tick1 rnd1 tick2 rnd2 :
  root_url tick1 rnd1 = root_url tick2 rnd2 <->
  tick1 = tick2 /\ rnd1 `mod` 2 ^ 64 = rnd2 `mod` 2 ^ 64.
Proof.
  split; [apply root_url_inj|].
  intros [-> Hr]. unfold root_url. by rewrite Hr.
Qed.

(** C7, the claim as stated fails: under a clock that does not advance
    and a generator that repeats, two successful rebuilds of one process
    serve the same resource path. *)
Lemma two_rebuilds_same_resource_path :
  first_rebuild.1.1 = VLC_SUCCESS world_still_clock /\
  second_rebuild.1.1 = VLC_SUCCESS world_still_clock /\
  E_sout_StreamChainNew
    ("http{dst=:7070" +:+ root_url 1000 42 +:+
     ",mux=mp4stream,access=http{mime=video/mp4}}") (Some 1%nat)
  ∈ first_rebuild.2 /\
  E_sout_StreamChainNew
    ("http{dst=:7070" +:+ root_url 1000 42 +:+
     ",mux=mp4stream,access=http{mime=video/mp4}}") (Some 1%nat)
  ∈ second_rebuild.2.
Proof.
  split; [reflexivity|]. split; [reflexivity|].
  split; vm_compute; repeat constructor.
Qed.

(** ** The claims on the stream callbacks *)

(** C8, as amended: [Flush] on a track that has a binding flushes its
    stream id, removes every bound stream from the chain, deletes the
    chain, clears the bindings and sets the dirty flag; on a track without
    a binding it returns at once and changes nothing. *)
Theorem Flush_tears_down_only_when_bound w id h m :
  (forall sub,
     id ∈ out_streams (sys m) ->
     mem m !! id ≫= p_sub_id = Some sub ->
     exists mm t,
       Flush w id h m
       = (tt,
          {| sys := with_es_changed true
                      (with_p_out None (with_out_streams [] (sys m)));
             mem := mm |},
          E_sout_StreamFlush (p_out (sys m)) sub
          :: t ++ [E_sout_StreamChainDelete (p_out (sys m))]) /\
       Forall (fun e => is_id_del e = true) t /\
       (forall p, p ∈ out_streams (sys m) -> mm !! p ≫= p_sub_id = None)) /\
  (id ∉ out_streams (sys m) \/ mem m !! id ≫= p_sub_id = None ->
   Flush w id h m = (tt, m, [])).
Proof.
  pose proof (Flush_run w id h m) as H. split.
  - intros sub Hin Hsub.
    assert (Hfind : GetSubId_find (mem m) id (out_streams (sys m)) = Some sub)
      by by apply GetSubId_find_Some.
    rewrite Hfind in H. destruct H as (mm & t & Hrun & Ht & Hcleared & _).
    by exists mm, t.
  - intros Hnone. apply GetSubId_find_None in Hnone. by rewrite Hnone in H.
Qed.

Lemma Flush_tears_down_only_when_bound_witness :
  (exists mm t,
     Flush world_ok 0%nat [] session_casting
     = (tt,
        {| sys := with_es_changed true
                    (with_p_out None (with_out_streams [] (sys session_casting)));
           mem := mm |},
        E_sout_StreamFlush (Some 1%nat) 5%nat
        :: t ++ [E_sout_StreamChainDelete (Some 1%nat)])) /\
  Flush world_ok 1%nat [] session_declined = (tt, session_declined, []).
Proof.
  split.
  - destruct (Flush_tears_down_only_when_bound world_ok 0%nat [] session_casting)
      as [Hbound _].
    destruct (Hbound 5%nat) as (mm & t & Hrun & _).
    + vm_compute. repeat constructor.
    + reflexivity.
    + exists mm, t. exact Hrun.
  - destruct (Flush_tears_down_only_when_bound world_ok 1%nat [] session_declined)
      as [_ Hunbound].
    apply Hunbound. right. reflexivity.
Defined.

(** C8, the claim as stated fails: track 1 is registered but has no
    binding; flushing it leaves the chain in place and the dirty flag as
    it was. *)
Lemma Flush_unbound_track_keeps_pipeline :
  1%nat ∈ streams (sys session_declined) /\
  p_out (sys session_declined) = Some 1%nat /\
  out_streams (sys session_declined) = [0%nat] /\
  es_changed (sys session_declined) = false /\
  Flush world_ok 1%nat [] session_declined = (tt, session_declined, []).
Proof.
  split; [vm_compute; repeat constructor|]. repeat split; reflexivity.
Qed.

(** C9: removing the only bound track removes its stream id from the
    chain, deletes the chain and dispatches Stop; Stop is the only control
    action of the call. *)
Theorem Del_last_bound_track w id sub h m :
  id ∈ streams (sys m) ->
  mem m !! id ≫= p_sub_id = Some sub ->
  out_streams (sys m) = [id] ->
  exists t code,
    (Del w id h m).2
    = [E_sout_StreamIdDel (p_out (sys m)) (Some sub); E_es_format_Clean id;
       E_free_id id; E_sout_StreamChainDelete (p_out (sys m))] ++ t /\
    action_results (Del w id h m).2 = [("Stop", code)] /\
    p_out (sys (Del w id h m).1.2) = None /\
    out_streams (sys (Del w id h m).1.2) = [] /\
    streams (sys (Del w id h m).1.2) = erase_first id (streams (sys m)) /\
    mem (Del w id h m).1.2 !! id = None.
Proof.
  intros Hin Hsub Hout.
  destruct (Del_run w id h m) as (m1 & t1 & Hrun & HDel).
  rewrite (Del_streams_bound id sub h m Hin Hsub) in Hrun.
  injection Hrun as <- <-. simpl in HDel. rewrite Hout in HDel. simpl in HDel.
  rewrite bool_decide_true in HDel by done.
  destruct HDel as (t2 & code & -> & Hcode). simpl.
  exists t2, code. split; [done|]. split.
  { trace_actions. exact Hcode. }
  repeat split. apply lookup_delete_eq.
Qed.

Lemma Del_last_bound_track_witness :
  exists t code,
    (Del world_ok 0%nat [] session_casting).2
    = [E_sout_StreamIdDel (p_out (sys session_casting)) (Some 5%nat);
       E_es_format_Clean 0%nat; E_free_id 0%nat;
       E_sout_StreamChainDelete (p_out (sys session_casting))] ++ t /\
    action_results (Del world_ok 0%nat [] session_casting).2 = [("Stop", code)] /\
    p_out (sys (Del world_ok 0%nat [] session_casting).1.2) = None /\
    out_streams (sys (Del world_ok 0%nat [] session_casting).1.2) = [] /\
    streams (sys (Del world_ok 0%nat [] session_casting).1.2)
    = erase_first 0%nat (streams (sys session_casting)) /\
    mem (Del world_ok 0%nat [] session_casting).1.2 !! 0%nat = None.
Proof.
  apply (Del_last_bound_track world_ok 0%nat 5%nat [] session_casting).
  - vm_compute. repeat constructor.
  - reflexivity.
  - reflexivity.
Defined.

(** C10: a call of [Del] that leaves the bound set empty deletes the
    chain (whatever [p_out] was, null included) and dispatches Stop, also
    when the handle was not registered or had no binding. *)
Theorem Del_empty_bound_set_stops w id h m :
  out_streams (sys (Del w id h m).1.2) = [] ->
  exists t1 t2 code,
    (Del w id h m).2 = t1 ++ E_sout_StreamChainDelete (p_out (sys m)) :: t2 /\
    action_results t1 = [] /\
    action_results t2 = [("Stop", code)] /\
    p_out (sys (Del w id h m).1.2) = None.
Proof.
  intros Hempty.
  destruct (Del_run w id h m) as (m1 & t1 & Hrun & HDel).
  destruct (Del_streams_run id h m) as (m1' & t1' & Hrun' & Hp & _ & Ha & _).
  rewrite Hrun in Hrun'. injection Hrun' as <- <-.
  destruct (out_streams (sys m1)) as [|x l] eqn:Hout.
  - destruct HDel as (t2 & code & HDel & Hcode). rewrite HDel. simpl.
    exists t1, t2, code. by rewrite Hp.
  - rewrite HDel in Hempty. simpl in Hempty. congruence.
Qed.

Lemma Del_empty_bound_set_stops_witness :
  exists t1 t2 code,
    (Del world_ok 7%nat [] session_new).2
    = t1 ++ E_sout_StreamChainDelete (p_out (sys session_new)) :: t2 /\
    action_results t1 = [] /\
    action_results t2 = [("Stop", code)] /\
    p_out (sys (Del world_ok 7%nat [] session_new).1.2) = None.
Proof.
  apply (Del_empty_bound_set_stops world_ok 7%nat [] session_new).
  reflexivity.
Defined.

(** * Further properties *)

(** ** The first loop of [UpdateOutput] *)

Section Classification.

Variable w : World.

Lemma classify_step_new_streams sv mm c p :
  new_streams (classify_step w sv mm c p)
  = new_streams c ++ (if eligible sv mm p then [p] else []).
Proof.
  unfold classify_step, eligible. destruct (mm !! p) as [rec|]; simpl.
  2: by rewrite app_nil_r.
  destruct (bool_decide (i_cat (fmt rec) = AUDIO_ES)); simpl.
  - by repeat case_match.
  - destruct (sv && bool_decide (i_cat (fmt rec) = VIDEO_ES)); simpl.
    + by repeat case_match.
    + by rewrite app_nil_r.
Qed.

Lemma fold_classify_new_streams sv mm l c :
  new_streams (fold_left (classify_step w sv mm) l c)
  = new_streams c ++ filter (fun p => eligible sv mm p) l.
Proof.
  revert c. induction l as [|p l IH]; intros c; simpl.
  - by rewrite app_nil_r.
  - rewrite IH, classify_step_new_streams, <- app_assoc. f_equal.
    rewrite filter_cons. by destruct (eligible sv mm p).
Qed.

Lemma classify_new_streams sv mm l :
  new_streams (classify w sv mm l) = filter (fun p => eligible sv mm p) l.
Proof. unfold classify. by rewrite fold_classify_new_streams. Qed.

Lemma classify_step_canRemux sv mm c p :
  canRemux (classify_step w sv mm c p) = canRemux c && remuxable w sv mm p.
Proof.
  unfold classify_step, remuxable. destruct (mm !! p) as [rec|]; simpl.
  2: by rewrite andb_true_r.
  destruct (bool_decide (i_cat (fmt rec) = AUDIO_ES)); simpl.
  - destruct (canDecodeAudio w (i_codec (fmt rec))); simpl.
    + rewrite andb_true_r. by case_match.
    + by rewrite andb_false_r.
  - destruct (sv && bool_decide (i_cat (fmt rec) = VIDEO_ES)); simpl.
    + destruct (canDecodeVideo w (i_codec (fmt rec))); simpl.
      * rewrite andb_true_r. by case_match.
      * by rewrite andb_false_r.
    + by rewrite andb_true_r.
Qed.

Lemma fold_classify_canRemux sv mm l c :
  canRemux (fold_left (classify_step w sv mm) l c)
  = canRemux c && forallb (remuxable w sv mm) l.
Proof.
  revert c. induction l as [|p l IH]; intros c; simpl.
  - by rewrite andb_true_r.
  - by rewrite IH, classify_step_canRemux, andb_assoc.
Qed.

Lemma classify_canRemux sv mm l :
  canRemux (classify w sv mm l) = forallb (remuxable w sv mm) l.
Proof. unfold classify. by rewrite fold_classify_canRemux. Qed.

End Classification.

(** ** Filling and emptying a chain *)

Section ChainState.

Variable w : World.

(** What the adding loop of [startSoutChain] leaves behind. *)
Lemma startSoutChain_ids_state out l h m kept m' t :
  startSoutChain_ids w out l h m = (kept, m', t) ->
  sys m' = sys m /\
  (forall p, is_Some (mem m' !! p) <-> is_Some (mem m !! p)) /\
  (forall p, p ∉ l -> mem m' !! p = mem m !! p) /\
  kept `sublist_of` l /\
  (NoDup l -> forall p, p ∈ kept -> is_Some (mem m' !! p ≫= p_sub_id)) /\
  (NoDup l -> forall p, p ∈ l -> p ∉ kept -> mem m' !! p ≫= p_sub_id = None).
Proof.
  revert h m kept m' t. induction l as [|p l IH]; intros h m kept m' t H.
  - simpl in H. unfold ret in H. injection H as <- <- <-.
    split; [done|]. split; [done|]. split; [done|]. split; [done|].
    split; intros _ p Hp; by apply elem_of_nil in Hp.
  - simpl in H. step_call H. cbn [app] in H.
    destruct (mem m !! p) as [rec|] eqn:Hrec.
    2: { apply IH in H as (Hs & Hdom & Hout & Hsub & Hkept & Hrej).
         split; [done|]. split; [done|]. split.
         { intros q Hq. apply not_elem_of_cons in Hq as [_ Hq]. by apply Hout. }
         split; [by apply sublist_cons|]. split.
         { intros Hnd q Hq. apply NoDup_cons in Hnd as [_ Hnd]. by apply Hkept. }
         intros Hnd q Hq Hnk. apply NoDup_cons in Hnd as [Hp Hnd].
         apply elem_of_cons in Hq as [->|Hq]; [|by apply Hrej].
         by rewrite (Hout _ Hp), Hrec. }
    step_call H. step_call H.
    match type of H with
    | context [sout_StreamIdAdd w ?h' out (fmt rec)] =>
        destruct (sout_StreamIdAdd w h' out (fmt rec)) as [sub|] eqn:Hadd
    end.
    + apply bind_inv in H as (kept' & mA & tA & tB & Hrun & H & ->).
      unfold ret in H. injection H as <- <- <-.
      apply IH in Hrun as (Hs & Hdom & Hout & Hsub & Hkept & Hrej).
      simpl in *. split; [done|]. split.
      { intros q. rewrite Hdom. destruct (decide (q = p)) as [->|Hne].
        - rewrite lookup_alter_eq, Hrec. simpl. split; by eexists.
        - by rewrite lookup_alter_ne. }
      split.
      { intros q Hq. apply not_elem_of_cons in Hq as [Hne Hq].
        rewrite (Hout _ Hq). by rewrite lookup_alter_ne. }
      split; [by apply sublist_skip|]. split.
      { intros Hnd q Hq. apply NoDup_cons in Hnd as [Hp Hnd].
        apply elem_of_cons in Hq as [->|Hq]; [|by apply Hkept].
        rewrite (Hout _ Hp), lookup_alter_eq, Hrec. simpl. by eexists. }
      intros Hnd q Hq Hnk. apply NoDup_cons in Hnd as [Hp Hnd].
      apply not_elem_of_cons in Hnk as [Hne Hnk].
      apply elem_of_cons in Hq as [->|Hq]; [done|]. by apply Hrej.
    + step_call H. step_call H.
      apply IH in H as (Hs & Hdom & Hout & Hsub & Hkept & Hrej).
      simpl in *. split; [done|]. split.
      { intros q. rewrite Hdom. destruct (decide (q = p)) as [->|Hne].
        - rewrite !lookup_alter_eq, Hrec. simpl. split; by eexists.
        - by rewrite !lookup_alter_ne. }
      split.
      { intros q Hq. apply not_elem_of_cons in Hq as [Hne Hq].
        rewrite (Hout _ Hq). by rewrite !lookup_alter_ne. }
      split; [by apply sublist_cons|]. split.
      { intros Hnd q Hq. apply NoDup_cons in Hnd as [_ Hnd]. by apply Hkept. }
      intros Hnd q Hq Hnk. apply NoDup_cons in Hnd as [Hp Hnd].
      apply elem_of_cons in Hq as [->|Hq]; [|by apply Hrej].
      by rewrite (Hout _ Hp), !lookup_alter_eq, Hrec.
Qed.

Lemma startSoutChain_ids_calls out l h m kept m' t :
  startSoutChain_ids w out l h m = (kept, m', t) ->
  Forall (fun e => is_add_op e = true) t.
Proof.
  revert h m kept m' t. induction l as [|p l IH]; intros h m kept m' t H.
  - simpl in H. unfold ret in H. by injection H as <- <- <-.
  - simpl in H. step_call H. cbn [app] in H.
    destruct (mem m !! p) as [rec|]; [|by apply IH in H].
    step_call H. step_call H.
    match type of H with
    | context [sout_StreamIdAdd w ?h' out (fmt rec)] =>
        destruct (sout_StreamIdAdd w h' out (fmt rec)) as [sub|]
    end.
    + apply bind_inv in H as (kept' & mA & tA & tB & Hrun & H & ->).
      unfold ret in H. injection H as <- <- <-. apply IH in Hrun.
      constructor; [done|]. by rewrite app_nil_r.
    + step_call H. step_call H. apply IH in H.
      constructor; [done|]. by constructor.
Qed.

(** What [startSoutChain] leaves behind, by the answer of the chain
    factory and by what the adding loop kept. *)
Lemma startSoutChain_state new_streams sout h m ok m' t :
  startSoutChain w new_streams sout h m = (ok, m', t) ->
  same_but_chain (sys m) (sys m') /\
  (forall p, is_Some (mem m' !! p) <-> is_Some (mem m !! p)) /\
  (forall p, p ∉ new_streams -> mem m' !! p = mem m !! p) /\
  exists res t',
    sout_StreamChainNew w h sout = res /\
    t = E_sout_StreamChainNew sout res :: t' /\
    Forall (fun e => is_chain_op e = true) t' /\
    match res with
    | None =>
        ok = false /\ t' = [] /\ mem m' = mem m /\
        out_streams (sys m') = [] /\ p_out (sys m') = None
    | Some out =>
        exists kept tA,
          Forall (fun e => is_add_op e = true) tA /\
          kept `sublist_of` new_streams /\
          (NoDup new_streams ->
           forall p, p ∈ kept -> is_Some (mem m' !! p ≫= p_sub_id)) /\
          (NoDup new_streams ->
           forall p, p ∈ new_streams -> p ∉ kept ->
             mem m' !! p ≫= p_sub_id = None) /\
          match kept with
          | [] =>
              ok = false /\ t' = tA ++ [E_sout_StreamChainDelete (Some out)] /\
              out_streams (sys m') = [] /\ p_out (sys m') = None
          | _ :: _ =>
              ok = true /\ t' = tA /\
              out_streams (sys m') = kept /\ p_out (sys m') = Some out
          end
    end.
Proof.
  unfold startSoutChain. intros H.
  step_call H. step_call H. step_call H. cbn [app] in H.
  rewrite (app_nil_r h) in *.
  destruct (sout_StreamChainNew w h sout) as [out|] eqn:Hnew.
  - apply bind_inv in H as (kept & mA & tA & tB & Hids & H & ->).
    assert (Hops : Forall (fun e => is_chain_op e = true) tA).
    { match type of Hids with
      | startSoutChain_ids w out new_streams ?h' ?m0 = _ =>
          destruct (startSoutChain_ids_run w out new_streams h' m0)
            as (k' & mm' & t'' & Hr & Hops)
      end.
      rewrite Hids in Hr. by injection Hr as <- _ <-. }
    pose proof (startSoutChain_ids_calls _ _ _ _ _ _ _ Hids) as Hadd.
    apply startSoutChain_ids_state in Hids
      as (Hs & Hdom & Hout & Hsub & Hkept & Hrej).
    simpl in Hs, Hdom, Hout, Hkept, Hrej.
    step_call H. destruct kept as [|k kept].
    + step_call H. unfold ret in H. injection H as <- <- <-.
      simpl. rewrite Hs. simpl.
      split; [by repeat split|]. split; [done|]. split; [done|].
      exists (Some out). eexists. split; [done|]. split; [reflexivity|]. split.
      { rewrite ?app_nil_r. apply Forall_app. split; [done|]. by repeat constructor. }
      exists [], tA. split; [done|]. split; [done|]. split; [done|]. split; [done|].
      by rewrite ?app_nil_r.
    + unfold ret in H. injection H as <- <- <-. simpl. rewrite Hs. simpl.
      split; [by repeat split|]. split; [done|]. split; [done|].
      exists (Some out). eexists. split; [done|]. split; [reflexivity|]. split.
      { by rewrite ?app_nil_r. }
      exists (k :: kept), tA. split; [done|]. split; [done|]. split; [done|]. split; [done|].
      by rewrite ?app_nil_r.
  - step_call H. unfold ret in H. injection H as <- <- <-. simpl.
    split; [by repeat split|]. split; [done|]. split; [done|].
    exists None. eexists. split; [done|]. split; [reflexivity|]. split; [done|]. done.
Qed.

(** The removing loop of [stopSoutChain]: one [sout_StreamIdDel] for each
    bound stream, in order, each with the stream id of its record; every
    record stays in the heap with its format. *)
Lemma stopSoutChain_ids_trace out l h m u m' t :
  NoDup l ->
  stopSoutChain_ids out l h m = (u, m', t) ->
  t = (fun p => E_sout_StreamIdDel out (mem m !! p ≫= p_sub_id)) <$> l /\
  (forall p, fmt <$> mem m' !! p = fmt <$> mem m !! p).
Proof.
  revert h m u m' t. induction l as [|p l IH]; intros h m u m' t Hnd H.
  - simpl in H. unfold ret in H. by injection H as <- <- <-.
  - apply NoDup_cons in Hnd as [Hp Hnd].
    simpl in H. step_call H. step_call H. step_call H. cbn [app] in H.
    destruct (stopSoutChain_ids_run out l
                (((h ++ []) ++ [E_sout_StreamIdDel out (mem m !! p ≫= p_sub_id)]) ++ [])
                {| sys := sys m; mem := alter (with_p_sub_id None) p (mem m) |})
      as (mm & t' & Hrun & _ & _ & Hother).
    apply IH in H as [-> Hfmt]; [|done]. simpl in *. split.
    + f_equal. apply list_fmap_ext. intros i q Hq.
      assert (q ≠ p) as Hne.
      { intros ->. apply Hp. by eapply list_elem_of_lookup_2. }
      by rewrite lookup_alter_ne.
    + intros q. rewrite Hfmt. destruct (decide (q = p)) as [->|Hne].
      * rewrite lookup_alter_eq. by destruct (mem m !! p).
      * by rewrite lookup_alter_ne.
Qed.

End ChainState.

(** ** The renderer control client, in detail *)

Lemma dispatched_app t1 t2 : dispatched (t1 ++ t2) = dispatched t1 ++ dispatched t2.
Proof. apply omap_app. Qed.

Lemma dispatched_resolve t :
  Forall (fun e => is_resolve e = true) t -> dispatched t = [].
Proof.
  induction 1 as [|e t He _ IH]; [done|].
  unfold dispatched in *. destruct e; try discriminate He; simpl; exact IH.
Qed.

Lemma response_releases_app n t1 t2 :
  response_releases n (t1 ++ t2) = (response_releases n t1 + response_releases n t2)%nat.
Proof. unfold response_releases. by rewrite filter_app, length_app. Qed.

Lemma response_releases_resolve n t :
  Forall (fun e => is_resolve e = true) t -> response_releases n t = 0%nat.
Proof.
  induction 1 as [|e t He _ IH]; [done|].
  unfold response_releases in *. rewrite filter_cons.
  destruct e; try discriminate He; simpl; exact IH.
Qed.

Lemma make_action_service name service args :
  act_service (make_action name service args) = service.
Proof.
  unfold make_action.
  change service with
    (act_service {| act_name := name; act_service := service; act_args := [] |})
    at 2.
  generalize ({| act_name := name; act_service := service; act_args := [] |}).
  induction args as [|x args IH]; intros a; [reflexivity|].
  simpl. now rewrite IH.
Qed.

Lemma make_action_eq name service args :
  make_action name service args
  = {| act_name := name; act_service := service; act_args := args |}.
Proof.
  pose proof (make_action_name name service args) as Hn.
  pose proof (make_action_service name service args) as Hs.
  pose proof (make_action_args name service args) as Ha.
  destruct (make_action name service args). simpl in *. by subst.
Qed.

Section ClientDetail.

Variable w : World.
Variable self : MediaRenderer.

(** One of the three AVTransport verbs, call by call. *)
Lemma verb_exact action_name arguments h m :
  exists control_url pre ret_code response,
    Forall (fun e => is_resolve e = true) pre /\
    (p_response <- SendAction w self action_name AV_TRANSPORT_SERVICE_TYPE
                     arguments ;;
     match p_response with
     | None => ret (VLC_EGENERIC w)
     | Some d => emit (E_ixmlDocument_free (ResponseDoc d)) ;; ret (VLC_SUCCESS w)
     end) h m
    = (if (ret_code =? UPNP_E_SUCCESS w) && bool_decide (is_Some response)
       then VLC_SUCCESS w else VLC_EGENERIC w,
       m,
       pre ++
       [E_UpnpSendAction (handle self) control_url AV_TRANSPORT_SERVICE_TYPE
          {| act_name := action_name; act_service := AV_TRANSPORT_SERVICE_TYPE;
             act_args := arguments |} ret_code response;
        E_ixmlDocument_free
          (ActionDoc
             {| act_name := action_name;
                act_service := AV_TRANSPORT_SERVICE_TYPE;
                act_args := arguments |});
        E_free_str control_url] ++
       match response with
       | Some d => [E_ixmlDocument_free (ResponseDoc d)]
       | None => []
       end).
Proof.
  destruct (SendAction_run w self action_name AV_TRANSPORT_SERVICE_TYPE
              arguments h m) as (control_url & pre & _ & Hpre & Hsend).
  simpl in Hsend. rewrite make_action_eq in Hsend.
  destruct (UpnpSendAction w (h ++ pre) (handle self) control_url
              AV_TRANSPORT_SERVICE_TYPE _) as [ret_code response] eqn:Hd.
  exists control_url, pre, ret_code, response. split; [done|].
  unfold bind. rewrite Hsend. simpl.
  destruct (ret_code =? UPNP_E_SUCCESS w); destruct response as [d|];
    unfold emit, ret; simpl; by rewrite <- ?app_assoc, ?app_nil_r.
Qed.

End ClientDetail.

(** ** Reconciliation, path by path *)

Section Shape.

Variable w : World.

Lemma getServerIPAddress_calls h m ip m' t :
  getServerIPAddress w h m = (ip, m', t) ->
  m' = m /\ Forall (fun e => is_ip_call e = true) t /\
  (ip = None ->
   t = [E_getIpv4ForMulticast None; E_UpnpGetServerIpAddress None]) /\
  (is_Some ip -> E_UpnpGetServerIpAddress None ∉ t).
Proof.
  unfold getServerIPAddress, bind, call, ret.
  destruct (getIpv4ForMulticast w h) as [a|] eqn:Ha; simpl.
  - intros [= <- <- <-]. split; [done|]. split; [by repeat constructor|].
    split; [done|]. intros _ Hin. trace_elem Hin.
  - intros [= <- <- <-]. split; [done|]. split; [by repeat constructor|].
    split; [by intros ->|]. intros [ip Hip] Hin. trace_elem Hin.
    injection Hin as Hin. congruence.
Qed.

(** The exits of the last phase of [UpdateOutput], in the order of the
    source: no local address, no memory for the URI, no chain or no stream
    accepted by the chain, and the full run with its three control
    actions. *)
Lemma UpdateOutput_serve_shape s c ssout h m r m' tr :
  UpdateOutput_serve w s c ssout h m = (r, m', tr) ->
  exists tick rnd tip,
    Forall (fun e => is_ip_call e = true) tip /\
    ((r = VLC_EGENERIC w /\ m' = m /\
      tr = E_vlc_tick_now tick :: E_vlc_mrand48 rnd :: tip /\
      E_UpnpGetServerIpAddress None ∈ tip) \/
     (exists ip,
        r = VLC_ENOMEM w /\ m' = m /\
        tr = E_vlc_tick_now tick :: E_vlc_mrand48 rnd :: tip
             ++ [E_asprintf None; E_free_str (Some ip)] /\
        (E_UpnpGetServerIpAddress None ∉ tip)) \/
     (exists ip hc ok tc,
        (E_UpnpGetServerIpAddress None ∉ tip) /\
        startSoutChain w (new_streams c)
          (ssout +:+ "http{dst=:" +:+ pretty (http_port s) +:+
           root_url tick rnd +:+ ",mux=" +:+ "mp4stream" +:+
           ",access=http{mime=" +:+ "video/mp4" +:+ "}}") hc m
        = (ok, m', tc) /\
        ((ok = false /\ r = VLC_EGENERIC w /\
          tr = E_vlc_tick_now tick :: E_vlc_mrand48 rnd :: tip
               ++ E_asprintf (Some ("http://" +:+ ip +:+ ":" +:+
                                    pretty (http_port s) +:+ root_url tick rnd))
               :: tc
               ++ [E_free_str (Some ("http://" +:+ ip +:+ ":" +:+
                                     pretty (http_port s) +:+ root_url tick rnd));
                   E_free_str (Some ip)]) \/
         (ok = true /\ r = VLC_SUCCESS w /\
          exists t1 t2 t3,
            tr = E_vlc_tick_now tick :: E_vlc_mrand48 rnd :: tip
                 ++ E_asprintf (Some ("http://" +:+ ip +:+ ":" +:+
                                      pretty (http_port s) +:+ root_url tick rnd))
                 :: tc ++ t1 ++ t2 ++ t3
                 ++ [E_free_str (Some ("http://" +:+ ip +:+ ":" +:+
                                       pretty (http_port s) +:+ root_url tick rnd));
                     E_free_str (Some ip)] /\
            Forall (fun e => is_client e = true) (t1 ++ t2 ++ t3) /\
            dispatched (t1 ++ t2 ++ t3)
            = [{| act_name := "Stop"; act_service := AV_TRANSPORT_SERVICE_TYPE;
                  act_args := [("InstanceID", "0")] |};
               {| act_name := "SetAVTransportURI";
                  act_service := AV_TRANSPORT_SERVICE_TYPE;
                  act_args :=
                    [("InstanceID", "0");
                     ("CurrentURI",
                      "http://" +:+ ip +:+ ":" +:+ pretty (http_port s) +:+
                      root_url tick rnd);
                     ("CurrentURIMetaData", "")] |};
               {| act_name := "Play"; act_service := AV_TRANSPORT_SERVICE_TYPE;
                  act_args := [("InstanceID", "0"); ("Speed", "1")] |}])))).
Proof.
  unfold UpdateOutput_serve. intros H.
  step_call H. step_call H.
  apply bind_inv in H as (ip & m1 & tip & t' & Hip & H & ->).
  apply getServerIPAddress_calls in Hip as (-> & Htip & Hnone & Hsome).
  exists (vlc_tick_now w h),
    (vlc_mrand48 w (h ++ [E_vlc_tick_now (vlc_tick_now w h)])), tip.
  split; [exact Htip|].
  destruct ip as [ip|].
  2: { unfold ret in H. injection H as <- <- <-. left.
       split; [done|]. split; [done|]. split; [simpl; by rewrite ?app_nil_r|].
       rewrite Hnone by done. apply elem_of_cons. right. by apply elem_of_cons; left. }
  right. step_call H.
  match type of H with
  | context [asprintf_ok w ?h'] => destruct (asprintf_ok w h')
  end.
  2: { step_call H. unfold ret in H. injection H as <- <- <-. left.
       exists ip. split; [done|]. split; [done|].
       split; [simpl; by rewrite ?app_nil_r|]. by apply Hsome. }
  right.
  apply bind_inv in H as (ok & m1 & tc & t'' & Hstart & H & ->).
  destruct ok; simpl in H.
  - exists ip. eexists _, true, tc. apply bind_inv in H as (r1 & mA & t1 & tB & Hstop & H & ->).
    apply bind_inv in H as (r2 & mB & t2 & tC & Hset & H & ->).
    apply bind_inv in H as (r3 & mC & t3 & tD & Hplay & H & ->).
    step_call H. step_call H. unfold ret in H. injection H as <- <- <-.
    unfold Stop in Hstop. unfold SetAVTransportURI in Hset. unfold Play in Hplay.
    match type of Hstop with
    | _ ?h' ?m0 = _ =>
        destruct (verb_exact w (renderer s) "Stop" [("InstanceID", "0")] h' m0)
          as (u1 & p1 & c1 & d1 & Hp1 & E1)
    end.
    rewrite E1 in Hstop. injection Hstop as _ <- Ht1.
    match type of Hset with
    | _ ?h' ?m0 = _ =>
        destruct (verb_exact w (renderer s) "SetAVTransportURI"
                    [("InstanceID", "0");
                     ("CurrentURI",
                      "http://" +:+ ip +:+ ":" +:+ pretty (http_port s) +:+
                      root_url (vlc_tick_now w h)
                        (vlc_mrand48 w (h ++ [E_vlc_tick_now (vlc_tick_now w h)])));
                     ("CurrentURIMetaData", "")] h' m0)
          as (u2 & p2 & c2 & d2 & Hp2 & E2)
    end.
    rewrite E2 in Hset. injection Hset as _ <- Ht2.
    match type of Hplay with
    | _ ?h' ?m0 = _ =>
        destruct (verb_exact w (renderer s) "Play"
                    [("InstanceID", "0"); ("Speed", "1")] h' m0)
          as (u3 & p3 & c3 & d3 & Hp3 & E3)
    end.
    rewrite E3 in Hplay. injection Hplay as _ <- Ht3.
    split; [by apply Hsome|].
    split; [exact Hstart|]. right. split; [done|]. split; [done|].
    exists t1, t2, t3. split.
    { simpl. rewrite ?app_nil_r. do 3 f_equal; try by rewrite <- !app_assoc. }
    rewrite <- Ht1, <- Ht2, <- Ht3. split.
    { rewrite !Forall_app. repeat split;
        first [ by apply is_resolve_is_client
              | by repeat constructor
              | by (destruct d1; repeat constructor)
              | by (destruct d2; repeat constructor)
              | by (destruct d3; repeat constructor) ]. }
    rewrite !dispatched_app, !(dispatched_resolve _ Hp1),
      !(dispatched_resolve _ Hp2), !(dispatched_resolve _ Hp3).
    destruct d1, d2, d3; reflexivity.
  - exists ip. eexists _, false, tc.
    step_call H. step_call H. unfold ret in H. injection H as <- <- <-.
    split; [by apply Hsome|].
    split; [exact Hstart|]. left. split; [done|]. split; [done|].
    simpl. rewrite ?app_nil_r. do 3 f_equal; try by rewrite <- !app_assoc.
Qed.

(** The conversion block only asks for configuration, asks the user and
    asks for the video encoder options; what it writes to the chain
    description is a [transcode] stage with the audio option, if any,
    before the video option, if any. *)
Lemma UpdateOutput_transcode_shape s c h m x m' tr :
  UpdateOutput_transcode w s c h m = (x, m', tr) ->
  Forall (fun e => is_conversion_call e = true) tr /\
  (forall ssout,
     x = inr ssout ->
     exists vcodec,
       ssout
       = "transcode{" +:+
         (if (i_codec_audio c =? 0) && bool_decide (is_Some (p_original_audio c))
          then GetAcodecOption (VLC_CODEC_MP4A w) else "") +:+
         vcodec +:+ "}:" /\
       (vcodec = "" \/
        exists f quality,
          E_var_InheritInteger (SOUT_CFG_PREFIX w +:+ "conversion-quality")
            quality ∈ tr /\
          E_GetVcodecOption (VLC_CODEC_H264 w) f (to_int quality) (Some vcodec)
          ∈ tr) /\
       ((i_codec_video c =? 0) && bool_decide (is_Some (p_original_video c))
        = false -> vcodec = "")).
Proof.
  unfold UpdateOutput_transcode. intros H.
  apply bind_inv in H as (proceed & m1 & t1 & t2 & Hgate & H & ->).
  assert (Hg : Forall (fun e => is_conversion_call e = true) t1).
  { clear H.
    destruct (negb (perf_warning_shown s) && (i_codec_video c =? 0)
              && bool_decide (is_Some (p_original_video c))).
    2: { unfold ret in Hgate. by injection Hgate as <- <- <-. }
    step_call Hgate.
    match type of Hgate with
    | context [if ?b then _ else _] => destruct b
    end.
    { unfold ret in Hgate. injection Hgate as <- <- <-. by repeat constructor. }
    step_call Hgate.
    match type of Hgate with
    | context [if ?b then _ else _] => destruct b
    end.
    { unfold ret in Hgate. injection Hgate as <- <- <-. by repeat constructor. }
    step_call Hgate.
    apply bind_inv in Hgate as (u & m2 & t3 & t4 & Hput & Hgate & ->).
    unfold ret in Hgate. injection Hgate as <- <- <-.
    match type of Hput with
    | context [if ?b then _ else _] => destruct b
    end; unfold emit, ret in Hput; injection Hput as <- <- <-;
      by repeat constructor. }
  destruct proceed; simpl in H.
  2: { unfold ret in H. injection H as <- <- <-. rewrite app_nil_r.
       split; [done|]. intros ssout Hx. discriminate Hx. }
  step_call H.
  destruct (i_codec_video c =? 0) eqn:Hv; [destruct (p_original_video c) as [f|]|].
  - step_call H.
    match type of H with
    | context [match ?b with Some _ => _ | None => _ end] =>
        destruct b as [vcodec|] eqn:Hvc
    end; unfold ret in H; injection H as <- <- <-.
    + split; [apply Forall_app; split; [done|by repeat constructor]|].
      intros ssout [= <-]. exists vcodec. split; [done|]. split; [|done].
      right. eexists _, _. split.
      * apply elem_of_app. right. apply elem_of_app. left.
        apply list_elem_of_singleton. reflexivity.
      * apply elem_of_app. right. apply elem_of_app. right.
        apply elem_of_app. left. apply list_elem_of_singleton. reflexivity.
    + split; [apply Forall_app; split; [done|by repeat constructor]|].
      intros ssout Hx. discriminate Hx.
  - unfold ret in H. injection H as <- <- <-.
    split; [apply Forall_app; split; [done|by repeat constructor]|].
    intros ssout [= <-]. exists "". split; [done|]. split; [by left|done].
  - unfold ret in H. injection H as <- <- <-.
    split; [apply Forall_app; split; [done|by repeat constructor]|].
    intros ssout [= <-]. exists "". split; [done|]. split; [by left|done].
Qed.

(** [UpdateOutput] by its exits: the flag is clean, no track takes part,
    the conversion block returns early, or the last phase runs. *)
Lemma UpdateOutput_shape h m r m' tr :
  UpdateOutput w h m = (r, m', tr) ->
  let c := classify w (b_supports_video (sys m)) (mem m) (streams (sys m)) in
  let m0 := {| sys := with_es_changed false (sys m); mem := mem m |} in
  (es_changed (sys m) = false /\ r = VLC_SUCCESS w /\ m' = m /\ tr = []) \/
  (es_changed (sys m) = true /\ new_streams c = [] /\
   r = VLC_SUCCESS w /\ m' = m0 /\ tr = []) \/
  (es_changed (sys m) = true /\ new_streams c <> [] /\
   exists x m1 t1,
     (m1 = m0 \/
      m1 = {| sys := with_perf_warning_shown true (sys m0); mem := mem m0 |}) /\
     Forall (fun e => is_conversion_call e = true) t1 /\
     (if canRemux c then x = inr "" /\ t1 = []
      else exists h1, UpdateOutput_transcode w (sys m) c h1 m0 = (x, m1, t1)) /\
     match x with
     | inl code => r = code /\ m' = m1 /\ tr = t1
     | inr ssout =>
         exists h2 t2,
           UpdateOutput_serve w (sys m) c ssout h2 m1 = (r, m', t2) /\
           tr = t1 ++ t2
     end).
Proof.
  intros H c m0. unfold UpdateOutput in H. step_call H.
  destruct (es_changed (sys m)) eqn:Hdirty; simpl in H.
  2: { unfold ret in H. injection H as <- <- <-. by left. }
  right. step_call H. step_call H. fold c in H. fold m0 in H.
  destruct (new_streams c) as [|p ps] eqn:Hnew.
  { unfold ret in H. injection H as <- <- <-. by left. }
  right. split; [done|]. split; [done|].
  apply bind_inv in H as (x & m1 & t1 & t2 & Htrans & H & ->). cbn [app].
  exists x, m1, t1.
  assert (Hpre :
    (m1 = m0 \/
     m1 = {| sys := with_perf_warning_shown true (sys m0); mem := mem m0 |}) /\
    Forall (fun e => is_conversion_call e = true) t1 /\
    (if canRemux c then x = inr "" /\ t1 = []
     else exists h1, UpdateOutput_transcode w (sys m) c h1 m0 = (x, m1, t1))).
  { destruct (canRemux c).
    - unfold ret in Htrans. injection Htrans as <- <- <-.
      split; [by left|]. by split.
    - pose proof (UpdateOutput_transcode_run _ _ _ _ _ _ _ _ Htrans) as (Hm & _).
      pose proof (UpdateOutput_transcode_shape _ _ _ _ _ _ _ Htrans) as (Hf & _).
      split; [done|]. split; [done|]. by eexists. }
  destruct Hpre as (Hm1 & Hf1 & Hx).
  split; [done|]. split; [done|]. split; [done|].
  destruct x as [code|ssout].
  - unfold ret in H. injection H as <- <- <-. by rewrite app_nil_r.
  - by eexists _, t2.
Qed.

End Shape.

(** ** Properties of reconciliation *)

Lemma Forall_class (P Q : event -> bool) t :
  (forall e, P e = true -> Q e = false) ->
  Forall (fun e => P e = true) t -> Forall (fun e => Q e = false) t.
Proof. intros HPQ H. eapply Forall_impl; [exact H|]. exact HPQ. Qed.

Lemma with_es_changed_same s :
  es_changed s = false -> with_es_changed false s = s.
Proof. destruct s. simpl. by intros ->. Qed.

Section ReconciliationMore.

Variable w : World.

Lemma UpdateOutput_clean h m :
  es_changed (sys m) = false -> UpdateOutput w h m = (VLC_SUCCESS w, m, []).
Proof.
  intros Hclean. unfold UpdateOutput, bind, get_sys. rewrite Hclean. simpl.
  unfold ret. by destruct m.
Qed.

(** X1: a second reconciliation right after a first one does nothing: it
    makes no call, changes nothing and reports success, whatever the first
    one did. *)
Theorem UpdateOutput_twice h h' m :
  UpdateOutput w h' (UpdateOutput w h m).1.2
  = (VLC_SUCCESS w, (UpdateOutput w h m).1.2, []).
Proof.
  apply UpdateOutput_clean.
  destruct (UpdateOutput w h m) as [[r m'] tr] eqn:H.
  by apply UpdateOutput_run in H as (He & _).
Qed.

(** X2: when no registered track is an audio track, or a video track on a
    session with video support, reconciliation makes no call and reports
    success; it only clears the dirty flag. *)
Theorem UpdateOutput_no_eligible_track h m :
  (forall p, p ∈ streams (sys m) ->
     eligible (b_supports_video (sys m)) (mem m) p = false) ->
  UpdateOutput w h m
  = (VLC_SUCCESS w, {| sys := with_es_changed false (sys m); mem := mem m |}, []).
Proof.
  intros Hnone.
  destruct (es_changed (sys m)) eqn:Hdirty.
  2: { rewrite UpdateOutput_clean by done. rewrite with_es_changed_same by done.
       by destruct m. }
  unfold UpdateOutput, bind, get_sys, set_sys, get_mem. rewrite Hdirty. simpl.
  rewrite classify_new_streams.
  assert (filter (fun p => eligible (b_supports_video (sys m)) (mem m) p)
            (streams (sys m)) = []) as Hnil.
  2: { rewrite Hnil. reflexivity. }
  induction (streams (sys m)) as [|p l IH]; [done|].
  rewrite filter_cons_False.
  - apply IH. intros q Hq. apply Hnone. apply elem_of_cons. by right.
  - rewrite Hnone; [by intros []|]. apply elem_of_cons. by left.
Qed.

(** Either [UpdateOutput] ends before its last phase, having made
    conversion calls only and left the chain, the bound set and the heap
    alone, or the last phase runs on a session that differs from the
    initial one by the two flags at most. *)
Lemma UpdateOutput_phases h m r m' tr :
  UpdateOutput w h m = (r, m', tr) ->
  let c := classify w (b_supports_video (sys m)) (mem m) (streams (sys m)) in
  (Forall (fun e => is_conversion_call e = true) tr /\
   mem m' = mem m /\ p_out (sys m') = p_out (sys m) /\
   out_streams (sys m') = out_streams (sys m) /\
   (canRemux c = true -> tr = [])) \/
  (exists ssout m1 t1 h2 t2,
     mem m1 = mem m /\ p_out (sys m1) = p_out (sys m) /\
     out_streams (sys m1) = out_streams (sys m) /\
     Forall (fun e => is_conversion_call e = true) t1 /\
     (if canRemux c then ssout = "" /\ t1 = []
      else exists h1 m0,
          UpdateOutput_transcode w (sys m) c h1 m0 = (inr ssout, m1, t1)) /\
     UpdateOutput_serve w (sys m) c ssout h2 m1 = (r, m', t2) /\
     tr = t1 ++ t2).
Proof.
  intros H c. apply UpdateOutput_shape in H. fold c in H.
  destruct H as [(_ & _ & -> & ->)|[(_ & _ & _ & -> & ->)|H]];
    [left; by repeat split|left; by repeat split|].
  destruct H as (_ & _ & x & m1 & t1 & Hm1 & Hf1 & Hx & H).
  assert (Hsame : mem m1 = mem m /\ p_out (sys m1) = p_out (sys m) /\
                  out_streams (sys m1) = out_streams (sys m))
    by by destruct Hm1 as [->| ->].
  destruct Hsame as (Hmem & Hp & Ho).
  destruct x as [code|ssout].
  - destruct H as (_ & -> & ->). left. do 4 (split; [done|]).
    intros Hremux. rewrite Hremux in Hx. by destruct Hx.
  - destruct H as (h2 & t2 & Hserve & ->). right.
    exists ssout, m1, t1, h2, t2. do 4 (split; [done|]).
    split; [|done]. revert Hx. destruct (canRemux c); intros Hx.
    + by destruct Hx as [[= ->] ->].
    + destruct Hx as (h1 & Hx). by eexists _, _.
Qed.

(** The last phase makes no other calls than these: the clock, the
    generator, the address lookup, the URI allocation, chain calls and
    client calls. *)
Lemma UpdateOutput_serve_calls s c ssout h m r m' tr :
  UpdateOutput_serve w s c ssout h m = (r, m', tr) ->
  Forall (fun e => is_serve_call e = true) tr.
Proof.
  intros H. apply UpdateOutput_serve_shape in H
    as (tick & rnd & tip & Htip & Hcases).
  assert (Htip' : Forall (fun e => is_serve_call e = true) tip).
  { eapply Forall_impl; [exact Htip|]. by intros []. }
  destruct Hcases as [(_ & _ & -> & _)|[(ip & _ & _ & -> & _)|Hchain]].
  - by repeat constructor.
  - repeat (constructor; [done|]). apply Forall_app. split; [done|].
    by repeat constructor.
  - destruct Hchain as (ip & hc & ok & tc & _ & Hstart & Hcase).
    apply startSoutChain_state in Hstart
      as (_ & _ & _ & res' & t' & _ & -> & Hops & _).
    assert (Hops' : Forall (fun e => is_serve_call e = true) t').
    { eapply Forall_impl; [exact Hops|]. by intros []. }
    destruct Hcase as [(_ & _ & ->)|(_ & _ & t3 & t4 & t5 & -> & Hcl & _)].
    + repeat (constructor; [done|]). apply Forall_app. split; [done|].
      repeat (constructor; [done|]). apply Forall_app. split; [done|].
      by repeat constructor.
    + repeat (constructor; [done|]). apply Forall_app. split; [done|].
      repeat (constructor; [done|]). apply Forall_app. split; [done|].
      rewrite !app_assoc, <- (app_assoc t3). apply Forall_app. split.
      * eapply Forall_impl; [exact Hcl|]. by intros [].
      * by repeat constructor.
Qed.

(** The calls of one reconciliation, flattened: conversion calls, then the
    clock, the generator and the address lookup, then at most one chain
    creation followed by chain operations, client calls and releases. *)
Lemma UpdateOutput_chain_event h m r m' tr d res :
  UpdateOutput w h m = (r, m', tr) ->
  E_sout_StreamChainNew d res ∈ tr ->
  exists ssout tick rnd,
    E_vlc_tick_now tick ∈ tr /\ E_vlc_mrand48 rnd ∈ tr /\
    d = ssout +:+ "http{dst=:" +:+ pretty (http_port (sys m)) +:+
        root_url tick rnd +:+ ",mux=" +:+ "mp4stream" +:+
        ",access=http{mime=" +:+ "video/mp4" +:+ "}}" /\
    (canRemux (classify w (b_supports_video (sys m)) (mem m) (streams (sys m)))
     = true -> ssout = "" /\ Forall (fun e => is_conversion_call e = false) tr) /\
    (canRemux (classify w (b_supports_video (sys m)) (mem m) (streams (sys m)))
     = false ->
     exists h1 m0 m1 t1,
       UpdateOutput_transcode w (sys m)
         (classify w (b_supports_video (sys m)) (mem m) (streams (sys m)))
         h1 m0 = (inr ssout, m1, t1) /\
       forall e, e ∈ t1 -> e ∈ tr).
Proof.
  intros H Hin. apply UpdateOutput_phases in H.
  destruct H as [(Hconv & _)|H].
  { exfalso. rewrite Forall_forall in Hconv. by specialize (Hconv _ Hin). }
  destruct H as (ssout & m1 & t1 & h2 & t2 & _ & _ & _ & Hf1 & Hx & Hserve & ->).
  assert (Htrans :
    canRemux (classify w (b_supports_video (sys m)) (mem m) (streams (sys m)))
    = false ->
    exists h1 m0 m1' t1',
      UpdateOutput_transcode w (sys m)
        (classify w (b_supports_video (sys m)) (mem m) (streams (sys m)))
        h1 m0 = (inr ssout, m1', t1') /\
      forall e, e ∈ t1' -> e ∈ t1 ++ t2).
  { intros Hr. rewrite Hr in Hx. destruct Hx as (h1 & m0 & Hx).
    exists h1, m0, m1, t1. split; [done|].
    intros e He. apply elem_of_app. by left. }
  apply elem_of_app in Hin as [Hin|Hin].
  { exfalso. rewrite Forall_forall in Hf1. by specialize (Hf1 _ Hin). }
  apply UpdateOutput_serve_shape in Hserve
    as (tick & rnd & tip & Htip & Hcases).
  assert (Hnotip : forall e, e ∈ tip -> is_chain_call e = false /\
                                       is_conversion_call e = false).
  { intros e He. rewrite Forall_forall in Htip. specialize (Htip _ He).
    by destruct e. }
  destruct Hcases as [(_ & _ & -> & _)|[(ip & _ & _ & -> & _)|Hchain]].
  - exfalso. trace_elem Hin. by destruct (Hnotip _ Hin).
  - exfalso. trace_elem Hin. by destruct (Hnotip _ Hin).
  - destruct Hchain as (ip & hc & ok & tc & _ & Hstart & Hcase).
    apply startSoutChain_state in Hstart
      as (_ & _ & _ & res' & t' & _ & -> & Hops & _).
    assert (Hops' : forall e, e ∈ t' -> is_chain_op e = true).
    { by apply Forall_forall. }
    assert (Hd : forall tl,
      (forall e, e ∈ tl -> is_chain_call e = false) ->
      E_sout_StreamChainNew d res
      ∈ E_vlc_tick_now tick :: E_vlc_mrand48 rnd :: tip ++
        E_asprintf (Some ("http://" +:+ ip +:+ ":" +:+
                          pretty (http_port (sys m)) +:+ root_url tick rnd))
        :: (E_sout_StreamChainNew
              (ssout +:+ "http{dst=:" +:+ pretty (http_port (sys m)) +:+
               root_url tick rnd +:+ ",mux=" +:+ "mp4stream" +:+
               ",access=http{mime=" +:+ "video/mp4" +:+ "}}") res' :: t') ++ tl ->
      d = ssout +:+ "http{dst=:" +:+ pretty (http_port (sys m)) +:+
          root_url tick rnd +:+ ",mux=" +:+ "mp4stream" +:+
          ",access=http{mime=" +:+ "video/mp4" +:+ "}}").
    { intros tl Htl Hd. trace_elem Hd.
      - by destruct (Hnotip _ Hd).
      - by injection Hd as -> _.
      - by specialize (Hops' _ Hd).
      - by specialize (Htl _ Hd). }
    assert (Hconv : forall tl,
      (forall e, e ∈ tl -> is_conversion_call e = false) ->
      Forall (fun e => is_conversion_call e = false)
        (E_vlc_tick_now tick :: E_vlc_mrand48 rnd :: tip ++
         E_asprintf (Some ("http://" +:+ ip +:+ ":" +:+
                           pretty (http_port (sys m)) +:+ root_url tick rnd))
         :: (E_sout_StreamChainNew
               (ssout +:+ "http{dst=:" +:+ pretty (http_port (sys m)) +:+
                root_url tick rnd +:+ ",mux=" +:+ "mp4stream" +:+
                ",access=http{mime=" +:+ "video/mp4" +:+ "}}") res' :: t') ++ tl)).
    { intros tl Htl. apply Forall_forall. intros e He. trace_elem He;
        try (subst e; reflexivity).
      - by destruct (Hnotip _ He).
      - specialize (Hops' _ He). by destruct e.
      - by apply Htl. }
    exists ssout, tick, rnd.
    destruct Hcase as [(_ & _ & ->)|(_ & _ & t3 & t4 & t5 & -> & Hcl & _)].
    + split.
      { apply elem_of_app. right. apply elem_of_cons. by left. }
      split.
      { apply elem_of_app. right. apply elem_of_cons. right. apply elem_of_cons. by left. }
      split.
      { refine (Hd _ _ Hin). intros e He. trace_elem He; by subst e. }
      split; [|exact Htrans].
      intros Hremux. rewrite Hremux in Hx. destruct Hx as [-> ->].
      split; [done|]. apply Hconv.
      intros e He. trace_elem He; by subst e.
    + assert (Hcl' : forall e, e ∈ t3 ++ t4 ++ t5 -> is_client e = true)
        by by apply Forall_forall.
      split.
      { apply elem_of_app. right. apply elem_of_cons. by left. }
      split.
      { apply elem_of_app. right. apply elem_of_cons. right. apply elem_of_cons. by left. }
      split.
      { refine (Hd _ _ Hin). intros e He.
        rewrite !app_assoc, <- (app_assoc t3) in He.
        apply elem_of_app in He as [He|He]; [|trace_elem He; by subst e].
        specialize (Hcl' _ He). by destruct e. }
      split; [|exact Htrans].
      intros Hremux. rewrite Hremux in Hx. destruct Hx as [-> ->].
      split; [done|]. apply Hconv.
      intros e He. rewrite !app_assoc, <- (app_assoc t3) in He.
      apply elem_of_app in He as [He|He]; [|trace_elem He; by subst e].
      specialize (Hcl' _ He). by destruct e.
Qed.

(** Every run of [UpdateOutput], call by call: conversion calls first,
    then one of the six ways the rest can go. *)
Lemma UpdateOutput_exits h m r m' tr :
  UpdateOutput w h m = (r, m', tr) ->
  exists tconv tserve,
    tr = tconv ++ tserve /\
    Forall (fun e => is_conversion_call e = true) tconv /\
    (canRemux (classify w (b_supports_video (sys m)) (mem m) (streams (sys m)))
     = true -> tconv = []) /\
    ((tserve = [] /\ same_chain m m') \/
     exists ssout tick rnd tip,
       Forall (fun e => is_ip_call e = true) tip /\
       (canRemux (classify w (b_supports_video (sys m)) (mem m)
                    (streams (sys m))) = true -> ssout = "") /\
       ((tserve = E_vlc_tick_now tick :: E_vlc_mrand48 rnd :: tip /\
         E_UpnpGetServerIpAddress None ∈ tip /\
         r = VLC_EGENERIC w /\ same_chain m m') \/
        exists ip,
          (E_UpnpGetServerIpAddress None ∉ tip) /\
          ((tserve = E_vlc_tick_now tick :: E_vlc_mrand48 rnd :: tip
                     ++ [E_asprintf None; E_free_str (Some ip)] /\
            r = VLC_ENOMEM w /\ same_chain m m') \/
           (tserve = E_vlc_tick_now tick :: E_vlc_mrand48 rnd :: tip
                     ++ [E_asprintf
                           (Some (announced_uri ip (http_port (sys m)) tick rnd));
                         E_sout_StreamChainNew
                           (chain_description ssout (http_port (sys m)) tick rnd)
                           None;
                         E_free_str
                           (Some (announced_uri ip (http_port (sys m)) tick rnd));
                         E_free_str (Some ip)] /\
            r = VLC_EGENERIC w /\ mem m' = mem m /\
            out_streams (sys m') = [] /\ p_out (sys m') = None) \/
           exists out tA,
             Forall (fun e => is_add_op e = true) tA /\
             ((tserve = E_vlc_tick_now tick :: E_vlc_mrand48 rnd :: tip
                       ++ E_asprintf
                            (Some (announced_uri ip (http_port (sys m)) tick rnd))
                       :: E_sout_StreamChainNew
                            (chain_description ssout (http_port (sys m)) tick rnd)
                            (Some out)
                       :: tA
                       ++ [E_sout_StreamChainDelete (Some out);
                           E_free_str
                             (Some (announced_uri ip (http_port (sys m)) tick rnd));
                           E_free_str (Some ip)] /\
               r = VLC_EGENERIC w /\
               out_streams (sys m') = [] /\ p_out (sys m') = None) \/
              exists tcl,
                tserve = E_vlc_tick_now tick :: E_vlc_mrand48 rnd :: tip
                         ++ E_asprintf
                              (Some (announced_uri ip (http_port (sys m)) tick rnd))
                         :: E_sout_StreamChainNew
                              (chain_description ssout (http_port (sys m)) tick rnd)
                              (Some out)
                         :: tA ++ tcl
                         ++ [E_free_str
                               (Some (announced_uri ip (http_port (sys m)) tick rnd));
                             E_free_str (Some ip)] /\
                Forall (fun e => is_client e = true) tcl /\
                dispatched tcl
                = control_requests
                    (announced_uri ip (http_port (sys m)) tick rnd) /\
                r = VLC_SUCCESS w /\
                p_out (sys m') = Some out /\ out_streams (sys m') <> [])))).
Proof.
  intros H. apply UpdateOutput_phases in H.
  destruct H as [(Hconv & Hmem & Hp & Ho & Hremux)|H].
  { exists tr, []. split; [by rewrite app_nil_r|]. split; [done|].
    split; [done|]. left. by repeat split. }
  destruct H as (ssout & m1 & t1 & h2 & t2 & Hmem & Hp & Ho & Hf1 & Hx & Hserve & ->).
  exists t1, t2. split; [done|]. split; [done|]. split.
  { intros Hremux. rewrite Hremux in Hx. by destruct Hx. }
  right. apply UpdateOutput_serve_shape in Hserve
    as (tick & rnd & tip & Htip & Hcases).
  exists ssout, tick, rnd, tip. split; [done|]. split.
  { intros Hremux. rewrite Hremux in Hx. by destruct Hx. }
  destruct Hcases as [(-> & -> & -> & Hnone)|[(ip & -> & -> & -> & Hsome)|Hchain]].
  - left. by repeat split.
  - right. exists ip. split; [done|]. left. by repeat split.
  - destruct Hchain as (ip & hc & ok & tc & Hsome & Hstart & Hcase).
    right. exists ip. split; [done|]. right.
    apply startSoutChain_state in Hstart
      as (_ & _ & Hother & res & t' & _ & -> & _ & Hres).
    destruct res as [out|].
    + right. destruct Hres as (kept & tA & HtA & _ & _ & _ & Hkept).
      exists out, tA. split; [done|].
      destruct kept as [|k kept].
      * destruct Hkept as (-> & -> & Ho' & Hp').
        destruct Hcase as [(_ & -> & ->)|(? & _)]; [|done].
        left. split; [|done]. simpl. do 3 f_equal. by rewrite <- !app_assoc.
      * destruct Hkept as (-> & -> & Ho' & Hp').
        destruct Hcase as [(? & _)|(_ & -> & t3 & t4 & t5 & -> & Hcl & Hd)];
          [done|].
        right. exists (t3 ++ t4 ++ t5). split.
        { simpl. do 3 f_equal. by rewrite <- !app_assoc. }
        split; [done|]. split; [done|]. split; [done|]. split; [done|].
        by rewrite Ho'.
    + left. destruct Hres as (-> & -> & Hmem' & Ho' & Hp').
      destruct Hcase as [(_ & -> & ->)|(? & _)]; [|done].
      split; [done|]. split; [done|]. split; [congruence|]. done.
Qed.

End ReconciliationMore.

Lemma dispatched_none t :
  Forall (fun e => dispatched_action e = None) t -> dispatched t = [].
Proof.
  induction 1 as [|e t He _ IH]; [done|].
  unfold dispatched in *. simpl. by rewrite He.
Qed.

Lemma dispatched_class (P : event -> bool) t :
  (forall e, P e = true -> dispatched_action e = None) ->
  Forall (fun e => P e = true) t -> dispatched t = [].
Proof.
  intros HP H. apply dispatched_none. eapply Forall_impl; [exact H|]. exact HP.
Qed.

Lemma dispatched_cons e t :
  dispatched (e :: t)
  = match dispatched_action e with
    | Some a => a :: dispatched t
    | None => dispatched t
    end.
Proof. reflexivity. Qed.

(** Split the requests of a trace along its pieces. *)
Ltac trace_dispatched :=
  repeat (rewrite dispatched_app || rewrite dispatched_cons);
  cbn [dispatched_action].

Lemma forallb_elem_of {A} (f : A -> bool) (l : list A) :
  (forall x, x ∈ l -> f x = true) -> forallb f l = true.
Proof.
  induction l as [|x l IH]; intros H; [done|]. simpl.
  rewrite H by (apply elem_of_cons; by left). simpl.
  apply IH. intros y Hy. apply H. apply elem_of_cons. by right.
Qed.

Section ReconciliationDescription.

Variable w : World.

(** X3: when every registered track can be remuxed, reconciliation asks
    for no configuration, puts no question and asks for no encoder
    options, and any chain it creates is the bare HTTP stage on the path
    built from the tick and the random number of this run: the description
    has no conversion stage. *)
Theorem UpdateOutput_remux_only h m :
  (forall p, p ∈ streams (sys m) ->
     remuxable w (b_supports_video (sys m)) (mem m) p = true) ->
  Forall (fun e => is_conversion_call e = false) (UpdateOutput w h m).2 /\
  forall d res,
    E_sout_StreamChainNew d res ∈ (UpdateOutput w h m).2 ->
    exists tick rnd,
      E_vlc_tick_now tick ∈ (UpdateOutput w h m).2 /\
      E_vlc_mrand48 rnd ∈ (UpdateOutput w h m).2 /\
      d = "http{dst=:" +:+ pretty (http_port (sys m)) +:+ root_url tick rnd
          +:+ ",mux=mp4stream,access=http{mime=video/mp4}}".
Proof.
  intros Hall.
  assert (Hremux : canRemux (classify w (b_supports_video (sys m)) (mem m)
                               (streams (sys m))) = true).
  { rewrite classify_canRemux. by apply forallb_elem_of. }
  destruct (UpdateOutput w h m) as [[r m'] tr] eqn:H. simpl. split.
  - pose proof (UpdateOutput_phases w _ _ _ _ _ H) as [(_ & _ & _ & _ & Hnil)|Hs].
    { by rewrite Hnil. }
    destruct Hs as (ssout & m1 & t1 & h2 & t2 & _ & _ & _ & _ & Hx & Hserve & ->).
    rewrite Hremux in Hx. destruct Hx as [_ ->]. simpl.
    apply UpdateOutput_serve_calls in Hserve.
    eapply Forall_impl; [exact Hserve|]. by intros [].
  - intros d res Hin.
    destruct (UpdateOutput_chain_event w _ _ _ _ _ _ _ H Hin)
      as (ssout & tick & rnd & Htick & Hrnd & -> & Hs & _).
    destruct (Hs Hremux) as [-> _]. by exists tick, rnd.
Qed.


(** X4: a reconciliation that dispatches control actions has created a
    chain in the same run, and the URI it announces with SetAVTransportURI
    ends in the very path the chain description serves: both are built
    from one tick and one random number; Stop comes first, Play with
    speed 1 last, and the new chain is the session's chain afterwards. *)
Theorem UpdateOutput_announces_served_path h m :
  dispatched (UpdateOutput w h m).2 <> [] ->
  exists ssout tick rnd ip out,
    E_sout_StreamChainNew
      (chain_description ssout (http_port (sys m)) tick rnd) (Some out)
    ∈ (UpdateOutput w h m).2 /\
    dispatched (UpdateOutput w h m).2
    = control_requests (announced_uri ip (http_port (sys m)) tick rnd) /\
    (UpdateOutput w h m).1.1 = VLC_SUCCESS w /\
    p_out (sys (UpdateOutput w h m).1.2) = Some out /\
    out_streams (sys (UpdateOutput w h m).1.2) <> [].
Proof.
  destruct (UpdateOutput w h m) as [[r m'] tr] eqn:H. simpl. intros Hd.
  apply UpdateOutput_exits in H
    as (tconv & tserve & -> & Hconv & _ & Hcases).
  assert (Hc0 : dispatched tconv = []).
  { eapply dispatched_class; [|exact Hconv]. by intros []. }
  destruct Hcases as [(-> & _)|Hcases].
  { exfalso. apply Hd. by rewrite app_nil_r. }
  destruct Hcases as (ssout & tick & rnd & tip & Htip & _ & Hcases).
  assert (Hi0 : dispatched tip = []).
  { eapply dispatched_class; [|exact Htip]. by intros []. }
  destruct Hcases as [(-> & _)|(ip & _ & Hcases)].
  { exfalso. apply Hd. trace_dispatched. by rewrite Hc0, Hi0. }
  destruct Hcases as [(-> & _)|[(-> & _)|Hcases]].
  { exfalso. apply Hd. trace_dispatched. by rewrite Hc0, Hi0. }
  { exfalso. apply Hd. trace_dispatched. by rewrite Hc0, Hi0. }
  destruct Hcases as (out & tA & HtA & Hcases).
  assert (Ha0 : dispatched tA = []).
  { eapply dispatched_class; [|exact HtA]. by intros []. }
  destruct Hcases as [(-> & _)|(tcl & -> & _ & Hreq & -> & Hp & Ho)].
  { exfalso. apply Hd. trace_dispatched. by rewrite Hc0, Hi0, Ha0. }
  exists ssout, tick, rnd, ip, out. split.
  { apply elem_of_app. right. do 2 (apply elem_of_cons; right).
    apply elem_of_app. right. apply elem_of_cons. right.
    apply elem_of_cons. by left. }
  split; [|done]. trace_dispatched. by rewrite Hc0, Hi0, Ha0, Hreq.
Qed.


End ReconciliationDescription.

Lemma UpdateOutput_remux_only_witness :
  Forall (fun e => is_conversion_call e = false)
    (UpdateOutput world_ok [] session_one_track).2 /\
  forall d res,
    E_sout_StreamChainNew d res ∈ (UpdateOutput world_ok [] session_one_track).2 ->
    exists tick rnd,
      E_vlc_tick_now tick ∈ (UpdateOutput world_ok [] session_one_track).2 /\
      E_vlc_mrand48 rnd ∈ (UpdateOutput world_ok [] session_one_track).2 /\
      d = "http{dst=:" +:+ pretty (http_port (sys session_one_track)) +:+
          root_url tick rnd +:+ ",mux=mp4stream,access=http{mime=video/mp4}}".
Proof.
  apply (UpdateOutput_remux_only world_ok [] session_one_track).
  intros p Hp. vm_compute in Hp.
  apply list_elem_of_singleton in Hp. subst p. reflexivity.
Defined.

Lemma UpdateOutput_announces_served_path_witness :
  exists ssout tick rnd ip out,
    E_sout_StreamChainNew
      (chain_description ssout (http_port (sys session_one_track)) tick rnd)
      (Some out)
    ∈ (UpdateOutput world_ok [] session_one_track).2 /\
    dispatched (UpdateOutput world_ok [] session_one_track).2
    = control_requests
        (announced_uri ip (http_port (sys session_one_track)) tick rnd) /\
    (UpdateOutput world_ok [] session_one_track).1.1 = VLC_SUCCESS world_ok /\
    p_out (sys (UpdateOutput world_ok [] session_one_track).1.2) = Some out /\
    out_streams (sys (UpdateOutput world_ok [] session_one_track).1.2) <> [].
Proof.
  apply (UpdateOutput_announces_served_path world_ok [] session_one_track).
  vm_compute. discriminate.
Defined.

(** An event of a trace whose events all belong to a class belongs to it. *)
Lemma elem_of_class (P : event -> bool) t e :
  Forall (fun e => P e = true) t -> e ∈ t -> P e = true.
Proof. intros H Hin. rewrite Forall_forall in H. by apply H. Qed.

(** Where can an event come from, when some pieces of the trace are only
    known by the class of their events? *)
Ltac trace_elem_class H :=
  trace_elem H;
  try match goal with
      | HF : Forall (fun e => ?P e = true) ?t |- _ =>
          match type of H with
          | _ ∈ t => by apply (elem_of_class P t _ HF) in H
          end
      end.

Section ReconciliationFailures.

Variable w : World.

(** X5: a reconciliation that does not get as far as asking for a new
    chain leaves the pipeline alone: the chain, the bound set and every
    stream record are what they were, no chain is filled, emptied or
    deleted, and nothing is sent to the renderer.  This covers the clean
    session, the session without a track to serve, the declined
    conversion, the missing local address and the URI that could not be
    allocated. *)
Theorem UpdateOutput_without_chain_creation h m :
  (forall d res, E_sout_StreamChainNew d res ∉ (UpdateOutput w h m).2) ->
  same_chain m (UpdateOutput w h m).1.2 /\
  Forall (fun e => is_chain_call e = false) (UpdateOutput w h m).2 /\
  dispatched (UpdateOutput w h m).2 = [].
Proof.
  destruct (UpdateOutput w h m) as [[r m'] tr] eqn:H. simpl. intros Hno.
  apply UpdateOutput_exits in H
    as (tconv & tserve & -> & Hconv & _ & Hcases).
  assert (Hc0 : dispatched tconv = []).
  { eapply dispatched_class; [|exact Hconv]. by intros []. }
  assert (Hc1 : Forall (fun e => is_chain_call e = false) tconv).
  { eapply Forall_class; [|exact Hconv]. by intros []. }
  destruct Hcases as [(-> & Hsame)|Hcases].
  { rewrite app_nil_r. split; [done|]. by split. }
  destruct Hcases as (ssout & tick & rnd & tip & Htip & _ & Hcases).
  assert (Hi0 : dispatched tip = []).
  { eapply dispatched_class; [|exact Htip]. by intros []. }
  assert (Hi1 : Forall (fun e => is_chain_call e = false) tip).
  { eapply Forall_class; [|exact Htip]. by intros []. }
  destruct Hcases as [(-> & _ & _ & Hsame)|(ip & _ & Hcases)].
  { split; [done|]. split.
    - apply Forall_app. split; [done|]. by repeat (apply Forall_cons; split; [done|]).
    - trace_dispatched. by rewrite Hc0, Hi0. }
  destruct Hcases as [(-> & _ & Hsame)|Hcases].
  { split; [done|]. split.
    - apply Forall_app. split; [done|].
      do 2 (apply Forall_cons; split; [done|]).
      apply Forall_app. split; [done|].
      by repeat (apply Forall_cons; split; [done|]).
    - trace_dispatched. by rewrite Hc0, Hi0. }
  exfalso.
  destruct Hcases as [(-> & _)|(out & tA & _ & [(-> & _)|(tcl & -> & _)])].
  - eapply Hno. apply elem_of_app. right. do 2 (apply elem_of_cons; right).
    apply elem_of_app. right. apply elem_of_cons. right.
    apply elem_of_cons. by left.
  - eapply Hno. apply elem_of_app. right. do 2 (apply elem_of_cons; right).
    apply elem_of_app. right. apply elem_of_cons. right.
    apply elem_of_cons. by left.
  - eapply Hno. apply elem_of_app. right. do 2 (apply elem_of_cons; right).
    apply elem_of_app. right. apply elem_of_cons. right.
    apply elem_of_cons. by left.
Qed.

(** X6: reconciliation never deletes the chain it found: the one chain it
    may delete is the chain it created in the same run, after that chain
    refused every stream; the run then fails with VLC_EGENERIC, leaves the
    session without chain and bound streams, sends nothing to the
    renderer, and no run ever removes a stream id from a chain. *)
Theorem UpdateOutput_deletes_only_its_own_chain h m :
  Forall (fun e => is_id_del e = false) (UpdateOutput w h m).2 /\
  forall o,
    E_sout_StreamChainDelete o ∈ (UpdateOutput w h m).2 ->
    exists d out,
      o = Some out /\
      E_sout_StreamChainNew d (Some out) ∈ (UpdateOutput w h m).2 /\
      (UpdateOutput w h m).1.1 = VLC_EGENERIC w /\
      p_out (sys (UpdateOutput w h m).1.2) = None /\
      out_streams (sys (UpdateOutput w h m).1.2) = [] /\
      dispatched (UpdateOutput w h m).2 = [].
Proof.
  destruct (UpdateOutput w h m) as [[r m'] tr] eqn:H. simpl.
  apply UpdateOutput_exits in H
    as (tconv & tserve & -> & Hconv & _ & Hcases).
  assert (Hc0 : dispatched tconv = []).
  { eapply dispatched_class; [|exact Hconv]. by intros []. }
  assert (Hc1 : Forall (fun e => is_id_del e = false) tconv).
  { eapply Forall_class; [|exact Hconv]. by intros []. }
  destruct Hcases as [(-> & Hsame)|Hcases].
  { rewrite app_nil_r. split; [done|]. intros o Hin.
    by apply (elem_of_class _ _ _ Hconv) in Hin. }
  destruct Hcases as (ssout & tick & rnd & tip & Htip & _ & Hcases).
  assert (Hi0 : dispatched tip = []).
  { eapply dispatched_class; [|exact Htip]. by intros []. }
  assert (Hi1 : Forall (fun e => is_id_del e = false) tip).
  { eapply Forall_class; [|exact Htip]. by intros []. }
  destruct Hcases as [(-> & _)|(ip & _ & Hcases)].
  { split.
    - apply Forall_app. split; [done|].
      by repeat (apply Forall_cons; split; [done|]).
    - intros o Hin. apply elem_of_app in Hin as [Hin|Hin].
      { by apply (elem_of_class _ _ _ Hconv) in Hin. }
      do 2 (apply elem_of_cons in Hin as [Hin|Hin]; [done|]).
      by apply (elem_of_class _ _ _ Htip) in Hin. }
  destruct Hcases as [(-> & _)|[(-> & _)|Hcases]].
  { split.
    - apply Forall_app. split; [done|].
      do 2 (apply Forall_cons; split; [done|]).
      apply Forall_app. split; [done|].
      by repeat (apply Forall_cons; split; [done|]).
    - intros o Hin. apply elem_of_app in Hin as [Hin|Hin].
      { by apply (elem_of_class _ _ _ Hconv) in Hin. }
      do 2 (apply elem_of_cons in Hin as [Hin|Hin]; [done|]).
      apply elem_of_app in Hin as [Hin|Hin].
      { by apply (elem_of_class _ _ _ Htip) in Hin. }
      trace_elem Hin. }
  { split.
    - apply Forall_app. split; [done|].
      do 2 (apply Forall_cons; split; [done|]).
      apply Forall_app. split; [done|].
      by repeat (apply Forall_cons; split; [done|]).
    - intros o Hin. apply elem_of_app in Hin as [Hin|Hin].
      { by apply (elem_of_class _ _ _ Hconv) in Hin. }
      do 2 (apply elem_of_cons in Hin as [Hin|Hin]; [done|]).
      apply elem_of_app in Hin as [Hin|Hin].
      { by apply (elem_of_class _ _ _ Htip) in Hin. }
      trace_elem Hin. }
  destruct Hcases as (out & tA & HtA & Hcases).
  assert (Ha0 : dispatched tA = []).
  { eapply dispatched_class; [|exact HtA]. by intros []. }
  assert (Ha1 : Forall (fun e => is_id_del e = false) tA).
  { eapply Forall_class; [|exact HtA]. by intros []. }
  destruct Hcases as [(-> & -> & Ho & Hp)|(tcl & -> & Hcl & _)].
  - split.
    { apply Forall_app. split; [done|].
      do 2 (apply Forall_cons; split; [done|]).
      apply Forall_app. split; [done|].
      do 2 (apply Forall_cons; split; [done|]).
      apply Forall_app. split; [done|].
      by repeat (apply Forall_cons; split; [done|]). }
    intros o Hin.
    exists (chain_description ssout (http_port (sys m)) tick rnd), out.
    split.
    { apply elem_of_app in Hin as [Hin|Hin].
      { by apply (elem_of_class _ _ _ Hconv) in Hin. }
      do 2 (apply elem_of_cons in Hin as [Hin|Hin]; [done|]).
      apply elem_of_app in Hin as [Hin|Hin].
      { by apply (elem_of_class _ _ _ Htip) in Hin. }
      do 2 (apply elem_of_cons in Hin as [Hin|Hin]; [done|]).
      apply elem_of_app in Hin as [Hin|Hin].
      { by apply (elem_of_class _ _ _ HtA) in Hin. }
      apply elem_of_cons in Hin as [Hin|Hin]; [congruence|].
      trace_elem Hin. }
    split.
    { apply elem_of_app. right. do 2 (apply elem_of_cons; right).
      apply elem_of_app. right. apply elem_of_cons. right.
      apply elem_of_cons. by left. }
    repeat (split; [done|]).
    trace_dispatched. by rewrite Hc0, Hi0, Ha0.
  - assert (Hcl1 : Forall (fun e => is_id_del e = false) tcl).
    { eapply Forall_class; [|exact Hcl]. by intros []. }
    split.
    { apply Forall_app. split; [done|].
      do 2 (apply Forall_cons; split; [done|]).
      apply Forall_app. split; [done|].
      do 2 (apply Forall_cons; split; [done|]).
      apply Forall_app. split; [done|].
      apply Forall_app. split; [done|].
      by repeat (apply Forall_cons; split; [done|]). }
    intros o Hin. exfalso.
    apply elem_of_app in Hin as [Hin|Hin].
    { by apply (elem_of_class _ _ _ Hconv) in Hin. }
    do 2 (apply elem_of_cons in Hin as [Hin|Hin]; [done|]).
    apply elem_of_app in Hin as [Hin|Hin].
    { by apply (elem_of_class _ _ _ Htip) in Hin. }
    do 2 (apply elem_of_cons in Hin as [Hin|Hin]; [done|]).
    apply elem_of_app in Hin as [Hin|Hin].
    { by apply (elem_of_class _ _ _ HtA) in Hin. }
    apply elem_of_app in Hin as [Hin|Hin].
    { by apply (elem_of_class _ _ _ Hcl) in Hin. }
    trace_elem Hin.
Qed.

End ReconciliationFailures.

Lemma UpdateOutput_without_chain_creation_witness :
  same_chain session_casting_dirty
    (UpdateOutput world_no_ip [] session_casting_dirty).1.2 /\
  Forall (fun e => is_chain_call e = false)
    (UpdateOutput world_no_ip [] session_casting_dirty).2 /\
  dispatched (UpdateOutput world_no_ip [] session_casting_dirty).2 = [].
Proof.
  apply (UpdateOutput_without_chain_creation world_no_ip [] session_casting_dirty).
  intros d res Hin.
  set (tr := (UpdateOutput world_no_ip [] session_casting_dirty).2) in Hin.
  vm_compute in tr. subst tr. trace_elem Hin.
Defined.

Lemma UpdateOutput_deletes_only_its_own_chain_witness :
  exists d out,
    Some 1%nat = Some out /\
    E_sout_StreamChainNew d (Some out)
    ∈ (UpdateOutput world_refusing [] session_one_track).2 /\
    (UpdateOutput world_refusing [] session_one_track).1.1
    = VLC_EGENERIC world_refusing /\
    p_out (sys (UpdateOutput world_refusing [] session_one_track).1.2) = None /\
    out_streams (sys (UpdateOutput world_refusing [] session_one_track).1.2) = [] /\
    dispatched (UpdateOutput world_refusing [] session_one_track).2 = [].
Proof.
  apply (UpdateOutput_deletes_only_its_own_chain world_refusing []
           session_one_track).
  set (tr := (UpdateOutput world_refusing [] session_one_track).2).
  vm_compute in tr. subst tr.
  do 7 (apply elem_of_cons; right). apply elem_of_cons. by left.
Defined.

(** ** The shape of a session is kept by the callbacks *)

Lemma stopSoutChain_ids_records out l h m u m' t :
  stopSoutChain_ids out l h m = (u, m', t) ->
  forall p, fmt <$> mem m' !! p = fmt <$> mem m !! p.
Proof.
  revert h m u m' t. induction l as [|x l IH]; intros h m u m' t H p.
  - simpl in H. unfold ret in H. by injection H as <- <- <-.
  - simpl in H. step_call H. step_call H. step_call H. cbn [app] in H.
    apply IH with (p := p) in H. rewrite H. simpl.
    destruct (decide (p = x)) as [->|Hne].
    + rewrite lookup_alter_eq. by destruct (mem m !! x).
    + by rewrite lookup_alter_ne.
Qed.

Lemma fmt_is_Some (o o' : option sout_stream_id_sys_t) :
  fmt <$> o' = fmt <$> o -> is_Some o' <-> is_Some o.
Proof.
  intros H. rewrite <- (fmap_is_Some fmt o'), <- (fmap_is_Some fmt o).
  by rewrite H.
Qed.

(** X8: on a bound set without repetition, [stopSoutChain] removes every
    bound stream from the chain once, in the order of the bound set and
    with the stream id the track held, then deletes the chain once; the
    session is left without chain and bound streams, every bound track
    has lost its stream id, every record keeps its format, and the
    records of the other tracks are untouched. *)
Theorem stopSoutChain_exact h m :
  NoDup (out_streams (sys m)) ->
  exists mm,
    stopSoutChain h m
    = (tt, {| sys := with_p_out None (with_out_streams [] (sys m)); mem := mm |},
       ((fun p => E_sout_StreamIdDel (p_out (sys m)) (mem m !! p ≫= p_sub_id))
          <$> out_streams (sys m))
       ++ [E_sout_StreamChainDelete (p_out (sys m))]) /\
    (forall p, fmt <$> mm !! p = fmt <$> mem m !! p) /\
    (forall p, p ∈ out_streams (sys m) -> mm !! p ≫= p_sub_id = None) /\
    (forall p, p ∉ out_streams (sys m) -> mm !! p = mem m !! p).
Proof.
  intros Hnd.
  destruct (stopSoutChain_run h m) as (mm & t & Hrun & _ & Hcleared & Hother).
  exists mm. split; [|split; [|by split]].
  - rewrite Hrun. do 2 f_equal.
    unfold stopSoutChain, bind, get_sys, set_sys, emit in Hrun. simpl in Hrun.
    destruct (stopSoutChain_ids (p_out (sys m)) (out_streams (sys m)) _ m)
      as [[u m1] t1] eqn:Hids.
    apply stopSoutChain_ids_trace in Hids as [Ht _]; [|done].
    apply (f_equal snd) in Hrun. simpl in Hrun. rewrite Ht in Hrun.
    by apply app_inv_tail in Hrun.
  - intros p.
    unfold stopSoutChain, bind, get_sys, set_sys, emit in Hrun. simpl in Hrun.
    destruct (stopSoutChain_ids (p_out (sys m)) (out_streams (sys m)) _ m)
      as [[u m1] t1] eqn:Hids.
    apply stopSoutChain_ids_records with (p := p) in Hids.
    apply (f_equal (fun x => mem x.1.2)) in Hrun. simpl in Hrun.
    by rewrite <- Hrun.
Qed.

Lemma erase_first_sublist id l : erase_first id l `sublist_of` l.
Proof.
  induction l as [|x l IH]; [done|]. simpl.
  destruct (bool_decide (x = id)); [by apply sublist_cons_r; left|].
  by apply sublist_skip.
Qed.

Lemma erase_first_NoDup id l :
  NoDup l -> forall p, p ∈ erase_first id l <-> p ∈ l /\ p <> id.
Proof.
  induction 1 as [|x l Hx Hnd IH]; intros p; simpl.
  { split; [by intros ?%elem_of_nil|by intros [?%elem_of_nil _]]. }
  destruct (bool_decide_reflect (x = id)) as [->|Hne].
  - rewrite elem_of_cons. split.
    + intros Hp. split; [by right|]. by intros ->.
    + by intros [[->|Hp] Hne].
  - rewrite !elem_of_cons, IH. split.
    + intros [->|[Hp Hpid]]; [by split; [left|]|by split; [right|]].
    + intros [[->|Hp] Hpid]; [by left|by right].
Qed.

Lemma erase_first_not_elem id l : id ∉ l -> erase_first id l = l.
Proof.
  induction l as [|x l IH]; [done|]. intros Hid. simpl.
  rewrite bool_decide_eq_false_2.
  - f_equal. apply IH. intros Hin. apply Hid. apply elem_of_cons. by right.
  - intros ->. apply Hid. apply elem_of_cons. by left.
Qed.

Section Invariant.

Variable w : World.

(** What a reconciliation leaves behind: the registry and the set of
    records are the same; the chain and the bound set are the same, or the
    bound set is drawn from the registry, has a chain to go with any
    stream in it, and every stream in it holds an id. *)
Lemma UpdateOutput_state h m r m' tr :
  UpdateOutput w h m = (r, m', tr) ->
  streams (sys m') = streams (sys m) /\
  (forall p, is_Some (mem m' !! p) <-> is_Some (mem m !! p)) /\
  (same_chain m m' \/
   (out_streams (sys m') `sublist_of` streams (sys m) /\
    (out_streams (sys m') <> [] -> is_Some (p_out (sys m'))) /\
    (NoDup (streams (sys m)) ->
     forall p, p ∈ out_streams (sys m') ->
       is_Some (mem m' !! p ≫= p_sub_id)))).
Proof.
  intros H. pose proof (UpdateOutput_run w _ _ _ _ _ H) as (_ & Hstreams & _).
  split; [done|].
  apply UpdateOutput_phases in H. destruct H as [(_ & Hmem & Hp & Ho & _)|H].
  { split; [by intros p; rewrite Hmem|]. by left. }
  destruct H as (ssout & m1 & t1 & h2 & t2 & Hmem & Hp & Ho & _ & _ & Hserve & ->).
  apply UpdateOutput_serve_shape in Hserve as (tick & rnd & tip & _ & Hcases).
  destruct Hcases as [(_ & -> & _)|[(ip & _ & -> & _)|Hchain]].
  1,2: split; [by intros p; rewrite Hmem|]; by left.
  destruct Hchain as (ip & hc & ok & tc & _ & Hstart & _).
  apply startSoutChain_state
    in Hstart as (_ & Hdom & _ & res & t' & _ & _ & _ & Hres).
  split. { intros p. by rewrite Hdom, Hmem. }
  right. destruct res as [out|].
  - destruct Hres as (kept & tA & _ & Hsub & Hids & _ & Hkept).
    rewrite classify_new_streams in Hsub, Hids.
    assert (Hnd : NoDup (streams (sys m)) ->
                  NoDup (filter (fun p => eligible (b_supports_video (sys m))
                                            (mem m) p) (streams (sys m)))).
    { apply NoDup_filter. }
    destruct kept as [|k kept].
    + destruct Hkept as (_ & _ & -> & ->). split; [apply sublist_nil_l|].
      split; [done|]. by intros _ p ?%elem_of_nil.
    + destruct Hkept as (_ & _ & -> & ->). split.
      { etrans; [exact Hsub|]. apply sublist_filter. }
      split; [by eexists|]. intros Hn. apply Hids. by apply Hnd.
  - destruct Hres as (_ & _ & _ & -> & ->). split; [apply sublist_nil_l|].
    split; [done|]. by intros _ p ?%elem_of_nil.
Qed.

Lemma UpdateOutput_session_inv h m :
  session_inv m -> session_inv (UpdateOutput w h m).1.2.
Proof.
  intros (Hnd & Hrec & Hndo & Hbound & Hchain).
  destruct (UpdateOutput w h m) as [[r m'] tr] eqn:H. simpl.
  apply UpdateOutput_state in H as (Hs & Hdom & Hcases).
  unfold session_inv. rewrite Hs.
  split; [done|]. split. { intros p Hp. apply Hdom. by apply Hrec. }
  destruct Hcases as [(Hmem & Hp & Ho)|(Hsub & Hc & Hids)].
  - rewrite Ho, Hp, Hmem. done.
  - split; [exact (sublist_NoDup _ _ Hnd Hsub)|]. split; [|done].
    intros p Hp. split; [by eapply elem_of_sublist|]. by apply Hids.
Qed.

Lemma Add_session_inv p_fmt h m :
  session_inv m -> session_inv (Add w p_fmt h m).1.2.
Proof.
  intros (Hnd & Hrec & Hndo & Hbound & Hchain).
  unfold Add, bind, get_sys, get_mem, call, set_mem, set_sys, ret. simpl.
  destruct (negb (b_supports_video (sys m)) &&
            negb (bool_decide (i_cat p_fmt = AUDIO_ES))); [done|].
  simpl. destruct (malloc_id w _); [|done]. simpl.
  assert (Hfresh : fresh (dom (mem m)) ∉ streams (sys m)).
  { intros Hin. apply Hrec in Hin. apply elem_of_dom in Hin.
    by apply is_fresh in Hin. }
  unfold session_inv. simpl. split.
  { apply NoDup_app. split; [done|]. split; [|apply NoDup_singleton].
    intros x Hx ->%list_elem_of_singleton. done. }
  split.
  { intros p [Hp| ->%list_elem_of_singleton]%elem_of_app.
    - rewrite lookup_insert_ne; [by apply Hrec|]. by intros <-.
    - by rewrite lookup_insert_eq. }
  split; [done|]. split; [|done].
  intros p Hp. destruct (Hbound p Hp) as [Hreg Hid].
  split; [apply elem_of_app; by left|].
  rewrite lookup_insert_ne; [done|]. by intros <-.
Qed.


Lemma Send_state id p_buffer h m :
  (Send w id p_buffer h m).1.2 = (UpdateOutput w h m).1.2.
Proof.
  unfold Send, GetSubId, bind. simpl.
  destruct (UpdateOutput w h m) as [[r m'] tr]. simpl.
  destruct (negb (r =? VLC_SUCCESS w)); simpl; [done|].
  by destruct (GetSubId_find _ _ _).
Qed.

Lemma stopSoutChain_session_inv h m :
  session_inv m -> session_inv (stopSoutChain h m).1.2.
Proof.
  intros (Hnd & Hrec & _).
  unfold stopSoutChain, bind, get_sys, set_sys, emit. simpl.
  destruct (stopSoutChain_ids (p_out (sys m)) (out_streams (sys m)) _ m)
    as [[u m1] t1] eqn:Hids. simpl.
  pose proof (stopSoutChain_ids_records _ _ _ _ _ _ _ Hids) as Hfmt.
  destruct (stopSoutChain_ids_run (p_out (sys m)) (out_streams (sys m))
              (h ++ []) m) as (mm & t & Hrun & _).
  rewrite Hrun in Hids. injection Hids as <- <-.
  unfold session_inv. simpl. split; [done|]. split.
  { intros p Hp. apply (fmt_is_Some _ _ (Hfmt p)). by apply Hrec. }
  split; [apply NoDup_nil_2|]. split; [by intros p ?%elem_of_nil|done].
Qed.

Lemma Flush_state id h m :
  (Flush w id h m).1.2 = m \/
  exists h',
    (Flush w id h m).1.2
    = {| sys := with_es_changed true (sys (stopSoutChain h' m).1.2);
         mem := mem (stopSoutChain h' m).1.2 |}.
Proof.
  unfold Flush, bind. rewrite GetSubId_no_update.
  destruct (GetSubId_find _ _ _) as [s|]; [|by left]. right.
  unfold get_sys, emit, set_sys. simpl.
  exists (((h ++ []) ++ []) ++ [E_sout_StreamFlush (p_out (sys m)) s]).
  by destruct (stopSoutChain _ m) as [[u m1] t1].
Qed.

Lemma Flush_session_inv id h m :
  session_inv m -> session_inv (Flush w id h m).1.2.
Proof.
  intros Hinv. destruct (Flush_state id h m) as [->|(h' & ->)]; [done|].
  by apply (stopSoutChain_session_inv h') in Hinv.
Qed.

Lemma Send_session_inv id p_buffer h m :
  session_inv m -> session_inv (Send w id p_buffer h m).1.2.
Proof. rewrite Send_state. apply UpdateOutput_session_inv. Qed.

Lemma Del_streams_session_inv id h m :
  session_inv m -> session_inv (Del_streams id h m).1.2.
Proof.
  intros (Hnd & Hrec & Hndo & Hbound & Hchain).
  unfold Del_streams, bind, get_sys, get_mem. simpl.
  destruct (bool_decide_reflect (id ∈ streams (sys m))) as [Hin|Hnin];
    [|exact (conj Hnd (conj Hrec (conj Hndo (conj Hbound Hchain))))].
  assert (Hout : forall p, p ∈ erase_first id (out_streams (sys m)) ->
            p ∈ erase_first id (streams (sys m)) /\
            is_Some (delete id (mem m) !! p ≫= p_sub_id)).
  { intros p Hp. apply erase_first_NoDup in Hp as [Hp Hne]; [|done].
    destruct (Hbound p Hp) as [Hreg Hid]. split.
    - by apply erase_first_NoDup.
    - by rewrite lookup_delete_ne. }
  assert (Hreg : forall p, p ∈ erase_first id (streams (sys m)) ->
            is_Some (delete id (mem m) !! p)).
  { intros p Hp. apply erase_first_NoDup in Hp as [Hp Hne]; [|done].
    rewrite lookup_delete_ne by done. by apply Hrec. }
  destruct (mem m !! id ≫= p_sub_id) as [sub|] eqn:Hid;
    unfold emit, set_sys, set_mem, ret; simpl; unfold session_inv; simpl.
  - split; [exact (sublist_NoDup _ _ Hnd (erase_first_sublist _ _))|].
    split; [done|].
    split; [exact (sublist_NoDup _ _ Hndo (erase_first_sublist _ _))|].
    split; [done|].
    intros Hne. apply Hchain. intros Hnil. apply Hne. by rewrite Hnil.
  - assert (Hunbound : id ∉ out_streams (sys m)).
    { intros Hb. destruct (Hbound id Hb) as [_ [x Hx]]. congruence. }
    rewrite <- (erase_first_not_elem id (out_streams (sys m))) by done.
    split; [exact (sublist_NoDup _ _ Hnd (erase_first_sublist _ _))|].
    split; [done|].
    split; [exact (sublist_NoDup _ _ Hndo (erase_first_sublist _ _))|].
    split; [done|].
    rewrite erase_first_not_elem by done. done.
Qed.

Lemma Del_session_inv id h m :
  session_inv m -> session_inv (Del w id h m).1.2.
Proof.
  intros Hinv. apply (Del_streams_session_inv id h) in Hinv.
  destruct (Del_run w id h m) as (m1 & t1 & Hstreams & Hdel).
  rewrite Hstreams in Hinv. simpl in Hinv.
  destruct (out_streams (sys m1)) eqn:Ho.
  - destruct Hdel as (t2 & code & -> & _). simpl.
    destruct Hinv as (Hnd & Hrec & Hndo & Hbound & Hchain).
    unfold session_inv. simpl. rewrite Ho.
    split; [done|]. split; [done|]. split; [apply NoDup_nil_2|].
    split; [by intros p ?%elem_of_nil|done].
  - by rewrite Hdel.
Qed.

(** X7: every session that a run of stream callbacks leads to, from a
    well-formed one, is well formed, whatever the arguments of the calls
    and the answers of the collaborators: no address is registered or
    bound twice, every registered address has its record, a bound track
    is registered and holds a stream id, and a chain exists whenever a
    track is bound. *)
Theorem callbacks_keep_session_inv m m' :
  session_inv m -> rtc (callback w) m m' -> session_inv m'.
Proof.
  intros Hinv Hrun. induction Hrun as [|m m1 m' Hstep _ IH]; [done|].
  apply IH. destruct Hstep.
  - by apply Add_session_inv.
  - by apply Send_session_inv.
  - by apply Flush_session_inv.
  - by apply Del_session_inv.
Qed.

End Invariant.

Lemma fresh_session_inv r port supports_video :
  session_inv {| sys := sout_stream_sys_new r port supports_video; mem := ∅ |}.
Proof.
  unfold session_inv. simpl. split; [apply NoDup_nil_2|].
  split; [by intros p ?%elem_of_nil|]. split; [apply NoDup_nil_2|].
  split; [by intros p ?%elem_of_nil|done].
Qed.

(** ** Data delivery: [Send] *)

Section Delivery.

Variable w : World.

Lemma UpdateOutput_calls h m :
  Forall (fun e => is_conversion_call e || is_serve_call e = true)
    (UpdateOutput w h m).2.
Proof.
  destruct (UpdateOutput w h m) as [[r m'] tr] eqn:H. simpl.
  apply UpdateOutput_phases in H. destruct H as [(Hconv & _)|H].
  { eapply Forall_impl; [exact Hconv|]. by intros e ->. }
  destruct H as (ssout & m1 & t1 & h2 & t2 & _ & _ & _ & Hconv & _ & Hserve & ->).
  apply UpdateOutput_serve_calls in Hserve. apply Forall_app. split.
  - eapply Forall_impl; [exact Hconv|]. by intros e ->.
  - eapply Forall_impl; [exact Hserve|]. intros e ->. apply orb_true_r.
Qed.

Lemma UpdateOutput_no_buffer_event p_buffer h m :
  omap (buffer_fate p_buffer) (UpdateOutput w h m).2 = [].
Proof.
  pose proof (UpdateOutput_calls h m) as H.
  induction H as [|e t He _ IH]; [done|].
  change (omap (buffer_fate p_buffer) (e :: t))
    with (match buffer_fate p_buffer e with
          | Some x => x :: omap (buffer_fate p_buffer) t
          | None => omap (buffer_fate p_buffer) t
          end).
  rewrite IH. by destruct e.
Qed.

(** [Send] is a reconciliation followed by one call that takes the
    buffer. *)
Lemma Send_run id p_buffer h m :
  Send w id p_buffer h m
  = match (if (UpdateOutput w h m).1.1 =? VLC_SUCCESS w
           then GetSubId_find (mem (UpdateOutput w h m).1.2) id
                  (out_streams (sys (UpdateOutput w h m).1.2))
           else None) with
    | None =>
        (VLC_EGENERIC w, (UpdateOutput w h m).1.2,
         (UpdateOutput w h m).2 ++ [E_block_Release p_buffer])
    | Some sub =>
        (sout_StreamIdSend w (h ++ (UpdateOutput w h m).2)
           (p_out (sys (UpdateOutput w h m).1.2)) sub p_buffer,
         (UpdateOutput w h m).1.2,
         (UpdateOutput w h m).2
         ++ [E_sout_StreamIdSend (p_out (sys (UpdateOutput w h m).1.2)) sub
               p_buffer
               (sout_StreamIdSend w (h ++ (UpdateOutput w h m).2)
                  (p_out (sys (UpdateOutput w h m).1.2)) sub p_buffer)])
    end.
Proof.
  unfold Send, GetSubId, bind. simpl.
  destruct (UpdateOutput w h m) as [[r m'] tr]. simpl.
  destruct (r =? VLC_SUCCESS w); simpl.
  - unfold get_sys, get_mem, ret, call, emit. simpl.
    destruct (GetSubId_find _ _ _); simpl; by rewrite ?app_nil_r.
  - unfold ret, emit. simpl. by rewrite ?app_nil_r.
Qed.

(** X9: [Send] takes the buffer exactly once on every path: it releases
    it and reports VLC_EGENERIC, or hands it to the chain and reports what
    the chain reports; it never does both, and never neither. *)
Theorem Send_takes_buffer_once id p_buffer h m :
  (omap (buffer_fate p_buffer) (Send w id p_buffer h m).2 = [None] /\
   (Send w id p_buffer h m).1.1 = VLC_EGENERIC w) \/
  omap (buffer_fate p_buffer) (Send w id p_buffer h m).2
  = [Some (Send w id p_buffer h m).1.1].
Proof.
  rewrite Send_run.
  destruct (if (UpdateOutput w h m).1.1 =? VLC_SUCCESS w then _ else _);
    simpl; rewrite omap_app, UpdateOutput_no_buffer_event; simpl;
    rewrite decide_True by done; [by right|by left].
Qed.

(** X10: in a well-formed session [Send] hands a buffer only to a chain
    that exists, for a track that is bound after the reconciliation, with
    the stream id this track holds, and only after a reconciliation that
    reported success. *)
Theorem Send_forwards_to_live_chain id p_buffer h m o sub b r :
  session_inv m ->
  E_sout_StreamIdSend o sub b r ∈ (Send w id p_buffer h m).2 ->
  b = p_buffer /\ is_Some o /\
  o = p_out (sys (Send w id p_buffer h m).1.2) /\
  id ∈ out_streams (sys (Send w id p_buffer h m).1.2) /\
  mem (Send w id p_buffer h m).1.2 !! id ≫= p_sub_id = Some sub /\
  (UpdateOutput w h m).1.1 = VLC_SUCCESS w /\
  (Send w id p_buffer h m).1.1 = r.
Proof.
  intros Hinv Hin.
  apply (UpdateOutput_session_inv w h) in Hinv.
  pose proof (UpdateOutput_calls h m) as Hcalls.
  rewrite Send_run in Hin |- *.
  destruct ((UpdateOutput w h m).1.1 =? VLC_SUCCESS w) eqn:Hr.
  2: { simpl in Hin. apply elem_of_app in Hin as [Hin|Hin].
       - by apply (elem_of_class _ _ _ Hcalls) in Hin.
       - trace_elem Hin. }
  destruct (GetSubId_find _ _ _) as [s|] eqn:Hfind; simpl in Hin |- *.
  2: { apply elem_of_app in Hin as [Hin|Hin].
       - by apply (elem_of_class _ _ _ Hcalls) in Hin.
       - trace_elem Hin. }
  apply elem_of_app in Hin as [Hin|Hin].
  { by apply (elem_of_class _ _ _ Hcalls) in Hin. }
  apply list_elem_of_singleton in Hin. injection Hin as -> -> -> ->.
  apply GetSubId_find_Some in Hfind as [Hbound Hid].
  destruct Hinv as (_ & _ & _ & _ & Hchain).
  split; [done|]. split.
  { apply Hchain. intros Hnil. rewrite Hnil in Hbound.
    by apply elem_of_nil in Hbound. }
  repeat (split; [done|]). split; [|done]. by apply Z.eqb_eq.
Qed.

End Delivery.

Lemma Send_forwards_to_live_chain_witness :
  5%nat = 5%nat /\ is_Some (Some 1%nat) /\
  Some 1%nat = p_out (sys (Send world_ok 0%nat 5%nat [] session_one_track).1.2) /\
  0%nat ∈ out_streams (sys (Send world_ok 0%nat 5%nat [] session_one_track).1.2) /\
  mem (Send world_ok 0%nat 5%nat [] session_one_track).1.2 !! 0%nat ≫= p_sub_id
  = Some 5%nat /\
  (UpdateOutput world_ok [] session_one_track).1.1 = VLC_SUCCESS world_ok /\
  (Send world_ok 0%nat 5%nat [] session_one_track).1.1 = 0.
Proof.
  apply (Send_forwards_to_live_chain world_ok 0%nat 5%nat [] session_one_track).
  - apply Add_session_inv. apply fresh_session_inv.
  - set (tr := (Send world_ok 0%nat 5%nat [] session_one_track).2).
    vm_compute in tr. subst tr.
    repeat first [apply list_elem_of_here | apply list_elem_of_further].
Defined.

(** ** Removal and registration: [Del], [Flush], [Add] *)

Lemma Del_streams_unbound id h m :
  id ∈ streams (sys m) ->
  mem m !! id ≫= p_sub_id = None ->
  Del_streams id h m
  = (tt,
     {| sys := with_streams (erase_first id (streams (sys m))) (sys m);
        mem := delete id (mem m) |},
     [E_es_format_Clean id; E_free_id id]).
Proof.
  intros Hin Hsub. unfold Del_streams, bind, get_sys. cbn [app].
  rewrite bool_decide_true by done.
  unfold bind, get_mem, emit, set_sys, set_mem, ret. simpl.
  rewrite Hsub. by destruct m as [[] ?].
Qed.

Lemma Del_streams_unregistered id h m :
  id ∉ streams (sys m) -> Del_streams id h m = (tt, m, []).
Proof.
  intros Hin. unfold Del_streams, bind, get_sys. cbn [app].
  rewrite bool_decide_false by done. unfold ret. by destruct m.
Qed.

Section Removal.

Variable w : World.

(** [Del] while another track stays bound. *)
Lemma Del_casting_run id other h m :
  session_inv m ->
  other ∈ out_streams (sys m) -> other <> id ->
  exists m',
    Del w id h m
    = (tt, m',
       match (if bool_decide (id ∈ streams (sys m))
              then mem m !! id ≫= p_sub_id else None) with
       | Some sub => [E_sout_StreamIdDel (p_out (sys m)) (Some sub)]
       | None => []
       end
       ++ (if bool_decide (id ∈ streams (sys m))
           then [E_es_format_Clean id; E_free_id id] else [])) /\
    p_out (sys m') = p_out (sys m) /\
    es_changed (sys m') = es_changed (sys m) /\
    (forall p, p ∈ out_streams (sys m') <-> p ∈ out_streams (sys m) /\ p <> id) /\
    (forall p, p <> id -> mem m' !! p = mem m !! p).
Proof.
  intros (Hnd & Hrec & Hndo & Hbound & Hchain) Hother Hne.
  destruct (Del_run w id h m) as (m1 & t1 & Hstreams & Hdel).
  exists m1.
  assert (Hkeep : forall l, other ∈ l -> erase_first id l <> []).
  { intros l Hl Hnil. induction l as [|x l IH]; [by apply elem_of_nil in Hl|].
    simpl in Hnil. destruct (bool_decide_reflect (x = id)) as [->|Hx].
    - subst l. apply elem_of_cons in Hl as [?|Hl]; [done|].
      by apply elem_of_nil in Hl.
    - done. }
  destruct (bool_decide_reflect (id ∈ streams (sys m))) as [Hin|Hnin].
  - destruct (mem m !! id ≫= p_sub_id) as [sub|] eqn:Hid.
    + rewrite (Del_streams_bound id sub) in Hstreams by done.
      injection Hstreams as <- <-. simpl in Hdel.
      destruct (erase_first id (out_streams (sys m))) as [|x0 l0] eqn:Ho.
      { exfalso. by apply (Hkeep _ Hother). }
      rewrite <- Ho in *. split; [done|]. simpl. split; [done|]. split; [done|].
      split; [by apply erase_first_NoDup|].
      intros p Hp. by rewrite lookup_delete_ne.
    + rewrite Del_streams_unbound in Hstreams by done.
      injection Hstreams as <- <-. simpl in Hdel.
      destruct (out_streams (sys m)) as [|x0 l0] eqn:Ho.
      { by apply elem_of_nil in Hother. }
      rewrite <- Ho in *. split; [done|]. simpl. split; [done|]. split; [done|].
      split.
      * intros p. split; [|by intros []]. intros Hp. split; [done|].
        intros ->. destruct (Hbound id Hp) as [_ [x Hx]]. congruence.
      * intros p Hp. by rewrite lookup_delete_ne.
  - rewrite Del_streams_unregistered in Hstreams by done.
    injection Hstreams as <- <-.
    destruct (out_streams (sys m)) as [|x0 l0] eqn:Ho.
    { by apply elem_of_nil in Hother. }
    rewrite <- Ho in *. split; [done|]. split; [done|]. split; [done|].
    split; [|done].
    intros p. split; [|by intros []]. intros Hp. split; [done|].
    intros ->. by destruct (Hbound id Hp) as [? _].
Qed.

(** X11: while another track stays bound, [Del] takes its track out and
    leaves the rest of the pipeline as it is: it removes the stream id of
    the track from the chain if the track holds one, releases the record
    if the track is registered, and makes no other call; it does not
    delete the chain, sends nothing to the renderer, and does not mark the
    session dirty; the other bound tracks stay bound and their records are
    untouched. *)
Theorem Del_while_casting id other h m :
  session_inv m ->
  other ∈ out_streams (sys m) -> other <> id ->
  (Del w id h m).2
  = match (if bool_decide (id ∈ streams (sys m))
           then mem m !! id ≫= p_sub_id else None) with
    | Some sub => [E_sout_StreamIdDel (p_out (sys m)) (Some sub)]
    | None => []
    end
    ++ (if bool_decide (id ∈ streams (sys m))
        then [E_es_format_Clean id; E_free_id id] else []) /\
  p_out (sys (Del w id h m).1.2) = p_out (sys m) /\
  es_changed (sys (Del w id h m).1.2) = es_changed (sys m) /\
  (forall p, p ∈ out_streams (sys (Del w id h m).1.2)
             <-> p ∈ out_streams (sys m) /\ p <> id) /\
  (forall p, p <> id -> mem (Del w id h m).1.2 !! p = mem m !! p).
Proof.
  intros Hinv Hother Hne.
  destruct (Del_casting_run id other h m Hinv Hother Hne) as (m' & -> & H).
  by split.
Qed.

Lemma Send_clean id p_buffer h m :
  es_changed (sys m) = false ->
  Send w id p_buffer h m
  = match GetSubId_find (mem m) id (out_streams (sys m)) with
    | None => (VLC_EGENERIC w, m, [E_block_Release p_buffer])
    | Some sub =>
        (sout_StreamIdSend w h (p_out (sys m)) sub p_buffer, m,
         [E_sout_StreamIdSend (p_out (sys m)) sub p_buffer
            (sout_StreamIdSend w h (p_out (sys m)) sub p_buffer)])
    end.
Proof.
  intros Hclean. rewrite Send_run, UpdateOutput_clean by done. simpl.
  rewrite Z.eqb_refl, app_nil_r. by destruct (GetSubId_find _ _ _).
Qed.

(** X12: after [Del] has taken one track out of a clean session in which
    another track is bound, the data of the other track goes on to the
    same chain with the same stream id: the next [Send] for it makes this
    one call and no reconciliation, so the chain is not rebuilt and the
    renderer is not told. *)
Theorem Del_then_Send_keeps_casting id other sub p_buffer h h' m :
  session_inv m ->
  es_changed (sys m) = false ->
  other ∈ out_streams (sys m) -> other <> id ->
  mem m !! other ≫= p_sub_id = Some sub ->
  Send w other p_buffer h' (Del w id h m).1.2
  = (sout_StreamIdSend w h' (p_out (sys m)) sub p_buffer,
     (Del w id h m).1.2,
     [E_sout_StreamIdSend (p_out (sys m)) sub p_buffer
        (sout_StreamIdSend w h' (p_out (sys m)) sub p_buffer)]).
Proof.
  intros Hinv Hclean Hother Hne Hsub.
  destruct (Del_casting_run id other h m Hinv Hother Hne)
    as (m' & -> & Hp & He & Ho & Hmem).
  simpl. rewrite Send_clean by congruence.
  assert (Hfind : GetSubId_find (mem m') other (out_streams (sys m')) = Some sub).
  { apply GetSubId_find_Some. split; [by apply Ho|]. by rewrite Hmem. }
  by rewrite Hfind, Hp.
Qed.

(** X13: a second [Flush] of a track right after a first one does
    nothing: it makes no call and changes nothing, whether or not the
    first one tore the chain down. *)
Theorem Flush_twice id h h' m :
  Flush w id h' (Flush w id h m).1.2 = (tt, (Flush w id h m).1.2, []).
Proof.
  pose proof (Flush_run w id h m) as H.
  destruct (GetSubId_find (mem m) id (out_streams (sys m))) eqn:Hfind.
  - destruct H as (mm & t & -> & _). simpl.
    pose proof (Flush_run w id h'
                  {| sys := with_es_changed true
                              (with_p_out None (with_out_streams [] (sys m)));
                     mem := mm |}) as H2.
    by simpl in H2.
  - rewrite H. simpl. pose proof (Flush_run w id h' m) as H2.
    by rewrite Hfind in H2.
Qed.

End Removal.

(** ** The theorems on concrete sessions *)

Lemma session_one_track_inv : session_inv session_one_track.
Proof. apply Add_session_inv. apply fresh_session_inv. Qed.

Lemma session_casting_inv : session_inv session_casting.
Proof. apply UpdateOutput_session_inv. apply session_one_track_inv. Qed.

Lemma session_two_tracks_inv : session_inv session_two_tracks.
Proof.
  apply UpdateOutput_session_inv. apply Add_session_inv.
  apply session_one_track_inv.
Qed.

Lemma UpdateOutput_no_eligible_track_witness :
  UpdateOutput world_ok [] session_subtitle
  = (VLC_SUCCESS world_ok,
     {| sys := with_es_changed false (sys session_subtitle);
        mem := mem session_subtitle |}, []).
Proof.
  apply (UpdateOutput_no_eligible_track world_ok [] session_subtitle).
  intros p Hp.
  set (l := streams (sys session_subtitle)) in Hp. vm_compute in l. subst l.
  apply list_elem_of_singleton in Hp. subst p. reflexivity.
Defined.

Lemma stopSoutChain_exact_witness :
  exists mm,
    stopSoutChain [] session_two_tracks
    = (tt,
       {| sys := with_p_out None (with_out_streams [] (sys session_two_tracks));
          mem := mm |},
       ((fun p => E_sout_StreamIdDel (p_out (sys session_two_tracks))
                    (mem session_two_tracks !! p ≫= p_sub_id))
          <$> out_streams (sys session_two_tracks))
       ++ [E_sout_StreamChainDelete (p_out (sys session_two_tracks))]) /\
    (forall p, fmt <$> mm !! p = fmt <$> mem session_two_tracks !! p) /\
    (forall p, p ∈ out_streams (sys session_two_tracks) ->
       mm !! p ≫= p_sub_id = None) /\
    (forall p, p ∉ out_streams (sys session_two_tracks) ->
       mm !! p = mem session_two_tracks !! p).
Proof.
  apply (stopSoutChain_exact [] session_two_tracks).
  set (l := out_streams (sys session_two_tracks)). vm_compute in l. subst l.
  apply NoDup_cons. split.
  - intros Hin. apply list_elem_of_singleton in Hin. discriminate Hin.
  - apply NoDup_singleton.
Defined.

Lemma callbacks_keep_session_inv_witness :
  session_inv
    (Del world_ok 0%nat [] (Send world_ok 0%nat 5%nat [] session_one_track).1.2).1.2.
Proof.
  apply (callbacks_keep_session_inv world_ok session_new).
  - apply fresh_session_inv.
  - eapply rtc_l; [exact (callback_Add world_ok mp4a_track [] session_new)|].
    eapply rtc_l;
      [exact (callback_Send world_ok 0%nat 5%nat [] session_one_track)|].
    eapply rtc_l; [apply (callback_Del world_ok 0%nat [])|].
    apply rtc_refl.
Defined.

Lemma Del_while_casting_witness :
  (Del world_ok 0%nat [] session_two_tracks).2
  = match (if bool_decide (0%nat ∈ streams (sys session_two_tracks))
           then mem session_two_tracks !! 0%nat ≫= p_sub_id else None) with
    | Some sub => [E_sout_StreamIdDel (p_out (sys session_two_tracks)) (Some sub)]
    | None => []
    end
    ++ (if bool_decide (0%nat ∈ streams (sys session_two_tracks))
        then [E_es_format_Clean 0%nat; E_free_id 0%nat] else []) /\
  p_out (sys (Del world_ok 0%nat [] session_two_tracks).1.2)
  = p_out (sys session_two_tracks) /\
  es_changed (sys (Del world_ok 0%nat [] session_two_tracks).1.2)
  = es_changed (sys session_two_tracks) /\
  (forall p, p ∈ out_streams (sys (Del world_ok 0%nat [] session_two_tracks).1.2)
             <-> p ∈ out_streams (sys session_two_tracks) /\ p <> 0%nat) /\
  (forall p, p <> 0%nat ->
     mem (Del world_ok 0%nat [] session_two_tracks).1.2 !! p
     = mem session_two_tracks !! p).
Proof.
  apply (Del_while_casting world_ok 0%nat 1%nat [] session_two_tracks).
  - apply session_two_tracks_inv.
  - set (l := out_streams (sys session_two_tracks)). vm_compute in l. subst l.
    repeat first [apply list_elem_of_here | apply list_elem_of_further].
  - discriminate.
Defined.

Lemma Del_then_Send_keeps_casting_witness :
  Send world_ok 1%nat 5%nat [] (Del world_ok 0%nat [] session_two_tracks).1.2
  = (sout_StreamIdSend world_ok [] (p_out (sys session_two_tracks)) 6%nat 5%nat,
     (Del world_ok 0%nat [] session_two_tracks).1.2,
     [E_sout_StreamIdSend (p_out (sys session_two_tracks)) 6%nat 5%nat
        (sout_StreamIdSend world_ok [] (p_out (sys session_two_tracks)) 6%nat
           5%nat)]).
Proof.
  apply (Del_then_Send_keeps_casting world_ok 0%nat 1%nat 6%nat 5%nat [] []
           session_two_tracks).
  - apply session_two_tracks_inv.
  - reflexivity.
  - set (l := out_streams (sys session_two_tracks)). vm_compute in l. subst l.
    repeat first [apply list_elem_of_here | apply list_elem_of_further].
  - discriminate.
  - vm_compute. reflexivity.
Defined.


(** ** The renderer control client in detail *)

Section ClientSearch.

Variable w : World.
Variable self : MediaRenderer.

Lemma getServiceURL_services_first type service l h m :
  getServiceURL_services w self type service l h m
  = match head (omap (service_field type service) l) with
    | None => (None, m, [])
    | Some field =>
        if malloc_url w h
        then (Some (UpnpResolveURL w (h ++ [E_malloc_url true]) (base_url self)
                      field), m,
              [E_malloc_url true;
               E_UpnpResolveURL (base_url self) field
                 (UpnpResolveURL w (h ++ [E_malloc_url true]) (base_url self)
                    field)])
        else (Some None, m, [E_malloc_url false])
    end.
Proof.
  induction l as [|e l IH]; [done|].
  cbn [getServiceURL_services omap list_omap]. unfold service_field at 1.
  destruct (xml_getChildElementValue e "serviceType") as [t|]; [|exact IH].
  destruct (strstr t type); simpl; [|exact IH].
  destruct (xml_getChildElementValue e service) as [field|]; [|exact IH].
  simpl. unfold bind, call, ret. simpl.
  by destruct (malloc_url w h).
Qed.

Lemma getServiceURL_devices_first type service devices h m :
  getServiceURL_devices w self type service devices h m
  = match head (matching_fields type service devices) with
    | None => (None, m, [])
    | Some field =>
        if malloc_url w h
        then (UpnpResolveURL w (h ++ [E_malloc_url true]) (base_url self) field,
              m,
              [E_malloc_url true;
               E_UpnpResolveURL (base_url self) field
                 (UpnpResolveURL w (h ++ [E_malloc_url true]) (base_url self)
                    field)])
        else (None, m, [E_malloc_url false])
    end.
Proof.
  revert h. induction devices as [|d devices IH]; intros h; [done|].
  destruct d as [[l|]|]; [|exact (IH h)|exact (IH h)].
  change (matching_fields type service (Some (Some l) :: devices))
    with (omap (service_field type service) l
          ++ matching_fields type service devices).
  cbn [getServiceURL_devices]. unfold bind.
  rewrite getServiceURL_services_first.
  destruct (omap (service_field type service) l) as [|field fields]; simpl.
  - rewrite app_nil_r.
    transitivity (getServiceURL_devices w self type service devices h m);
      [|exact (IH h)].
    by destruct (getServiceURL_devices w self type service devices h m)
      as [[r m'] t].
  - by destruct (malloc_url w h).
Qed.

(** X15: [getServiceURL] works on the first service that qualifies and on
    no other.  In document order over all devices, the first service whose
    type contains the wanted type and that has the wanted field decides:
    one buffer is allocated and the field is resolved against the base
    URL, and what the resolution gives is the result; when the allocation
    or the resolution fails the result is null, even if a later service
    would do.  Without such a service, or when the description has no
    device list or cannot be fetched, the result is null and nothing is
    allocated or resolved. *)
Theorem getServiceURL_first_match type service h m :
  getServiceURL w self type service h m
  = match UpnpDownloadXmlDoc w h (device_url self) with
    | None => (None, m, [E_UpnpDownloadXmlDoc (device_url self) None])
    | Some doc =>
        let fetched := [E_UpnpDownloadXmlDoc (device_url self) (Some doc);
                        E_free_description_doc] in
        match head (match doc with
                    | Some devices => matching_fields type service devices
                    | None => []
                    end) with
        | None => (None, m, fetched)
        | Some field =>
            if malloc_url w (h ++ fetched)
            then (UpnpResolveURL w (h ++ fetched ++ [E_malloc_url true])
                    (base_url self) field,
                  m,
                  fetched
                  ++ [E_malloc_url true;
                      E_UpnpResolveURL (base_url self) field
                        (UpnpResolveURL w (h ++ fetched ++ [E_malloc_url true])
                           (base_url self) field)])
            else (None, m, fetched ++ [E_malloc_url false])
        end
    end.
Proof.
  unfold getServiceURL, bind, call, emit, ret. simpl.
  destruct (UpnpDownloadXmlDoc w h (device_url self)) as [[devices|]|]; simpl;
    [|done|done].
  rewrite getServiceURL_devices_first.
  rewrite <- !app_assoc. simpl.
  destruct (head (matching_fields type service devices)) as [field|]; [|done].
  by destruct (malloc_url w _).
Qed.

End ClientSearch.

Lemma response_releases_cons n e t :
  response_releases n (e :: t)
  = ((if response_release n e then 1 else 0) + response_releases n t)%nat.
Proof.
  unfold response_releases. rewrite filter_cons.
  destruct (response_release n e); simpl; done.
Qed.

Section ClientVerbs.

Variable w : World.
Variable self : MediaRenderer.

Lemma verb_contract action_name arguments :
  control_verb_contract w self action_name arguments
    (p_response <- SendAction w self action_name AV_TRANSPORT_SERVICE_TYPE
                     arguments ;;
     match p_response with
     | None => ret (VLC_EGENERIC w)
     | Some d => emit (E_ixmlDocument_free (ResponseDoc d)) ;; ret (VLC_SUCCESS w)
     end).
Proof.
  intros h m.
  destruct (SendAction_run w self action_name AV_TRANSPORT_SERVICE_TYPE
              arguments h m) as (control_url & pre & Hurl & Hpre & Hsend).
  simpl in Hsend. rewrite make_action_eq in Hsend.
  destruct (UpnpSendAction w (h ++ pre) (handle self) control_url
              AV_TRANSPORT_SERVICE_TYPE _) as [ret_code response] eqn:Hd.
  exists control_url, pre, ret_code, response.
  split; [done|]. split; [done|].
  unfold bind. rewrite Hsend. simpl.
  pose proof (dispatched_resolve pre Hpre) as Hd0.
  assert (Hr0 : forall n, response_releases n pre = 0%nat).
  { intros n. by apply response_releases_resolve. }
  destruct (ret_code =? UPNP_E_SUCCESS w); destruct response as [d|];
    unfold emit, ret; simpl;
    (split; [done|]); (split; [done|]);
    rewrite <- ?app_assoc, ?app_nil_r;
    (split; [by rewrite dispatched_app, Hd0|]);
    intros n; rewrite response_releases_app, Hr0;
    repeat (rewrite response_releases_app || rewrite response_releases_cons);
    simpl;
    try (destruct (decide (d = n)) as [->|Hne];
         [rewrite !bool_decide_true by done
         |rewrite !bool_decide_false by congruence]);
    try done.
Qed.

(** X16: Play, Stop and SetAVTransportURI each send one AVTransport
    request with their own name and arguments (InstanceID 0 first, then
    the speed for Play, the URI and an empty metadata field for
    SetAVTransportURI) to the control URL that was resolved, report
    success exactly when the dispatch succeeded and gave a response,
    release a response they were given exactly once on every path, and
    leave the session as it is. *)
Theorem control_verbs_contract speed uri :
  control_verb_contract w self "Play"
    [("InstanceID", "0"); ("Speed", speed)] (Play w self speed) /\
  control_verb_contract w self "Stop" [("InstanceID", "0")] (Stop w self) /\
  control_verb_contract w self "SetAVTransportURI"
    [("InstanceID", "0"); ("CurrentURI", uri); ("CurrentURIMetaData", "")]
    (SetAVTransportURI w self uri).
Proof. repeat split; apply verb_contract. Qed.

End ClientVerbs.

(** ** The conversion stage of the chain description *)

Section Conversion.

Variable w : World.

Lemma classify_step_audio sv mm c p :
  VLC_CODEC_MP4A w <> 0 ->
  (i_codec_audio (classify_step w sv mm c p) =? 0)
  = (i_codec_audio c =? 0) && negb (decodable_audio w mm p) /\
  bool_decide (is_Some (p_original_audio (classify_step w sv mm c p)))
  = bool_decide (is_Some (p_original_audio c)) || undecodable_audio w mm p.
Proof.
  intros Hnz. unfold classify_step, decodable_audio, undecodable_audio.
  destruct (mm !! p) as [rec|]; simpl.
  2: by rewrite andb_true_r, orb_false_r.
  destruct (bool_decide (i_cat (fmt rec) = AUDIO_ES)); simpl.
  - unfold canDecodeAudio.
    destruct (bool_decide_reflect (i_codec (fmt rec) = VLC_CODEC_MP4A w))
      as [He|He]; simpl.
    + destruct (Z.eqb_spec (i_codec_audio c) 0) as [Hz|Hz]; simpl.
      * rewrite He. split; [by apply Z.eqb_neq|by rewrite orb_false_r].
      * split; [by apply Z.eqb_neq|by rewrite orb_false_r].
    + rewrite andb_true_r, orb_true_r. by split.
  - rewrite andb_true_r, orb_false_r.
    destruct (sv && bool_decide (i_cat (fmt rec) = VIDEO_ES)); simpl; [|done].
    destruct (canDecodeVideo w (i_codec (fmt rec))); simpl; [|done].
    by destruct (i_codec_video c =? 0).
Qed.

Lemma classify_step_video sv mm c p :
  VLC_CODEC_H264 w <> 0 ->
  (i_codec_video (classify_step w sv mm c p) =? 0)
  = (i_codec_video c =? 0) && negb (decodable_video w sv mm p) /\
  bool_decide (is_Some (p_original_video (classify_step w sv mm c p)))
  = bool_decide (is_Some (p_original_video c)) || undecodable_video w sv mm p.
Proof.
  intros Hnz. unfold classify_step, decodable_video, undecodable_video.
  destruct (mm !! p) as [rec|]; simpl.
  2: by rewrite andb_true_r, orb_false_r.
  destruct (bool_decide_reflect (i_cat (fmt rec) = AUDIO_ES)) as [Ha|Ha]; simpl.
  - rewrite (bool_decide_eq_false_2 (i_cat (fmt rec) = VIDEO_ES))
      by (rewrite Ha; discriminate).
    rewrite andb_false_r. simpl. rewrite andb_true_r, orb_false_r.
    destruct (canDecodeAudio w (i_codec (fmt rec))); simpl; [|done].
    by destruct (i_codec_audio c =? 0).
  - destruct (sv && bool_decide (i_cat (fmt rec) = VIDEO_ES)); simpl.
    2: by rewrite andb_true_r, orb_false_r.
    unfold canDecodeVideo.
    destruct (bool_decide_reflect (i_codec (fmt rec) = VLC_CODEC_H264 w))
      as [He|He]; simpl.
    + destruct (Z.eqb_spec (i_codec_video c) 0) as [Hz|Hz]; simpl.
      * rewrite He. split; [by apply Z.eqb_neq|by rewrite orb_false_r].
      * split; [by apply Z.eqb_neq|by rewrite orb_false_r].
    + rewrite andb_true_r, orb_true_r. by split.
Qed.

Lemma fold_classify_audio sv mm l c :
  VLC_CODEC_MP4A w <> 0 ->
  (i_codec_audio (fold_left (classify_step w sv mm) l c) =? 0)
  = (i_codec_audio c =? 0) && negb (existsb (decodable_audio w mm) l) /\
  bool_decide (is_Some (p_original_audio (fold_left (classify_step w sv mm) l c)))
  = bool_decide (is_Some (p_original_audio c))
    || existsb (undecodable_audio w mm) l.
Proof.
  intros Hnz. revert c. induction l as [|p l IH]; intros c; simpl.
  { by rewrite andb_true_r, orb_false_r. }
  destruct (IH (classify_step w sv mm c p)) as [-> ->].
  destruct (classify_step_audio sv mm c p Hnz) as [-> ->].
  by rewrite negb_orb, andb_assoc, orb_assoc.
Qed.

Lemma fold_classify_video sv mm l c :
  VLC_CODEC_H264 w <> 0 ->
  (i_codec_video (fold_left (classify_step w sv mm) l c) =? 0)
  = (i_codec_video c =? 0) && negb (existsb (decodable_video w sv mm) l) /\
  bool_decide (is_Some (p_original_video (fold_left (classify_step w sv mm) l c)))
  = bool_decide (is_Some (p_original_video c))
    || existsb (undecodable_video w sv mm) l.
Proof.
  intros Hnz. revert c. induction l as [|p l IH]; intros c; simpl.
  { by rewrite andb_true_r, orb_false_r. }
  destruct (IH (classify_step w sv mm c p)) as [-> ->].
  destruct (classify_step_video sv mm c p Hnz) as [-> ->].
  by rewrite negb_orb, andb_assoc, orb_assoc.
Qed.

Lemma classify_acodec sv mm l :
  VLC_CODEC_MP4A w <> 0 ->
  (i_codec_audio (classify w sv mm l) =? 0)
  && bool_decide (is_Some (p_original_audio (classify w sv mm l)))
  = acodec_wanted w mm l.
Proof.
  intros Hnz. unfold classify, acodec_wanted.
  destruct (fold_classify_audio sv mm l classification_init Hnz) as [-> ->].
  simpl. apply andb_comm.
Qed.

Lemma classify_vcodec sv mm l :
  VLC_CODEC_H264 w <> 0 ->
  (i_codec_video (classify w sv mm l) =? 0)
  && bool_decide (is_Some (p_original_video (classify w sv mm l)))
  = vcodec_wanted w sv mm l.
Proof.
  intros Hnz. unfold classify, vcodec_wanted.
  destruct (fold_classify_video sv mm l classification_init Hnz) as [-> ->].
  simpl. apply andb_comm.
Qed.

(** X17: the conversion stage of a chain description.  When some
    registered track cannot be remuxed, the description of the chain a
    reconciliation creates is a transcode stage followed by the HTTP
    stage.  The transcode stage asks for the MP4A audio encoder exactly
    when some registered audio track cannot be decoded and no registered
    audio track can: one decodable audio track is enough for every other
    audio track to go unconverted.  The video encoder options are absent
    unless some registered video track cannot be decoded and none can, and
    are otherwise empty or the answer of a call for them in the run, made
    with the conversion quality read in the run, converted to [int]. *)
Theorem UpdateOutput_conversion_stage h m d res :
  VLC_CODEC_MP4A w <> 0 ->
  VLC_CODEC_H264 w <> 0 ->
  E_sout_StreamChainNew d res ∈ (UpdateOutput w h m).2 ->
  forallb (remuxable w (b_supports_video (sys m)) (mem m)) (streams (sys m))
  = false ->
  exists vcodec tick rnd,
    d = chain_description
          ("transcode{" +:+
           (if acodec_wanted w (mem m) (streams (sys m))
            then GetAcodecOption (VLC_CODEC_MP4A w) else "") +:+
           vcodec +:+ "}:")
          (http_port (sys m)) tick rnd /\
    (vcodec_wanted w (b_supports_video (sys m)) (mem m) (streams (sys m)) = false ->
     vcodec = "") /\
    (vcodec = "" \/
     exists f quality,
       E_var_InheritInteger (SOUT_CFG_PREFIX w +:+ "conversion-quality") quality
       ∈ (UpdateOutput w h m).2 /\
       E_GetVcodecOption (VLC_CODEC_H264 w) f (to_int quality) (Some vcodec)
       ∈ (UpdateOutput w h m).2).
Proof.
  intros Ha Hv Hin Hremux. rewrite <- classify_canRemux in Hremux.
  destruct (UpdateOutput w h m) as [[r m'] tr] eqn:H. simpl in *.
  destruct (UpdateOutput_chain_event w _ _ _ _ _ _ _ H Hin)
    as (ssout & tick & rnd & _ & _ & -> & _ & Htrans).
  destruct (Htrans Hremux) as (h1 & m0 & m1 & t1 & Hrun & Hsub).
  apply UpdateOutput_transcode_shape in Hrun as [_ Hshape].
  destruct (Hshape ssout eq_refl) as (vcodec & -> & Hcall & Hnone).
  rewrite classify_acodec in * by done. rewrite classify_vcodec in Hnone by done.
  exists vcodec, tick, rnd. split; [done|]. split; [done|].
  destruct Hcall as [->|(f & q & Hread & Hq)]; [by left|]. right.
  exists f, q. split; by apply Hsub.
Qed.

End Conversion.

(** ** The audio encoder option *)

Lemma byte_bits (x : ascii) (n : Z) :
  8 <= n -> Z.testbit (Z.of_N (N_of_ascii x)) n = false.
Proof.
  intros Hn. pose proof (N_ascii_bounded x) as Hb.
  rewrite <- (Z.mod_small (Z.of_N (N_of_ascii x)) (2 ^ 8)) by lia.
  apply Z.mod_pow2_bits_high. lia.
Qed.

Lemma byte_testbit (x : ascii) (n k : Z) :
  0 <= n < 8 -> k = 0 \/ k <= -8 \/ 8 <= k ->
  Z.testbit (Z.of_N (N_of_ascii x)) (n + k)
  = if decide (k = 0) then Z.testbit (Z.of_N (N_of_ascii x)) n else false.
Proof.
  intros Hn Hk. destruct (decide (k = 0)) as [->|Hne]; [by rewrite Z.add_0_r|].
  destruct (decide (k <= -8)).
  - apply Z.testbit_neg_r. lia.
  - apply byte_bits. lia.
Qed.

Lemma fourcc_byte_VLC_FOURCC (a b c d : ascii) :
  fourcc_byte (VLC_FOURCC a b c d) 0 = a /\
  fourcc_byte (VLC_FOURCC a b c d) 1 = b /\
  fourcc_byte (VLC_FOURCC a b c d) 2 = c /\
  fourcc_byte (VLC_FOURCC a b c d) 3 = d.
Proof.
  assert (H : forall i x,
    (forall n, 0 <= n < 8 ->
       Z.testbit (VLC_FOURCC a b c d) (n + 8 * i)
       = Z.testbit (Z.of_N (N_of_ascii x)) n) ->
    0 <= i -> fourcc_byte (VLC_FOURCC a b c d) i = x).
  { intros i x Hbits Hi. unfold fourcc_byte.
    assert (Z.land (Z.shiftr (VLC_FOURCC a b c d) (8 * i)) 255
            = Z.of_N (N_of_ascii x)) as ->.
    { apply Z.bits_inj'. intros n Hn.
      rewrite Z.land_spec, Z.shiftr_spec by done.
      change 255 with (Z.ones 8). rewrite Z.testbit_ones_nonneg by lia.
      destruct (Z.ltb_spec n 8).
      - rewrite andb_true_r. apply Hbits. lia.
      - rewrite andb_false_r. symmetry. by apply byte_bits. }
    rewrite N2Z.id. apply ascii_N_embedding. }
  assert (Hbit : forall n k, 0 <= n < 8 -> 0 <= k ->
    Z.testbit (VLC_FOURCC a b c d) (n + k)
    = Z.testbit (Z.of_N (N_of_ascii a)) (n + k)
      || Z.testbit (Z.of_N (N_of_ascii b)) (n + (k - 8))
      || Z.testbit (Z.of_N (N_of_ascii c)) (n + (k - 16))
      || Z.testbit (Z.of_N (N_of_ascii d)) (n + (k - 24))).
  { intros n k Hn Hk. unfold VLC_FOURCC.
    rewrite !Z.lor_spec, !Z.shiftl_spec by lia.
    rewrite !orb_assoc. repeat f_equal; lia. }
  assert (Hd : forall k : Z, k <> 0 ->
            forall b1 b2 : bool, (if decide (k = 0) then b1 else b2) = b2).
  { intros k Hk b1 b2. by rewrite decide_False. }
  split; [|split; [|split]]; apply H; try lia; intros n Hn;
    rewrite Hbit by lia; rewrite !byte_testbit by lia.
  - rewrite (Hd (8 * 0 - 8)), (Hd (8 * 0 - 16)), (Hd (8 * 0 - 24)) by lia.
    rewrite decide_True by lia. by rewrite !orb_false_r.
  - rewrite (Hd (8 * 1)), (Hd (8 * 1 - 16)), (Hd (8 * 1 - 24)) by lia.
    rewrite decide_True by lia. by rewrite !orb_false_r.
  - rewrite (Hd (8 * 2)), (Hd (8 * 2 - 8)), (Hd (8 * 2 - 24)) by lia.
    rewrite decide_True by lia. by rewrite !orb_false_r.
  - rewrite (Hd (8 * 3)), (Hd (8 * 3 - 8)), (Hd (8 * 3 - 16)) by lia.
    rewrite decide_True by lia. done.
Qed.

(** X18: for a code made of four characters, [GetAcodecOption] writes
    these characters back in their order, up to the first NUL if there is
    one, between "acodec=" and the fixed AAC encoder option. *)
Theorem GetAcodecOption_VLC_FOURCC (a b c d : ascii) :
  GetAcodecOption (VLC_FOURCC a b c d)
  = "acodec=" +:+ c_str [a; b; c; d] +:+ ",aenc=avcodec{codec=aac},".
Proof.
  unfold GetAcodecOption, vlc_fourcc_to_char.
  destruct (fourcc_byte_VLC_FOURCC a b c d) as (-> & -> & -> & ->).
  reflexivity.
Qed.

Lemma UpdateOutput_conversion_stage_witness :
  exists vcodec tick rnd,
    "transcode{}:http{dst=:7070/dlna/1001/42/stream,mux=mp4stream,access=http{mime=video/mp4}}"
    = chain_description
        ("transcode{" +:+
         (if acodec_wanted world_ok (mem session_casting_dirty)
               (streams (sys session_casting_dirty))
          then GetAcodecOption (VLC_CODEC_MP4A world_ok) else "") +:+
         vcodec +:+ "}:")
        (http_port (sys session_casting_dirty)) tick rnd /\
    (vcodec_wanted world_ok (b_supports_video (sys session_casting_dirty))
       (mem session_casting_dirty) (streams (sys session_casting_dirty)) = false ->
     vcodec = "") /\
    (vcodec = "" \/
     exists f quality,
       E_var_InheritInteger (SOUT_CFG_PREFIX world_ok +:+ "conversion-quality")
         quality
       ∈ (UpdateOutput world_ok [] session_casting_dirty).2 /\
       E_GetVcodecOption (VLC_CODEC_H264 world_ok) f (to_int quality)
         (Some vcodec)
       ∈ (UpdateOutput world_ok [] session_casting_dirty).2).
Proof.
  apply (UpdateOutput_conversion_stage world_ok [] session_casting_dirty _
           (Some 1%nat)).
  - discriminate.
  - discriminate.
  - set (tr := (UpdateOutput world_ok [] session_casting_dirty).2).
    vm_compute in tr. subst tr.
    repeat first [apply list_elem_of_here | apply list_elem_of_further].
  - reflexivity.
Defined.

(** ** The claims on the control step and on the resource path *)

Lemma omap_cons_eq {A} (f : event -> option A) e t :
  omap f (e :: t)
  = match f e with Some x => x :: omap f t | None => omap f t end.
Proof. reflexivity. Qed.

Lemma omap_class {A} (f : event -> option A) (P : event -> bool) t :
  (forall e, P e = true -> f e = None) ->
  Forall (fun e => P e = true) t -> omap f t = [].
Proof.
  intros HP H. induction H as [|e t He _ IH]; [done|].
  by rewrite omap_cons_eq, (HP e He).
Qed.

Lemma action_results_nil_dispatched t :
  action_results t = [] -> dispatched t = [].
Proof.
  induction t as [|e t IH]; [done|].
  rewrite action_results_cons, dispatched_cons.
  destruct e; simpl; try exact IH. discriminate.
Qed.

(** A reconciliation that has created a chain and bound a stream to it:
    what it read, what it asked the chain factory for, and what it sent. *)
Lemma UpdateOutput_rebuilt w h m d out :
  E_sout_StreamChainNew d (Some out) ∈ (UpdateOutput w h m).2 ->
  out_streams (sys (UpdateOutput w h m).1.2) <> [] ->
  exists ip tick rnd,
    dispatched (UpdateOutput w h m).2
    = control_requests (announced_uri ip (http_port (sys m)) tick rnd).
Proof.
  destruct (UpdateOutput w h m) as [[r m'] tr] eqn:H. simpl. intros Hin Hbound.
  apply UpdateOutput_exits in H
    as (tconv & tserve & -> & Hconv & _ & Hcases).
  assert (Hc0 : dispatched tconv = []).
  { eapply dispatched_class; [|exact Hconv]. by intros []. }
  destruct Hcases as [(-> & _)|Hcases].
  { exfalso. rewrite app_nil_r in Hin.
    by apply (elem_of_class _ _ _ Hconv) in Hin. }
  destruct Hcases as (ssout & tick & rnd & tip & Htip & _ & Hcases).
  assert (Hi0 : dispatched tip = []).
  { eapply dispatched_class; [|exact Htip]. by intros []. }
  destruct Hcases as [(-> & _)|(ip & _ & Hcases)].
  { exfalso. trace_elem_class Hin. }
  destruct Hcases as [(-> & _)|[(_ & _ & _ & Ho & _)|Hcases]].
  { exfalso. trace_elem_class Hin. }
  { done. }
  destruct Hcases as (out' & tA & HtA & Hcases).
  assert (Ha0 : dispatched tA = []).
  { eapply dispatched_class; [|exact HtA]. by intros []. }
  destruct Hcases as [(_ & _ & Ho & _)|(tcl & -> & _ & Hreq & _)]; [done|].
  exists ip, tick, rnd. trace_dispatched. by rewrite Hc0, Hi0, Ha0, Hreq.
Qed.

(** C1, as amended: in the final control step of a rebuild, that is, when
    a reconciliation has created a chain and bound a stream to it, Stop,
    SetAVTransportURI and Play are dispatched, once each and in this
    order, whatever code each dispatch returns, and the reconciliation
    reports success; and a reconciliation that dispatches any control
    action dispatches all three and reports success. *)
Theorem UpdateOutput_control_actions_unchecked w h m :
  (forall d out,
     E_sout_StreamChainNew d (Some out) ∈ (UpdateOutput w h m).2 ->
     out_streams (sys (UpdateOutput w h m).1.2) <> [] ->
     (UpdateOutput w h m).1.1 = VLC_SUCCESS w /\
     exists c1 c2 c3,
       action_results (UpdateOutput w h m).2
       = [("Stop", c1); ("SetAVTransportURI", c2); ("Play", c3)]) /\
  (action_results (UpdateOutput w h m).2 = [] \/
   (UpdateOutput w h m).1.1 = VLC_SUCCESS w /\
   exists c1 c2 c3,
     action_results (UpdateOutput w h m).2
     = [("Stop", c1); ("SetAVTransportURI", c2); ("Play", c3)]).
Proof.
  assert (Hact :
    action_results (UpdateOutput w h m).2 = [] \/
    (UpdateOutput w h m).1.1 = VLC_SUCCESS w /\
    exists c1 c2 c3,
      action_results (UpdateOutput w h m).2
      = [("Stop", c1); ("SetAVTransportURI", c2); ("Play", c3)]).
  { destruct (UpdateOutput w h m) as [[r m'] tr] eqn:H.
    by apply UpdateOutput_run in H as (_ & _ & _ & _ & _ & _ & Hact & _). }
  split; [|exact Hact].
  intros d out Hin Hbound.
  destruct Hact as [Hnone|Hall]; [|exact Hall].
  exfalso.
  destruct (UpdateOutput_rebuilt w h m d out Hin Hbound) as (ip & tick & rnd & Hd).
  apply action_results_nil_dispatched in Hnone. by rewrite Hnone in Hd.
Qed.

Lemma UpdateOutput_control_actions_unchecked_witness :
  (UpdateOutput world_seturi_fails [] session_one_track).1.1
  = VLC_SUCCESS world_seturi_fails /\
  exists c1 c2 c3,
    action_results (UpdateOutput world_seturi_fails [] session_one_track).2
    = [("Stop", c1); ("SetAVTransportURI", c2); ("Play", c3)].
Proof.
  apply (proj1 (UpdateOutput_control_actions_unchecked world_seturi_fails []
                  session_one_track)
           "http{dst=:7070/dlna/1000/42/stream,mux=mp4stream,access=http{mime=video/mp4}}"
           1%nat).
  - set (tr := (UpdateOutput world_seturi_fails [] session_one_track).2).
    vm_compute in tr. subst tr.
    repeat first [apply list_elem_of_here | apply list_elem_of_further].
  - discriminate.
Defined.

(** What a reconciliation that asks for a chain reads and serves. *)
Lemma UpdateOutput_rebuild_path w h m d res :
  E_sout_StreamChainNew d res ∈ (UpdateOutput w h m).2 ->
  exists ssout tick rnd,
    clock_readings (UpdateOutput w h m).2 = [tick] /\
    random_readings (UpdateOutput w h m).2 = [rnd] /\
    d = chain_description ssout (http_port (sys m)) tick rnd /\
    (dispatched (UpdateOutput w h m).2 = [] \/
     exists ip,
       dispatched (UpdateOutput w h m).2
       = control_requests (announced_uri ip (http_port (sys m)) tick rnd)).
Proof.
  destruct (UpdateOutput w h m) as [[r m'] tr] eqn:H. simpl. intros Hin.
  apply UpdateOutput_exits in H
    as (tconv & tserve & -> & Hconv & _ & Hcases).
  assert (Hc0 : dispatched tconv = []).
  { eapply dispatched_class; [|exact Hconv]. by intros []. }
  assert (Hc1 : clock_readings tconv = []).
  { eapply omap_class; [|exact Hconv]. by intros []. }
  assert (Hc2 : random_readings tconv = []).
  { eapply omap_class; [|exact Hconv]. by intros []. }
  destruct Hcases as [(-> & _)|Hcases].
  { exfalso. rewrite app_nil_r in Hin.
    by apply (elem_of_class _ _ _ Hconv) in Hin. }
  destruct Hcases as (ssout & tick & rnd & tip & Htip & _ & Hcases).
  assert (Hi0 : dispatched tip = []).
  { eapply dispatched_class; [|exact Htip]. by intros []. }
  assert (Hi1 : clock_readings tip = []).
  { eapply omap_class; [|exact Htip]. by intros []. }
  assert (Hi2 : random_readings tip = []).
  { eapply omap_class; [|exact Htip]. by intros []. }
  destruct Hcases as [(-> & _)|(ip & _ & Hcases)].
  { exfalso. trace_elem_class Hin. }
  destruct Hcases as [(-> & _)|[(-> & _)|Hcases]].
  { exfalso. trace_elem_class Hin. }
  { exists ssout, tick, rnd.
    unfold clock_readings, random_readings in *.
    repeat (rewrite omap_app || rewrite omap_cons_eq). simpl.
    rewrite Hc1, Hc2, Hi1, Hi2. split; [done|]. split; [done|]. split.
    - trace_elem_class Hin. by injection Hin as -> _.
    - left. trace_dispatched. by rewrite Hc0, Hi0. }
  destruct Hcases as (out & tA & HtA & Hcases).
  assert (Ha0 : dispatched tA = []).
  { eapply dispatched_class; [|exact HtA]. by intros []. }
  assert (Ha1 : clock_readings tA = []).
  { eapply omap_class; [|exact HtA]. by intros []. }
  assert (Ha2 : random_readings tA = []).
  { eapply omap_class; [|exact HtA]. by intros []. }
  destruct Hcases as [(-> & _)|(tcl & -> & Hcl & Hreq & _)].
  { exists ssout, tick, rnd.
    unfold clock_readings, random_readings in *.
    repeat (rewrite omap_app || rewrite omap_cons_eq). simpl.
    rewrite Hc1, Hc2, Hi1, Hi2, Ha1, Ha2. split; [done|]. split; [done|]. split.
    - trace_elem_class Hin. by injection Hin as -> _.
    - left. trace_dispatched. by rewrite Hc0, Hi0, Ha0. }
  assert (Hl1 : clock_readings tcl = []).
  { eapply omap_class; [|exact Hcl]. by intros []. }
  assert (Hl2 : random_readings tcl = []).
  { eapply omap_class; [|exact Hcl]. by intros []. }
  exists ssout, tick, rnd.
  unfold clock_readings, random_readings in *.
  repeat (rewrite omap_app || rewrite omap_cons_eq). simpl.
  rewrite Hc1, Hc2, Hi1, Hi2, Ha1, Ha2, Hl1, Hl2.
  split; [done|]. split; [done|]. split.
  - trace_elem_class Hin. by injection Hin as -> _.
  - right. exists ip. trace_dispatched. by rewrite Hc0, Hi0, Ha0, Hreq.
Qed.

(** C7, as amended: a rebuild, that is, a reconciliation that asks for a
    chain, reads the clock once and the random generator once; the chain
    it asks for serves the path /dlna/<tick>/<random>/stream built from
    these two readings, the random number converted to an unsigned 64-bit
    value, and the URI it announces, if it announces one, ends in the same
    path.  The paths of two rebuilds are equal exactly when the two
    rebuilds read the same tick and random numbers with the same
    conversion; they differ as soon as the clock or the converted random
    number does. *)
Theorem rebuild_paths_equal_iff w1 h1 m1 d1 res1 w2 h2 m2 d2 res2 :
  E_sout_StreamChainNew d1 res1 ∈ (UpdateOutput w1 h1 m1).2 ->
  E_sout_StreamChainNew d2 res2 ∈ (UpdateOutput w2 h2 m2).2 ->
  exists ssout1 tick1 rnd1 ssout2 tick2 rnd2,
    clock_readings (UpdateOutput w1 h1 m1).2 = [tick1] /\
    random_readings (UpdateOutput w1 h1 m1).2 = [rnd1] /\
    d1 = chain_description ssout1 (http_port (sys m1)) tick1 rnd1 /\
    (dispatched (UpdateOutput w1 h1 m1).2 = [] \/
     exists ip,
       dispatched (UpdateOutput w1 h1 m1).2
       = control_requests (announced_uri ip (http_port (sys m1)) tick1 rnd1)) /\
    clock_readings (UpdateOutput w2 h2 m2).2 = [tick2] /\
    random_readings (UpdateOutput w2 h2 m2).2 = [rnd2] /\
    d2 = chain_description ssout2 (http_port (sys m2)) tick2 rnd2 /\
    (dispatched (UpdateOutput w2 h2 m2).2 = [] \/
     exists ip,
       dispatched (UpdateOutput w2 h2 m2).2
       = control_requests (announced_uri ip (http_port (sys m2)) tick2 rnd2)) /\
    (root_url tick1 rnd1 = root_url tick2 rnd2 <->
     tick1 = tick2 /\ rnd1 `mod` 2 ^ 64 = rnd2 `mod` 2 ^ 64).
Proof.
  intros H1 H2.
  destruct (UpdateOutput_rebuild_path w1 h1 m1 d1 res1 H1)
    as (ssout1 & tick1 & rnd1 & Hc1 & Hr1 & Hd1 & Hu1).
  destruct (UpdateOutput_rebuild_path w2 h2 m2 d2 res2 H2)
    as (ssout2 & tick2 & rnd2 & Hc2 & Hr2 & Hd2 & Hu2).
  exists ssout1, tick1, rnd1, ssout2, tick2, rnd2.
  repeat (split; [done|]). apply root_url_equal_iff.
Qed.

Lemma rebuild_paths_equal_iff_witness :
  exists ssout1 tick1 rnd1 ssout2 tick2 rnd2,
    clock_readings first_rebuild.2 = [tick1] /\
    random_readings first_rebuild.2 = [rnd1] /\
    "http{dst=:7070/dlna/1000/42/stream,mux=mp4stream,access=http{mime=video/mp4}}"
    = chain_description ssout1 (http_port (sys session_one_track)) tick1 rnd1 /\
    (dispatched first_rebuild.2 = [] \/
     exists ip,
       dispatched first_rebuild.2
       = control_requests
           (announced_uri ip (http_port (sys session_one_track)) tick1 rnd1)) /\
    clock_readings second_rebuild.2 = [tick2] /\
    random_readings second_rebuild.2 = [rnd2] /\
    "http{dst=:7070/dlna/1000/42/stream,mux=mp4stream,access=http{mime=video/mp4}}"
    = chain_description ssout2 (http_port (sys flush_between.1.2)) tick2 rnd2 /\
    (dispatched second_rebuild.2 = [] \/
     exists ip,
       dispatched second_rebuild.2
       = control_requests
           (announced_uri ip (http_port (sys flush_between.1.2)) tick2 rnd2)) /\
    (root_url tick1 rnd1 = root_url tick2 rnd2 <->
     tick1 = tick2 /\ rnd1 `mod` 2 ^ 64 = rnd2 `mod` 2 ^ 64).
Proof.
  apply (rebuild_paths_equal_iff world_still_clock [] session_one_track _
           (Some 1%nat) world_still_clock
           (first_rebuild.2 ++ flush_between.2) flush_between.1.2 _
           (Some 1%nat)).
  - set (tr := (UpdateOutput world_still_clock [] session_one_track).2).
    vm_compute in tr. subst tr.
    repeat first [apply list_elem_of_here | apply list_elem_of_further].
  - set (tr := (UpdateOutput world_still_clock
                  (first_rebuild.2 ++ flush_between.2) flush_between.1.2).2).
    vm_compute in tr. subst tr.
    repeat first [apply list_elem_of_here | apply list_elem_of_further].
Defined.

(** ** Chain creation and registration, call by call *)

Lemma list_omap_ext_elem {A B} (f g : A -> option B) (l : list A) :
  (forall x, x ∈ l -> f x = g x) -> omap f l = omap g l.
Proof.
  induction l as [|x l IH]; intros H; [done|].
  change (omap f (x :: l))
    with (match f x with Some y => y :: omap f l | None => omap f l end).
  change (omap g (x :: l))
    with (match g x with Some y => y :: omap g l | None => omap g l end).
  rewrite (H x) by (apply elem_of_cons; by left).
  rewrite IH; [done|]. intros y Hy. apply H. apply elem_of_cons. by right.
Qed.

Section ChainCreationExact.

Variable w : World.

(** The adding loop on a list without repetition: the chain is offered
    every stream that has a record, in the order of the list and with the
    format of its record; the answer is what the record holds afterwards;
    the streams that are kept are those that got a stream id. *)
Lemma startSoutChain_ids_answers out l h m kept m' t :
  NoDup l ->
  startSoutChain_ids w out l h m = (kept, m', t) ->
  add_answers t
  = omap (fun p => (fun rec => (fmt rec, mem m' !! p ≫= p_sub_id))
                     <$> mem m !! p) l /\
  kept = filter (fun p => is_Some (mem m' !! p ≫= p_sub_id)) l.
Proof.
  revert h m kept m' t. induction l as [|p l IH]; intros h m kept m' t Hnd H.
  - simpl in H. unfold ret in H. by injection H as <- <- <-.
  - apply NoDup_cons in Hnd as [Hp Hnd].
    simpl in H. step_call H. cbn [app] in H |- *.
    change (omap ?f (p :: l))
      with (match f p with Some y => y :: omap f l | None => omap f l end).
    rewrite filter_cons.
    destruct (mem m !! p) as [rec|] eqn:Hrec.
    2: { pose proof (startSoutChain_ids_state w _ _ _ _ _ _ _ H)
           as (_ & _ & Hout & _).
         apply IH in H as [-> ->]; [|done]. simpl in *.
         rewrite (Hout _ Hp), Hrec. simpl.
         done. }
    step_call H. step_call H.
    match type of H with
    | context [sout_StreamIdAdd w ?h' out (fmt rec)] =>
        destruct (sout_StreamIdAdd w h' out (fmt rec)) as [sub|] eqn:Hadd
    end.
    + apply bind_inv in H as (kept' & mA & tA & tB & Hrun & H & ->).
      unfold ret in H. injection H as <- <- <-.
      pose proof (startSoutChain_ids_state w _ _ _ _ _ _ _ Hrun)
        as (_ & _ & Hout & _).
      apply IH in Hrun as [Hans ->]; [|done]. simpl in *.
      rewrite (Hout _ Hp), lookup_alter_eq, Hrec. simpl.
      rewrite ?decide_True by (by eexists). split; [|done].
      unfold add_answers in *. rewrite app_nil_r.
      change (omap add_answer (?e :: ?t))
        with (match add_answer e with
              | Some y => y :: omap add_answer t
              | None => omap add_answer t
              end).
      simpl. f_equal. rewrite Hans. apply list_omap_ext_elem.
      intros q Hq. rewrite lookup_alter_ne; [done|]. by intros ->.
    + step_call H. step_call H.
      pose proof (startSoutChain_ids_state w _ _ _ _ _ _ _ H)
        as (_ & _ & Hout & _).
      apply IH in H as [Hans ->]; [|done]. simpl in *.
      rewrite (Hout _ Hp), !lookup_alter_eq, Hrec. simpl.
      rewrite ?decide_False by (by intros [? ?]). split; [|done].
      unfold add_answers in *.
      change (omap add_answer (?e :: ?t))
        with (match add_answer e with
              | Some y => y :: omap add_answer t
              | None => omap add_answer t
              end).
      simpl. f_equal. rewrite Hans. apply list_omap_ext_elem.
      intros q Hq. rewrite !lookup_alter_ne; [done|by intros ->|by intros ->].
Qed.

(** [startSoutChain] once the chain is created: the adding loop runs on
    the heap as it was, and its result decides. *)
Lemma startSoutChain_created_ids new_streams sout h m out ok m' t :
  sout_StreamChainNew w h sout = Some out ->
  startSoutChain w new_streams sout h m = (ok, m', t) ->
  exists hA mA mB kept tA,
    mem mA = mem m /\
    startSoutChain_ids w out new_streams hA mA = (kept, mB, tA) /\
    mem m' = mem mB /\
    ok = bool_decide (kept <> []) /\
    t = E_sout_StreamChainNew sout (Some out)
        :: tA ++ (if ok then [] else [E_sout_StreamChainDelete (Some out)]) /\
    out_streams (sys m') = kept /\
    p_out (sys m') = (if ok then Some out else None).
Proof.
  unfold startSoutChain. intros Hnew H.
  step_call H. step_call H. step_call H. cbn [app] in H.
  rewrite (app_nil_r h) in *. rewrite Hnew in H.
  apply bind_inv in H as (kept & mA & tA & tB & Hids & H & ->).
  pose proof (startSoutChain_ids_state w _ _ _ _ _ _ _ Hids) as (Hs & _).
  simpl in Hs.
  eexists _, _, mA, kept, tA. split; [|split; [exact Hids|]]; [done|].
  step_call H. destruct kept as [|k kept].
  - step_call H. unfold ret in H. injection H as <- <- <-.
    simpl. rewrite Hs. simpl. by rewrite ?app_nil_r, ?Hnew.
  - unfold ret in H. injection H as <- <- <-. simpl. rewrite Hs. simpl.
    by rewrite ?app_nil_r, ?Hnew.
Qed.

(** X19: [startSoutChain] on a list of streams without repetition.  When
    no chain is created it makes this one call, returns false and leaves
    the session without chain and bound streams, with every record as it
    was (a stream id held before is still held).  When the chain is
    created, it offers the chain every stream of the list that has a
    record, once each, in the order of the list and with the format of the
    record, and makes no other call before it is done with them; what the
    chain answers for a stream is what the record of this stream holds
    afterwards; the bound set is the list of the streams that got a stream
    id, in their order; it returns true, with this chain as the session's
    chain, exactly when some stream got one, and otherwise deletes the
    chain last and leaves the session without chain. *)
Theorem startSoutChain_outcome new_streams sout h m :
  NoDup new_streams ->
  match sout_StreamChainNew w h sout with
  | None =>
      startSoutChain w new_streams sout h m
      = (false,
         {| sys := with_out_streams [] (with_p_out None (sys m));
            mem := mem m |},
         [E_sout_StreamChainNew sout None])
  | Some out =>
      exists tA,
        (startSoutChain w new_streams sout h m).2
        = E_sout_StreamChainNew sout (Some out)
          :: tA ++ (if (startSoutChain w new_streams sout h m).1.1 then []
                    else [E_sout_StreamChainDelete (Some out)]) /\
        Forall (fun e => is_add_op e = true) tA /\
        add_answers tA
        = omap (fun p =>
                  (fun rec =>
                     (fmt rec,
                      mem (startSoutChain w new_streams sout h m).1.2 !! p
                      ≫= p_sub_id)) <$> mem m !! p)
            new_streams /\
        out_streams (sys (startSoutChain w new_streams sout h m).1.2)
        = filter (fun p =>
                    is_Some (mem (startSoutChain w new_streams sout h m).1.2
                               !! p ≫= p_sub_id))
            new_streams /\
        (startSoutChain w new_streams sout h m).1.1
        = bool_decide
            (out_streams (sys (startSoutChain w new_streams sout h m).1.2)
             <> []) /\
        p_out (sys (startSoutChain w new_streams sout h m).1.2)
        = (if (startSoutChain w new_streams sout h m).1.1 then Some out
           else None)
  end.
Proof.
  intros Hnd.
  destruct (sout_StreamChainNew w h sout) as [out|] eqn:Hnew.
  - destruct (startSoutChain w new_streams sout h m) as [[ok m'] t] eqn:H.
    simpl.
    destruct (startSoutChain_created_ids _ _ _ _ _ _ _ _ Hnew H)
      as (hA & mA & mB & kept & tA & HmA & Hids & HmB & Hok & Ht & Ho & Hp).
    pose proof (startSoutChain_ids_calls w _ _ _ _ _ _ _ Hids) as Hcalls.
    apply startSoutChain_ids_answers in Hids as [Hans Hkept]; [|done].
    exists tA. rewrite HmB, Ho. rewrite <- HmA. rewrite <- Hkept.
    by rewrite Hans.
  - unfold startSoutChain, bind, set_sys, call, ret. simpl.
    rewrite app_nil_r, Hnew. simpl. done.
Qed.

(** X14: [Add].  A track that is not audio is turned down on a session
    without video support, with no call at all.  Otherwise one allocation
    is tried: when it fails the result is null and nothing changes; when
    it succeeds the handle is an address that was neither registered nor
    in use, its record holds the format and no stream id, the handle goes
    to the end of the registry and the session is marked dirty, while the
    chain, the bound set and the records of the other tracks are what they
    were. *)
Theorem Add_registers_or_rejects p_fmt h m :
  session_inv m ->
  exists p,
    (p ∉ streams (sys m)) /\ mem m !! p = None /\
    Add w p_fmt h m
    = if negb (b_supports_video (sys m))
         && negb (bool_decide (i_cat p_fmt = AUDIO_ES))
      then (None, m, [])
      else if malloc_id w h
           then (Some p,
                 {| sys := with_es_changed true
                             (with_streams (streams (sys m) ++ [p]) (sys m));
                    mem := <[p := {| fmt := p_fmt; p_sub_id := None |}]> (mem m) |},
                 [E_malloc_id (Some p)])
           else (None, m, [E_malloc_id None]).
Proof.
  intros (Hnd & Hrec & _). exists (fresh (dom (mem m))).
  split.
  { intros Hin. apply Hrec in Hin. apply elem_of_dom in Hin.
    by apply is_fresh in Hin. }
  split; [apply not_elem_of_dom; apply is_fresh|].
  unfold Add, bind, get_sys, get_mem, call, set_mem, set_sys, ret. simpl.
  destruct (negb (b_supports_video (sys m)) &&
            negb (bool_decide (i_cat p_fmt = AUDIO_ES))); [by destruct m|].
  rewrite !app_nil_r. simpl.
  destruct (malloc_id w h); simpl; [done|by destruct m].
Qed.

End ChainCreationExact.

Lemma startSoutChain_outcome_witness :
  exists tA,
    (startSoutChain world_ok [0%nat] "http" [] session_one_track).2
    = E_sout_StreamChainNew "http" (Some 1%nat)
      :: tA
         ++ (if (startSoutChain world_ok [0%nat] "http" []
                   session_one_track).1.1
             then [] else [E_sout_StreamChainDelete (Some 1%nat)]) /\
    Forall (fun e => is_add_op e = true) tA /\
    add_answers tA
    = omap (fun p =>
              (fun rec =>
                 (fmt rec,
                  mem (startSoutChain world_ok [0%nat] "http" []
                         session_one_track).1.2 !! p ≫= p_sub_id))
              <$> mem session_one_track !! p)
        [0%nat] /\
    out_streams
      (sys (startSoutChain world_ok [0%nat] "http" [] session_one_track).1.2)
    = filter (fun p =>
                is_Some (mem (startSoutChain world_ok [0%nat] "http" []
                                session_one_track).1.2 !! p ≫= p_sub_id))
        [0%nat] /\
    (startSoutChain world_ok [0%nat] "http" [] session_one_track).1.1
    = bool_decide
        (out_streams
           (sys (startSoutChain world_ok [0%nat] "http" []
                   session_one_track).1.2) <> []) /\
    p_out (sys (startSoutChain world_ok [0%nat] "http" [] session_one_track).1.2)
    = (if (startSoutChain world_ok [0%nat] "http" [] session_one_track).1.1
       then Some 1%nat else None).
Proof.
  apply (startSoutChain_outcome world_ok [0%nat] "http" [] session_one_track).
  apply NoDup_singleton.
Defined.

Lemma Add_registers_or_rejects_witness :
  exists p,
    (p ∉ streams (sys session_casting)) /\ mem session_casting !! p = None /\
    Add world_ok mpga_track [] session_casting
    = if negb (b_supports_video (sys session_casting))
         && negb (bool_decide (i_cat mpga_track = AUDIO_ES))
      then (None, session_casting, [])
      else if malloc_id world_ok []
           then (Some p,
                 {| sys := with_es_changed true
                             (with_streams (streams (sys session_casting) ++ [p])
                                (sys session_casting));
                    mem := <[p := {| fmt := mpga_track; p_sub_id := None |}]>
                             (mem session_casting) |},
                 [E_malloc_id (Some p)])
           else (None, session_casting, [E_malloc_id None]).
Proof.
  apply (Add_registers_or_rejects world_ok mpga_track [] session_casting).
  apply session_casting_inv.
Defined.
